(** * Constructive transfer learning on FreeSolv: featurization, weight
      transfer, forward pass and learning-rate schedule

    Shallow embedding of [transfer3_fp_freesolv.py].  Python exceptions are
    modelled by the [result] monad, NumPy arrays by shaped row lists,
    dictionaries by [gmap], and the float arithmetic of the script by an
    interface [Float64], instantiated with IEEE 754 binary64 and with the
    exact rationals, the latter where a statement needs the order of the
    reals. *)

From Stdlib Require Import ZArith QArith Qabs String List Lia Floats Uint63.
From stdpp Require Import base option list gmap strings fin_maps pretty.

Local Open Scope string_scope.
Local Open Scope nat_scope.
Local Open Scope list_scope.

(** ** Python exceptions *)

Module Py.

Inductive exn : Set :=
  | IndexError | ValueError | AttributeError | StopIteration
  | NameError | RuntimeError.

Inductive result (A : Type) : Type :=
  | Ok (a : A)
  | Raise (e : exn).
Arguments Ok {A} a.
Arguments Raise {A} e.

Definition bind {A B} (f : A → result B) (r : result A) : result B :=
  match r with Ok a => f a | Raise e => Raise e end.

Definition succeeds {A} (r : result A) : bool :=
  match r with Ok _ => true | Raise _ => false end.

(** [for x in xs: st = body st x], stopping at the first exception. *)
Fixpoint for_each {A S} (xs : list A) (body : S → A → result S) (st : S)
  : result S :=
  match xs with
  | [] => Ok st
  | x :: xs' => bind (for_each xs' body) (body st x)
  end.

(** Values that meet in the allowable sets of [one_of_k_encoding]: the
    sets mix integers with the string ['ELSE']. *)
Inductive pyval : Set :=
  | PyInt (z : Z)
  | PyStr (s : string).

(** Python [==]: an [int] never equals a [str]. *)
Definition py_eqb (x y : pyval) : bool :=
  match x, y with
  | PyInt a, PyInt b => Z.eqb a b
  | PyStr a, PyStr b => String.eqb a b
  | _, _ => false
  end.

(** [x in xs] *)
Definition py_in (x : pyval) (xs : list pyval) : bool :=
  existsb (py_eqb x) xs.

(** [xs[-1]] *)
Definition py_last {A} (xs : list A) : result A :=
  match last xs with
  | Some v => Ok v
  | None => Raise IndexError
  end.

End Py.

Export Py.

#[global] Instance result_ret : MRet result := @Ok.
#[global] Instance result_bind : MBind result := @Py.bind.

(** ** NumPy arrays of rank two *)

Module Np.

(** Entries are kept as integers: every array of the featurization holds
    only 0, 1 and 2, which [float64] represents exactly. *)
Record ndarray : Type := mk_ndarray {
  nrows : nat;
  ncols : nat;
  rows : list (list Z)
}.

Definition shape (a : ndarray) : nat * nat := (nrows a, ncols a).

Definition zeros (r c : nat) : ndarray :=
  mk_ndarray r c (replicate r (replicate c 0%Z)).

(** [np.empty((0, c), int)] has no entry. *)
Definition empty0 (c : nat) : ndarray := mk_ndarray 0 c [].

Definition eye (n : nat) : ndarray :=
  mk_ndarray n n
    (map (fun i => map (fun j => if decide (i = j) then 1%Z else 0%Z) (seq 0 n))
         (seq 0 n)).

(** [a[i, j]] *)
Definition get (a : ndarray) (i j : nat) : option Z :=
  rows a !! i ≫= (.!! j).

Definition at_ (a : ndarray) (i j : nat) : Z := default 0%Z (get a i j).

(** [a + b] for two arrays of one shape (the only use in the script). *)
Definition add (a b : ndarray) : result ndarray :=
  if decide (shape a = shape b) then
    Ok (mk_ndarray (nrows a) (ncols a)
          (zip_with (zip_with Z.add) (rows a) (rows b)))
  else Raise ValueError.

(** [np.append(a, [row], axis = 0)] *)
Definition append_row (a : ndarray) (row : list Z) : result ndarray :=
  if decide (length row = ncols a) then
    Ok (mk_ndarray (S (nrows a)) (ncols a) (rows a ++ [row]))
  else Raise ValueError.

(** Broadcasting of one dimension of extent [s] onto extent [t]. *)
Definition broadcastable (s t : nat) : bool :=
  bool_decide (s = t) || bool_decide (s = 1).

Definition bidx (s i : nat) : nat := if decide (s = 1) then 0 else i.

(** [tgt[:r, :c] = src].  The slice bounds are clipped to the shape of
    [tgt]; [src] must broadcast onto the clipped slice, otherwise NumPy
    raises [ValueError]. *)
Definition assign_block (tgt : ndarray) (r c : nat) (src : ndarray)
  : result ndarray :=
  let tr := r `min` nrows tgt in
  let tc := c `min` ncols tgt in
  if broadcastable (nrows src) tr && broadcastable (ncols src) tc then
    Ok (mk_ndarray (nrows tgt) (ncols tgt)
          (imap (fun i row =>
                   if decide (i < tr) then
                     imap (fun j x =>
                             if decide (j < tc)
                             then at_ src (bidx (nrows src) i) (bidx (ncols src) j)
                             else x) row
                   else row)
                (rows tgt)))
  else Raise ValueError.

End Np.

(** ** RDKit molecules *)

Module Chem.

Record Atom : Set := mk_atom {
  GetSymbol : string;
  GetFormalCharge : Z;
  GetTotalNumHs : Z;
  GetIsAromatic : bool
}.

(** A molecule is its atom list and its bonds, each bond a pair of atom
    indices. *)
Record Mol : Set := mk_mol {
  mol_atoms : list Atom;
  mol_bonds : list (nat * nat)
}.

Definition GetNumAtoms (m : Mol) : nat := length (mol_atoms m).

Definition GetAtomWithIdx (m : Mol) (i : nat) : result Atom :=
  match mol_atoms m !! i with
  | Some a => Ok a
  | None => Raise RuntimeError
  end.

Definition bonded (m : Mol) (i j : nat) : bool :=
  existsb (fun b => (bool_decide (b.1 = i) && bool_decide (b.2 = j))
                    || (bool_decide (b.1 = j) && bool_decide (b.2 = i)))
          (mol_bonds m).

(** [GetAdjacencyMatrix(m)]: entry 1 for every bonded pair. *)
Definition GetAdjacencyMatrix (m : Mol) : Np.ndarray :=
  let n := GetNumAtoms m in
  Np.mk_ndarray n n
    (map (fun i => map (fun j => Z.b2z (bonded m i j)) (seq 0 n)) (seq 0 n)).

(** RDKit never builds a bond from an atom to itself, and bond ends are
    atoms of the molecule. *)
Definition mol_wf (m : Mol) : Prop :=
  Forall (fun b => b.1 ≠ b.2 ∧ b.1 < GetNumAtoms m ∧ b.2 < GetNumAtoms m)
         (mol_bonds m).

End Chem.

Export Chem.

(** ** Float arithmetic of the script

    The operations Python and Torch apply to [float64] values, kept
    abstract so that the control flow is verified for every arithmetic. *)

Class Float64 (F : Type) : Type := {
  of_int : Z → F;
  fadd : F → F → F;
  fsub : F → F → F;
  fmul : F → F → F;
  fdiv : F → F → F;
  fabs : F → F;
  flt : F → F → bool;
  fge : F → F → bool;
  lit_0_95 : F
}.

(** The two Torch nonlinearities of the forward pass. *)
Class Activation (F : Type) : Type := {
  relu : F → F;
  sigmoid : F → F
}.

(** Exact rationals as the idealised instance. *)
#[global] Instance Q_float : Float64 Q := {|
  of_int := inject_Z;
  fadd := Qplus;
  fsub := Qminus;
  fmul := Qmult;
  fdiv := Qdiv;
  fabs := Qabs;
  flt := fun x y => negb (Qle_bool y x);
  fge := fun x y => Qle_bool y x;
  lit_0_95 := (95 # 100)%Q
|}.

(** IEEE 754 binary64, the [float] of Python and NumPy.  Integers are
    converted through the 63-bit machine integers, which covers the
    constants 0, 3 and 4 and every atom count. *)
Definition float_of_Z (z : Z) : float :=
  if (z <? 0)%Z
  then PrimFloat.opp (PrimFloat.of_uint63 (Uint63.of_Z (- z)))
  else PrimFloat.of_uint63 (Uint63.of_Z z).

#[global] Instance binary64 : Float64 float := {|
  of_int := float_of_Z;
  fadd := PrimFloat.add;
  fsub := PrimFloat.sub;
  fmul := PrimFloat.mul;
  fdiv := PrimFloat.div;
  fabs := PrimFloat.abs;
  flt := PrimFloat.ltb;
  fge := fun x y => PrimFloat.leb y x;
  lit_0_95 := 0x1.e666666666666p-1%float
|}.

(** ** class DataSet *)

Module DataSet.

Section WithParser.

(** [Chem.MolFromSmiles]: [None] when the SMILES string does not parse. *)
Variable MolFromSmiles : string → option Mol.

Definition parse (smiles : string) : result Mol :=
  match MolFromSmiles smiles with
  | Some m => Ok m
  | None => Raise AttributeError
  end.

Definition one_of_k_encoding (x : pyval) (allowable_set : list pyval)
  : result (list bool) :=
  x ← (if py_in x allowable_set then Ok x else py_last allowable_set);
  Ok (map (fun s => py_eqb x s) allowable_set).

Definition symbol_set : list pyval :=
  [PyStr "C"; PyStr "N"; PyStr "O"; PyStr "F"; PyStr "ELSE"].
Definition charge_set : list pyval :=
  [PyInt (-1); PyInt 0; PyInt 1; PyStr "ELSE"].
Definition hs_set : list pyval :=
  [PyInt 0; PyInt 1; PyInt 2; PyInt 3; PyInt 4; PyStr "ELSE"].

Definition get_atom_feature (m : Mol) (atom_i : nat) : result (list bool) :=
  atom ← GetAtomWithIdx m atom_i;
  e1 ← one_of_k_encoding (PyStr (GetSymbol atom)) symbol_set;
  e2 ← one_of_k_encoding (PyInt (GetFormalCharge atom)) charge_set;
  e3 ← one_of_k_encoding (PyInt (GetTotalNumHs atom)) hs_set;
  Ok (e1 ++ e2 ++ e3 ++ [GetIsAromatic atom]).

(** The inner loop of [process_data]: rows are appended to an integer
    array, which casts the booleans to 0 and 1. *)
Definition atom_features (m : Mol) : result Np.ndarray :=
  for_each (seq 0 (GetNumAtoms m))
    (fun atom_feature i =>
       row ← get_atom_feature m i;
       Np.append_row atom_feature (map Z.b2z row))
    (Np.empty0 16).

(** One iteration of the outer loop of [process_data]. *)
Definition process_molecule (max_num_atoms : nat)
    (st : list Np.ndarray * list Np.ndarray) (smiles : string)
  : result (list Np.ndarray * list Np.ndarray) :=
  m ← parse smiles;
  let num_atoms := GetNumAtoms m in
  adj ← Np.add (GetAdjacencyMatrix m) (Np.eye num_atoms);
  let padded_feature := Np.zeros max_num_atoms 16 in
  let padded_adj := Np.zeros max_num_atoms max_num_atoms in
  atom_feature ← atom_features m;
  padded_feature ← Np.assign_block padded_feature num_atoms 16 atom_feature;
  padded_adj ← Np.assign_block padded_adj num_atoms num_atoms adj;
  Ok (st.1 ++ [padded_feature], st.2 ++ [padded_adj]).

Record t (F : Type) : Type := mk {
  smiles_list : list string;
  freeE_list : list F;
  max_num_atoms : nat;
  feature_list : list Np.ndarray;
  adj_list : list Np.ndarray
}.
Arguments mk {F}.
Arguments smiles_list {F}.
Arguments freeE_list {F}.
Arguments max_num_atoms {F}.
Arguments feature_list {F}.
Arguments adj_list {F}.

Definition process_data {F} (self : t F) : result (t F) :=
  st ← for_each (smiles_list self) (process_molecule (max_num_atoms self))
        (feature_list self, adj_list self);
  Ok (mk (smiles_list self) (freeE_list self) (max_num_atoms self) st.1 st.2).

Definition __init__ {F} (smiles_list : list string) (freeE_list : list F)
    (max_num_atoms : nat) : result (t F) :=
  process_data (mk smiles_list freeE_list max_num_atoms [] []).

Definition __len__ {F} (self : t F) : nat := length (smiles_list self).

End WithParser.

Arguments mk {F}.
Arguments smiles_list {F}.
Arguments freeE_list {F}.
Arguments max_num_atoms {F}.
Arguments feature_list {F}.
Arguments adj_list {F}.

End DataSet.

(** ** load_data *)

Module Loader.

Section WithParsers.

Context {F : Type}.
Variable MolFromSmiles : string → option Mol.
(** Python's [float(s)]: [None] where it raises [ValueError]. *)
Variable float : string → option F.

(** [line[i]] for a non-negative index. *)
Definition index {A} (line : list A) (i : nat) : result A :=
  match line !! i with
  | Some v => Ok v
  | None => Raise IndexError
  end.

Definition to_float (s : string) : result F :=
  match float s with
  | Some v => Ok v
  | None => Raise ValueError
  end.

(** The body of the loop over the rows that follow the header. *)
Definition load_line (max_num_atoms : Z)
    (st : list string * list F) (line : list string)
  : result (list string * list F) :=
  smiles ← index line 1;
  last_field ← py_last line;
  freeE ← to_float last_field;
  match MolFromSmiles smiles with
  | None => Ok st
  | Some mol =>
      if decide (Z.of_nat (GetNumAtoms mol) > max_num_atoms)%Z then Ok st
      else Ok (st.1 ++ [smiles], st.2 ++ [freeE])
  end.

(** [data] is the sequence of rows the CSV reader yields; [next(data)]
    drops the header and raises [StopIteration] on an empty file. *)
Definition load_data (data : list (list string)) (max_num_atoms : Z)
  : result (list string * list F) :=
  match data with
  | [] => Raise StopIteration
  | _ :: lines => for_each lines (load_line max_num_atoms) ([], [])
  end.

Definition default_max_num_atoms : Z := 64.

End WithParsers.

End Loader.

(** ** Torch tensors

    A tensor is its shape and its entries, read by a multi-index.  Only
    the operand ranks the script produces are given a meaning: batches of
    rank three for [matmul], as the [DataLoader] of the script delivers
    them; [torch.matmul] also broadcasts operands of other ranks, which
    are rejected here.

    Every sum is accumulated from left to right.  Torch's kernels choose
    the order of a sum by the shape of the batch, so the last bits of a
    float result can differ from this order; what is proved of [forward]
    is the sequence of operations, the shapes and the exceptions. *)

Module Torch.

Record tensor (F : Type) : Type := mk_tensor {
  tshape : list nat;
  tat : list nat → F
}.
Arguments mk_tensor {F}.
Arguments tshape {F}.
Arguments tat {F}.

Section Ops.

Context {F : Type} `{Float64 F}.

(** Left-to-right accumulation of [f 0 + ... + f (n-1)] from zero. *)
Definition sum_upto (n : nat) (f : nat → F) : F :=
  fold_left (fun acc k => fadd acc (f k)) (seq 0 n) (of_int 0).

Definition tmap (f : F → F) (x : tensor F) : tensor F :=
  mk_tensor (tshape x) (fun idx => f (tat x idx)).

(** [F.linear(x, w, b)]: [x @ w.T + b] on the last dimension. *)
Definition linear (w b x : tensor F) : result (tensor F) :=
  match tshape w, tshape b with
  | [out; inn], [out'] =>
      if bool_decide (out = out') && bool_decide (last (tshape x) = Some inn)
      then Ok (mk_tensor (removelast (tshape x) ++ [out])
                 (fun idx =>
                    let j := List.last idx 0 in
                    fadd (sum_upto inn (fun k =>
                            fmul (tat x (removelast idx ++ [k])) (tat w [j; k])))
                         (tat b [j])))
      else Raise RuntimeError
  | _, _ => Raise RuntimeError
  end.

(** [torch.matmul(a, x)] for two batches of matrices. *)
Definition matmul (a x : tensor F) : result (tensor F) :=
  match tshape a, tshape x with
  | [ba; n; m], [bx; m'; c] =>
      if bool_decide (m = m')
         && (bool_decide (ba = bx) || bool_decide (ba = 1) || bool_decide (bx = 1))
      then Ok (mk_tensor [if decide (ba = 1) then bx else ba; n; c]
                 (fun idx =>
                    match idx with
                    | [b; i; j] =>
                        sum_upto m (fun k =>
                          fmul (tat a [Np.bidx ba b; i; k])
                               (tat x [Np.bidx bx b; k; j]))
                    | _ => of_int 0
                    end))
      else Raise RuntimeError
  | _, _ => Raise RuntimeError
  end.

(** [x.mean(1)] *)
Definition mean1 (x : tensor F) : result (tensor F) :=
  match tshape x with
  | b :: n :: rest =>
      Ok (mk_tensor (b :: rest)
            (fun idx =>
               match idx with
               | bi :: r =>
                   fdiv (sum_upto n (fun i => tat x (bi :: i :: r)))
                        (of_int (Z.of_nat n))
               | [] => of_int 0
               end))
  | _ => Raise IndexError
  end.

End Ops.

End Torch.

Export Torch.

(** ** class Transfer *)

Module Transfer.

Record Param (F : Type) : Type := mk_param {
  data : tensor F;
  requires_grad : bool
}.
Arguments mk_param {F}.
Arguments data {F}.
Arguments requires_grad {F}.

(** [nn.Linear] *)
Record Linear (F : Type) : Type := mk_linear {
  weight : Param F;
  bias : Param F
}.
Arguments mk_linear {F}.
Arguments weight {F}.
Arguments bias {F}.

Record t (F : Type) : Type := mk {
  embedding : Linear F;
  W : list (Linear F);
  fc : Linear F;
  linear1 : Linear F;
  linear2 : Linear F
}.
Arguments mk {F}.
Arguments embedding {F}.
Arguments W {F}.
Arguments fc {F}.
Arguments linear1 {F}.
Arguments linear2 {F}.

Section Model.

Context {F : Type} `{Float64 F} `{Activation F}.

(** [nn.Linear(in_features, out_features)]; [fresh] stands for the random
    initial values, addressed by parameter name and index. *)
Definition new_linear (fresh : string → list nat → F) (name : string)
    (in_features out_features : nat) : Linear F :=
  mk_linear
    (mk_param (mk_tensor [out_features; in_features] (fresh (name +:+ ".weight"))) true)
    (mk_param (mk_tensor [out_features] (fresh (name +:+ ".bias"))) true).

Definition __init__ (fresh : string → list nat → F)
    (n_channel d_out n_conv_layer : nat) : t F :=
  mk (new_linear fresh "embedding" 16 n_channel)
     (map (fun i => new_linear fresh ("W." +:+ pretty i) n_channel n_channel)
          (seq 0 n_conv_layer))
     (new_linear fresh "fc" n_channel 1024)
     (new_linear fresh "linear1" 1024 1024)
     (new_linear fresh "linear2" 1024 d_out).

Definition linear_parameters (name : string) (l : Linear F)
  : list (string * Param F) :=
  [(name +:+ ".weight", weight l); (name +:+ ".bias", bias l)].

(** Parameter names in registration order. *)
Definition named_parameters (self : t F) : list (string * Param F) :=
  linear_parameters "embedding" (embedding self)
  ++ concat (imap (fun i l => linear_parameters ("W." +:+ pretty i) l) (W self))
  ++ linear_parameters "fc" (fc self)
  ++ linear_parameters "linear1" (linear1 self)
  ++ linear_parameters "linear2" (linear2 self).

(** [self.state_dict()], an ordered dictionary. *)
Definition state_dict (self : t F) : list (string * tensor F) :=
  map (fun kp => (kp.1, data kp.2)) (named_parameters self).

Definition load_parameter (d : gmap string (tensor F)) (name : string)
    (p : Param F) : result (Param F) :=
  match d !! name with
  | Some v =>
      if decide (tshape v = tshape (data p))
      then Ok (mk_param v (requires_grad p))
      else Raise RuntimeError
  | None => Raise RuntimeError
  end.

Definition load_linear (d : gmap string (tensor F)) (name : string)
    (l : Linear F) : result (Linear F) :=
  w ← load_parameter d (name +:+ ".weight") (weight l);
  b ← load_parameter d (name +:+ ".bias") (bias l);
  Ok (mk_linear w b).

Fixpoint load_layers (d : gmap string (tensor F)) (i : nat)
    (ls : list (Linear F)) : result (list (Linear F)) :=
  match ls with
  | [] => Ok []
  | l :: ls' =>
      l' ← load_linear d ("W." +:+ pretty i) l;
      ls'' ← load_layers d (S i) ls';
      Ok (l' :: ls'')
  end.

(** [self.load_state_dict(d, strict = True)]: every parameter is
    overwritten by the entry of its name; a missing key, an unexpected
    key or a shape mismatch raises [RuntimeError]. *)
Definition load_state_dict (self : t F) (d : gmap string (tensor F))
  : result (t F) :=
  if bool_decide (dom d ⊆ list_to_set (named_parameters self).*1) then
    e ← load_linear d "embedding" (embedding self);
    w ← load_layers d 0 (W self);
    f ← load_linear d "fc" (fc self);
    l1 ← load_linear d "linear1" (linear1 self);
    l2 ← load_linear d "linear2" (linear2 self);
    Ok (mk e w f l1 l2)
  else Raise RuntimeError.

(** Reading the module-level name [pretrain_dict]. *)
Definition read_global (g : option (gmap string (tensor F)))
  : result (gmap string (tensor F)) :=
  match g with
  | Some d => Ok d
  | None => Raise NameError
  end.

(** [load_model(self, pretrian_dict)].  The body never mentions its
    parameter [pretrian_dict]: the name it reads, [pretrain_dict], is
    resolved among the module globals, here [pretrain_dict]. *)
Definition load_model (pretrain_dict : option (gmap string (tensor F)))
    (self : t F) (pretrian_dict : gmap string (tensor F)) : result (t F) :=
  let model_dict := state_dict self in
  load_dict ←
    for_each model_dict
      (fun (load_dict : gmap string (tensor F)) kv =>
         pd ← read_global pretrain_dict;
         match pd !! kv.1 with
         | Some v => Ok (<[kv.1 := v]> load_dict)
         | None => Ok (<[kv.1 := kv.2]> load_dict)
         end)
      ∅;
  load_state_dict self load_dict.

Definition no_grad (p : Param F) : Param F :=
  mk_param (data p) false.

Definition freeze (self : t F) : t F :=
  mk (embedding self)
     (map (fun l => mk_linear (no_grad (weight l)) (no_grad (bias l))) (W self))
     (fc self) (linear1 self) (linear2 self).

(** Applying an [nn.Linear] module. *)
Definition apply (l : Linear F) (x : tensor F) : result (tensor F) :=
  linear (data (weight l)) (data (bias l)) x.

(** One pass of the loop over [self.W]. *)
Definition conv (A : tensor F) (retval : tensor F) (w : Linear F)
  : result (tensor F) :=
  retval ← apply w retval;
  retval ← matmul A retval;
  Ok (tmap relu retval).

Definition forward (self : t F) (x A : tensor F) : result (tensor F) :=
  let retval := x in
  retval ← apply (embedding self) retval;
  retval ← for_each (W self) (conv A) retval;
  retval ← mean1 retval;
  retval ← apply (fc self) retval;
  let retval := tmap sigmoid retval in
  retval ← apply (linear1 self) retval;
  let retval := tmap relu retval in
  retval ← apply (linear2 self) retval;
  Ok retval.

End Model.

End Transfer.

(** ** reduce_lr *)

Module Schedule.

(** [torch.optim.Optimizer]: only the numeric hyperparameters of the
    parameter groups are kept. *)
Record optimizer (F : Type) : Type := mk_optimizer {
  param_groups : list (gmap string F)
}.
Arguments mk_optimizer {F}.
Arguments param_groups {F}.

Section Reduce.

Context {F : Type} `{Float64 F}.

(** [xs[i]] with Python's wrap-around of negative indices. *)
Definition py_index (xs : list F) (i : Z) : result F :=
  let n := Z.of_nat (length xs) in
  let k := if decide (i < 0)%Z then (i + n)%Z else i in
  if decide (0 ≤ k < n)%Z then
    match xs !! Z.to_nat k with
    | Some v => Ok v
    | None => Raise IndexError
    end
  else Raise IndexError.

(** [abs(loss_list[a] - loss_list[b])] *)
Definition abs_change (loss_list : list F) (a b : Z) : result F :=
  x ← py_index loss_list a;
  y ← py_index loss_list b;
  Ok (fabs (fsub x y)).

Definition reduce_lr (loss_list : list F) (epoch : Z) (lr : F)
    (opt : optimizer F) : result (F * optimizer F) :=
  let result := false in
  result ←
    (if decide (epoch ≠ 0)%Z then
       x ← py_index loss_list epoch;
       y ← py_index loss_list (epoch - 1);
       Ok (if fge x y then true else result)
     else Ok result);
  result ←
    (if decide (epoch >= 5)%Z then
       dif ← for_each [1; 2; 3; 4]%Z
                (fun dif i =>
                   d ← abs_change loss_list (epoch - i) (epoch - i - 1);
                   Ok (fadd dif d))
                (of_int 0);
       let dif := fdiv dif (of_int 4) in
       d ← abs_change loss_list epoch (epoch - 1);
       Ok (if flt (fmul dif (of_int 3)) d then true else result)
     else Ok result);
  if result : bool then
    let lr := fmul lr lit_0_95 in
    Ok (lr, mk_optimizer (map (fun g => <["lr" := lr]> g) (param_groups opt)))
  else Ok (lr, opt).

(** The schedule of the training loop: after epoch [e] the history holds
    the losses of epochs [0..e]. *)
Definition train_schedule (losses : list F) (num_epoch : nat) (lr : F)
    (opt : optimizer F) : result (F * optimizer F) :=
  for_each (seq 0 num_epoch)
    (fun st epoch => reduce_lr (take (S epoch) losses) (Z.of_nat epoch) st.1 st.2)
    (lr, opt).

End Reduce.

End Schedule.

(** ** Reference encodings the featurization is compared with *)

Module FeatureSpec.

(** The one-hot vector of width [n] whose true entry is at [k]. *)
Definition one_hot (n k : nat) : list bool :=
  map (fun j => bool_decide (j = k)) (seq 0 n).

(** Element over C, N, O, F, other. *)
Definition symbol_bucket (s : string) : nat :=
  if decide (s = "C") then 0
  else if decide (s = "N") then 1
  else if decide (s = "O") then 2
  else if decide (s = "F") then 3
  else 4.

(** Formal charge over -1, 0, 1, other. *)
Definition charge_bucket (z : Z) : nat :=
  if decide (z = -1)%Z then 0
  else if decide (z = 0)%Z then 1
  else if decide (z = 1)%Z then 2
  else 3.

(** Total hydrogen count over 0, 1, 2, 3, 4, other. *)
Definition hs_bucket (z : Z) : nat :=
  if decide (0 ≤ z ≤ 4)%Z then Z.to_nat z else 5.

Definition atom_vector (a : Atom) : list bool :=
  one_hot 5 (symbol_bucket (GetSymbol a))
  ++ one_hot 4 (charge_bucket (GetFormalCharge a))
  ++ one_hot 6 (hs_bucket (GetTotalNumHs a))
  ++ [GetIsAromatic a].

(** Number of true entries. *)
Definition count_true (bs : list bool) : nat :=
  length (filter (fun b => b = true) bs).

End FeatureSpec.

(** ** Closed forms of the padded arrays *)

Module PaddedSpec.

(** Row [i] of the feature matrix: the atom's vector as 0/1, or zeros
    past the last atom. *)
Definition feature_row (m : Mol) (i : nat) : list Z :=
  match mol_atoms m !! i with
  | Some a => map Z.b2z (FeatureSpec.atom_vector a)
  | None => replicate 16 0%Z
  end.

Definition padded_feature (max_num_atoms : nat) (m : Mol) : Np.ndarray :=
  Np.mk_ndarray max_num_atoms 16 (map (feature_row m) (seq 0 max_num_atoms)).

(** Adjacency plus identity inside the block of real atoms, zero outside. *)
Definition adj_entry (m : Mol) (i j : nat) : Z :=
  if decide (i < GetNumAtoms m ∧ j < GetNumAtoms m)
  then (Z.b2z (bonded m i j) + (if decide (i = j) then 1 else 0))%Z
  else 0%Z.

Definition padded_adj (max_num_atoms : nat) (m : Mol) : Np.ndarray :=
  Np.mk_ndarray max_num_atoms max_num_atoms
    (map (fun i => map (adj_entry m i) (seq 0 max_num_atoms))
         (seq 0 max_num_atoms)).

(** A SMILES string the data set can hold: it parses, and its atoms fit. *)
Definition fits (MolFromSmiles : string → option Mol) (M : nat)
    (smiles : string) : Prop :=
  ∃ m, MolFromSmiles smiles = Some m ∧ GetNumAtoms m ≤ M.

(** The pair of arrays stored for one SMILES string. *)
Definition stored_as (MolFromSmiles : string → option Mol) (M : nat)
    (smiles : string) (fa : Np.ndarray * Np.ndarray) : Prop :=
  ∃ m, MolFromSmiles smiles = Some m
       ∧ fa = (padded_feature M m, padded_adj M m).

(** What the padding of one molecule [m] into the arrays [pf] and [pa]
    has to satisfy. *)
Definition zero_padded (M : nat) (m : Mol) (pf pa : Np.ndarray) : Prop :=
  let n := GetNumAtoms m in
  Np.shape pf = (M, 16)
  ∧ length (Np.rows pf) = M ∧ Forall (fun r => length r = 16) (Np.rows pf)
  ∧ (∀ i j, n ≤ i < M → j < 16 → Np.get pf i j = Some 0%Z)
  ∧ Np.shape pa = (M, M)
  ∧ length (Np.rows pa) = M ∧ Forall (fun r => length r = M) (Np.rows pa)
  ∧ (∀ i j, i < M → j < M → n ≤ i ∨ n ≤ j → Np.get pa i j = Some 0%Z)
  ∧ (∀ i j, i < n → j < n →
       Np.get pa i j
       = Some (Np.at_ (GetAdjacencyMatrix m) i j + Np.at_ (Np.eye n) i j)%Z)
  ∧ (∀ i, i < n → Np.get pa i i = Some 1%Z).

End PaddedSpec.

(** ** The rows [load_data] is expected to keep *)

Module LoaderSpec.

Section WithParsers.

Context {F : Type}.
Variable MolFromSmiles : string → option Mol.
Variable float : string → option F.

(** A data row in the expected format: a SMILES field at index 1 and a
    last field that reads as a float. *)
Definition well_formed (line : list string) : Prop :=
  2 ≤ length line ∧ ∃ field, last line = Some field ∧ is_Some (float field).

(** The pair a row contributes: its SMILES string and free energy, when
    the string parses and the molecule has at most [max_num_atoms] atoms. *)
Definition kept (max_num_atoms : Z) (line : list string) : option (string * F) :=
  smiles ← line !! 1;
  field ← last line;
  freeE ← float field;
  mol ← MolFromSmiles smiles;
  if decide (Z.of_nat (GetNumAtoms mol) ≤ max_num_atoms)%Z
  then Some (smiles, freeE) else None.

(** The kept pairs of the data rows, in row order. *)
Definition selected (max_num_atoms : Z) (lines : list (list string))
  : list (string * F) :=
  omap (kept max_num_atoms) lines.

End WithParsers.

End LoaderSpec.

(** ** The two triggers of the learning-rate decay *)

Module ScheduleSpec.

Section Triggers.

Context {F : Type} `{Float64 F}.

(** [loss_list[e]] for an epoch inside the history. *)
Definition loss_at (loss_list : list F) (e : Z) : option F :=
  if decide (0 ≤ e)%Z then loss_list !! Z.to_nat e else None.

(** The absolute change of the loss at epoch [e]:
    [|loss_list[e] - loss_list[e-1]|]. *)
Definition change (loss_list : list F) (e : Z) : option F :=
  x ← loss_at loss_list e;
  y ← loss_at loss_list (e - 1);
  Some (fabs (fsub x y)).

(** The average absolute change of the four epochs before [e]. *)
Definition recent_average (loss_list : list F) (e : Z) : option F :=
  c1 ← change loss_list (e - 1);
  c2 ← change loss_list (e - 2);
  c3 ← change loss_list (e - 3);
  c4 ← change loss_list (e - 4);
  Some (fdiv (fold_left fadd [c1; c2; c3; c4] (of_int 0)) (of_int 4)).

(** The loss of epoch [e] does not improve on that of epoch [e - 1]. *)
Definition no_improvement (loss_list : list F) (e : Z) : bool :=
  bool_decide (e > 0)%Z
  && match loss_at loss_list e, loss_at loss_list (e - 1) with
     | Some x, Some y => fge x y
     | _, _ => false
     end.

(** From epoch 5 on: the change at [e] exceeds three times the recent
    average. *)
Definition sharp_deviation (loss_list : list F) (e : Z) : bool :=
  bool_decide (e >= 5)%Z
  && match recent_average loss_list e, change loss_list e with
     | Some avg, Some c => flt (fmul avg (of_int 3)) c
     | _, _ => false
     end.

Definition decays (loss_list : list F) (e : Z) : bool :=
  no_improvement loss_list e || sharp_deviation loss_list e.

(** Writing [lr] into every parameter group. *)
Definition with_lr (lr : F) (opt : Schedule.optimizer F) : Schedule.optimizer F :=
  Schedule.mk_optimizer (map (fun g => <["lr" := lr]> g) (Schedule.param_groups opt)).

End Triggers.

End ScheduleSpec.

(** ** Shapes and the per-molecule reading of the network *)

Module TransferSpec.

Section Reference.

Context {F : Type} `{Float64 F} `{Activation F}.

(** An [nn.Linear(inn, out)]. *)
Definition linear_shape (inn out : nat) (l : Transfer.Linear F) : Prop :=
  tshape (Transfer.data (Transfer.weight l)) = [out; inn]
  ∧ tshape (Transfer.data (Transfer.bias l)) = [out].

(** The shapes [Transfer(n_channel, d_out, n_conv_layer)] is built with. *)
Definition model_shape (n_channel d_out n_conv_layer : nat) (m : Transfer.t F)
  : Prop :=
  linear_shape 16 n_channel (Transfer.embedding m)
  ∧ Forall (linear_shape n_channel n_channel) (Transfer.W m)
  ∧ length (Transfer.W m) = n_conv_layer
  ∧ linear_shape n_channel 1024 (Transfer.fc m)
  ∧ linear_shape 1024 1024 (Transfer.linear1 m)
  ∧ linear_shape 1024 d_out (Transfer.linear2 m).

Definition all_requires_grad (b : bool) (l : Transfer.Linear F) : Prop :=
  Transfer.requires_grad (Transfer.weight l) = b
  ∧ Transfer.requires_grad (Transfer.bias l) = b.

(** A batch of [B] matrices of [N] rows and [C] columns with entries [h]. *)
Definition holds3 (t : tensor F) (B N C : nat) (h : nat → nat → nat → F) : Prop :=
  tshape t = [B; N; C] ∧ ∀ b i c, b < B → tat t [b; i; c] = h b i c.

(** A batch of [B] vectors of [C] entries [v]. *)
Definition holds2 (t : tensor F) (B C : nat) (v : nat → nat → F) : Prop :=
  tshape t = [B; C] ∧ ∀ b c, b < B → tat t [b; c] = v b c.

(** The affine map of a linear layer on one vector of [inn] entries. *)
Definition dense (l : Transfer.Linear F) (inn : nat) (v : nat → F) : nat → F :=
  fun j =>
    fadd (sum_upto inn (fun k =>
            fmul (v k) (tat (Transfer.data (Transfer.weight l)) [j; k])))
         (tat (Transfer.data (Transfer.bias l)) [j]).

(** Adjacency-weighted aggregation over the [n] atoms. *)
Definition aggregate (n : nat) (a h : nat → nat → F) : nat → nat → F :=
  fun i c => sum_upto n (fun k => fmul (a i k) (h k c)).

(** One convolution: per-atom linear transform, aggregation, ReLU. *)
Definition conv_layer (n inn : nat) (a : nat → nat → F)
    (h : nat → nat → F) (l : Transfer.Linear F) : nat → nat → F :=
  fun i c => relu (aggregate n a (fun i' => dense l inn (h i')) i c).

(** Mean over the atoms. *)
Definition pooled (n : nat) (h : nat → nat → F) : nat → F :=
  fun c => fdiv (sum_upto n (fun i => h i c)) (of_int (Z.of_nat n)).

(** The head: fc, sigmoid, linear1, ReLU, linear2. *)
Definition head (m : Transfer.t F) (n_channel : nat) (v : nat → F) : nat → F :=
  dense (Transfer.linear2 m) 1024
    (fun k => relu (dense (Transfer.linear1 m) 1024
                      (fun k' => sigmoid (dense (Transfer.fc m) n_channel v k')) k)).

(** The prediction for one molecule with [n] atom slots, features [x] and
    adjacency [a]. *)
Definition predict (m : Transfer.t F) (n n_channel : nat)
    (x a : nat → nat → F) : nat → F :=
  head m n_channel
    (pooled n
       (fold_left (conv_layer n n_channel a) (Transfer.W m)
          (fun i => dense (Transfer.embedding m) 16 (x i)))).

End Reference.

End TransferSpec.

(** ** Concrete inputs used by the examples below *)

Module Sample.

Definition carbon : Atom := mk_atom "C" 0 4 false.
Definition methyl : Atom := mk_atom "C" 0 3 false.
Definition water_o : Atom := mk_atom "O" 0 2 false.
Definition ammonium_n : Atom := mk_atom "N" 1 4 false.
Definition bromide : Atom := mk_atom "Br" (-1) 0 false.

Definition methane : Mol := mk_mol [carbon] [].
Definition ethane : Mol := mk_mol [methyl; methyl] [(0, 1)].
Definition water : Mol := mk_mol [water_o] [].

(** A parser that knows five SMILES strings, with the molecules RDKit
    builds for them. *)
Definition toy_smiles (s : string) : option Mol :=
  if decide (s = "C") then Some methane
  else if decide (s = "CC") then Some ethane
  else if decide (s = "O") then Some water
  else if decide (s = "[NH4+]") then Some (mk_mol [ammonium_n] [])
  else if decide (s = "[Br-]") then Some (mk_mol [bromide] [])
  else None.

(** A chain of [n] carbon atoms (hydrogen counts left at two). *)
Definition chain (n : nat) : Mol :=
  mk_mol (replicate n (mk_atom "C" 0 2 false))
         (map (fun i => (i, S i)) (seq 0 (pred n))).

(** A parser for the loader examples: ["C64"] and ["C65"] stand for the
    SMILES strings of the chains of 64 and 65 carbons. *)
Definition toy_chains (s : string) : option Mol :=
  if decide (s = "C64") then Some (chain 64)
  else if decide (s = "C65") then Some (chain 65)
  else toy_smiles s.

(** [float] on the three literals the examples use. *)
Definition toy_float (s : string) : option Q :=
  if decide (s = "-1.5") then Some (-3 # 2)%Q
  else if decide (s = "0.25") then Some (1 # 4)%Q
  else if decide (s = "2") then Some 2%Q
  else None.

(** Rational stand-ins for the two nonlinearities, to run examples: the
    exact ReLU, and a squashing function in place of the logistic one. *)
#[global] Instance Q_activation : Activation Q := {|
  relu := fun x => if Qle_bool 0 x then x else 0%Q;
  sigmoid := fun x => ((1 # 2) + (1 # 2) * (x / (1 + Qabs x)))%Q
|}.

Definition constant (shape : list nat) (v : Q) : tensor Q :=
  mk_tensor shape (fun _ => v).

(** A fresh [Transfer(n_channel = 2, d_out = 1, n_conv_layer = 1)] whose
    initial values are all [1/8]. *)
Definition fresh_model : Transfer.t Q :=
  Transfer.__init__ (fun _ _ => (1 # 8)%Q) 2 1 1.

(** A checkpoint that holds the embedding, the convolution and [fc]. *)
Definition checkpoint : gmap string (tensor Q) :=
  {[ "embedding.weight" := constant [2; 16] 3%Q;
     "embedding.bias" := constant [2] 3%Q;
     "W.0.weight" := constant [2; 2] 3%Q;
     "W.0.bias" := constant [2] 3%Q;
     "fc.weight" := constant [1024; 2] 3%Q;
     "fc.bias" := constant [1024] 3%Q ]}.

(** Another dictionary, holding only a bias of the head. *)
Definition other_dict : gmap string (tensor Q) :=
  {[ "linear2.bias" := constant [1] 7%Q ]}.

End Sample.

(** ** Python sequences: indexing and slicing *)

Module PySeq.

(** [xs[i]]: a negative index counts from the end; an index outside the
    sequence raises [IndexError]. *)
Definition getitem {A} (xs : list A) (i : Z) : result A :=
  let n := Z.of_nat (length xs) in
  let k := if decide (i < 0)%Z then (i + n)%Z else i in
  if decide (0 ≤ k < n)%Z then
    match xs !! Z.to_nat k with
    | Some v => Ok v
    | None => Raise IndexError
    end
  else Raise IndexError.

(** A slice bound on a sequence of length [n]: negative bounds count from
    the end, and the result is clipped to [0..n]. *)
Definition bound (n : nat) (i : Z) : nat :=
  let k := if decide (i < 0)%Z then (i + Z.of_nat n)%Z else i in
  Z.to_nat (Z.min (Z.of_nat n) (Z.max 0 k)).

(** [xs[lo:hi]] *)
Definition slice {A} (xs : list A) (lo hi : Z) : list A :=
  let a := bound (length xs) lo in
  let b := bound (length xs) hi in
  take (b - a) (drop a xs).

(** [xs[:hi]] *)
Definition slice_to {A} (xs : list A) (hi : Z) : list A := slice xs 0 hi.

End PySeq.

(** ** DataSet.__getitem__ *)

Module DataSetItem.

(** The values of a sample dictionary. *)
Inductive value (F : Type) : Type :=
  | Array (a : Np.ndarray)
  | Target (x : F).
Arguments Array {F} a.
Arguments Target {F} x.

Definition __getitem__ {F} (self : DataSet.t F) (idx : Z)
  : result (gmap string (value F)) :=
  let sample : gmap string (value F) := ∅ in
  feature ← PySeq.getitem (DataSet.feature_list self) idx;
  let sample := <["feature" := Array feature]> sample in
  adj ← PySeq.getitem (DataSet.adj_list self) idx;
  let sample := <["adj" := Array adj]> sample in
  freeE ← PySeq.getitem (DataSet.freeE_list self) idx;
  let sample := <["freeE" := Target freeE]> sample in
  Ok sample.

End DataSetItem.

(** ** The train/test split of the script *)

Module Script.

(** The two exceptions of [int(x)] on a float. *)
Inductive int_error : Set := OverflowError | NanValueError.

(** [int(x)] for a binary64 value: truncation towards zero; infinities
    raise [OverflowError] and NaN raises [ValueError]. *)
Definition int_of_float (x : float) : int_error + Z :=
  match Prim2SF x with
  | S754_zero _ => inr 0%Z
  | S754_finite sign m e =>
      let magnitude :=
        if (0 <=? e)%Z then (Z.pos m * 2 ^ e)%Z else (Z.pos m / 2 ^ (- e))%Z in
      inr (if sign then (- magnitude)%Z else magnitude)
  | S754_infinity _ => inl OverflowError
  | S754_nan => inl NanValueError
  end.

(** [int(num_data * 0.8)] *)
Definition num_test_data (num_data : nat) : int_error + Z :=
  int_of_float (PrimFloat.mul (float_of_Z (Z.of_nat num_data))
                              0x1.999999999999ap-1%float).

(** Lines 168 to 171, for a given [num_test_data]:
    [(train_smiles, test_smiles, train_freeE, test_freeE)]. *)
Definition split_at {A B} (smiles_list : list A) (freeE_list : list B)
    (num_test_data : Z) : list A * list A * list B * list B :=
  let num_data := Z.of_nat (length smiles_list) in
  (PySeq.slice_to smiles_list num_test_data,
   PySeq.slice smiles_list num_test_data num_data,
   PySeq.slice_to freeE_list num_test_data,
   PySeq.slice freeE_list num_test_data num_data).

Definition split {A B} (smiles_list : list A) (freeE_list : list B)
  : int_error + (list A * list A * list B * list B) :=
  match num_test_data (length smiles_list) with
  | inr k => inr (split_at smiles_list freeE_list k)
  | inl e => inl e
  end.

End Script.

(** ** What [load_model] computes *)

Module TransferLoadSpec.

(** The key of a parameter of a layer of the stack [W], from layer [o] on. *)
Definition is_stack_key (o : nat) (key : string) : Prop :=
  ∃ i sfx, o ≤ i ∧ key = ("W." +:+ pretty i) +:+ sfx
           ∧ (sfx = ".weight" ∨ sfx = ".bias").

Section Merge.

Context {F : Type}.

(** The tensor a parameter [name] ends with: the checkpoint's when the
    checkpoint has the key, its own otherwise. *)
Definition merge_param (g : gmap string (tensor F)) (name : string)
    (p : Transfer.Param F) : Transfer.Param F :=
  Transfer.mk_param (default (Transfer.data p) (g !! name))
                    (Transfer.requires_grad p).

Definition merge_linear (g : gmap string (tensor F)) (name : string)
    (l : Transfer.Linear F) : Transfer.Linear F :=
  Transfer.mk_linear (merge_param g (name +:+ ".weight") (Transfer.weight l))
                     (merge_param g (name +:+ ".bias") (Transfer.bias l)).

Definition transfer (g : gmap string (tensor F)) (self : Transfer.t F)
  : Transfer.t F :=
  Transfer.mk
    (merge_linear g "embedding" (Transfer.embedding self))
    (imap (fun i l => merge_linear g ("W." +:+ pretty i) l) (Transfer.W self))
    (merge_linear g "fc" (Transfer.fc self))
    (merge_linear g "linear1" (Transfer.linear1 self))
    (merge_linear g "linear2" (Transfer.linear2 self)).

(** Every tensor of the checkpoint that meets a parameter of the model
    has the parameter's shape. *)
Definition compatible (g : gmap string (tensor F)) (self : Transfer.t F) : Prop :=
  ∀ name p v,
    (name, p) ∈ Transfer.named_parameters self →
    g !! name = Some v →
    tshape v = tshape (Transfer.data p).

End Merge.

End TransferLoadSpec.

(** ** Bookkeeping of the schedule over a run *)

Module RunSpec.

Section Run.

Context {F : Type} `{Float64 F}.

(** The number of epochs below [num_epoch] at which the rate decays. *)
Fixpoint decay_count (losses : list F) (num_epoch : nat) : nat :=
  match num_epoch with
  | 0 => 0
  | S e =>
      decay_count losses e
      + (if ScheduleSpec.decays (take (S e) losses) (Z.of_nat e) then 1 else 0)
  end.

(** [lr * 0.95 * ... * 0.95], with [k] factors. *)
Definition scaled (k : nat) (lr : F) : F :=
  Nat.iter k (fun x => fmul x lit_0_95) lr.

(** Every parameter group carries the rate [lr]. *)
Definition in_sync (lr : F) (opt : Schedule.optimizer F) : Prop :=
  Forall (fun g : gmap string F => g !! "lr" = Some lr) (Schedule.param_groups opt).

End Run.

End RunSpec.

(** * Verified properties *)

(** ** The exception monad and its loops *)

Lemma bind_Ok {A B} (a : A) (f : A → result B) : Ok a ≫= f = f a.
Proof. reflexivity. Qed.

Lemma bind_Raise {A B} (e : exn) (f : A → result B) : Raise e ≫= f = Raise e.
Proof. reflexivity. Qed.

Lemma for_each_nil {A S} (body : S → A → result S) (st : S) :
  for_each [] body st = Ok st.
Proof. reflexivity. Qed.

Lemma for_each_cons {A S} (x : A) (xs : list A) (body : S → A → result S)
    (st : S) :
  for_each (x :: xs) body st = body st x ≫= for_each xs body.
Proof. reflexivity. Qed.

Lemma for_each_app {A S} (xs ys : list A) (body : S → A → result S) (st : S) :
  for_each (xs ++ ys) body st = for_each xs body st ≫= for_each ys body.
Proof.
  revert st. induction xs as [| x xs IH]; intros st; [done |].
  cbn [app]. rewrite !for_each_cons.
  destruct (body st x) as [st' | e]; [| done].
  rewrite !bind_Ok. apply IH.
Qed.

(** ** Atom features *)

Section AtomFeatures.

Import FeatureSpec.

Lemma encode_symbol (s : string) :
  DataSet.one_of_k_encoding (PyStr s) DataSet.symbol_set
  = Ok (one_hot 5 (symbol_bucket s)).
Proof.
  unfold symbol_bucket.
  repeat (case_decide; [subst; reflexivity |]).
  destruct (decide (s = "ELSE")) as [-> | Hl]; [reflexivity |].
  unfold DataSet.one_of_k_encoding, DataSet.symbol_set, py_in; simpl.
  repeat match goal with
         | H : s ≠ ?c |- _ => apply String.eqb_neq in H; rewrite !H; clear H
         end.
  reflexivity.
Qed.

Lemma encode_charge (z : Z) :
  DataSet.one_of_k_encoding (PyInt z) DataSet.charge_set
  = Ok (one_hot 4 (charge_bucket z)).
Proof.
  unfold charge_bucket.
  repeat (case_decide; [subst; reflexivity |]).
  unfold DataSet.one_of_k_encoding, DataSet.charge_set, py_in; simpl.
  repeat match goal with
         | H : z ≠ ?c |- _ => apply Z.eqb_neq in H; rewrite !H; clear H
         end.
  reflexivity.
Qed.

Lemma encode_hs (z : Z) :
  DataSet.one_of_k_encoding (PyInt z) DataSet.hs_set
  = Ok (one_hot 6 (hs_bucket z)).
Proof.
  unfold hs_bucket. case_decide as Hz.
  - assert (z = 0 ∨ z = 1 ∨ z = 2 ∨ z = 3 ∨ z = 4)%Z as Hc by lia.
    destruct Hc as [-> | [-> | [-> | [-> | ->]]]]; reflexivity.
  - unfold DataSet.one_of_k_encoding, DataSet.hs_set, py_in; simpl.
    assert (z ≠ 0 ∧ z ≠ 1 ∧ z ≠ 2 ∧ z ≠ 3 ∧ z ≠ 4)%Z as (H0 & H1 & H2 & H3 & H4)
      by lia.
    apply Z.eqb_neq in H0, H1, H2, H3, H4.
    rewrite !H0, !H1, !H2, !H3, !H4. reflexivity.
Qed.

Lemma one_hot_length n k : length (one_hot n k) = n.
Proof. unfold one_hot. by rewrite length_map, length_seq. Qed.

Lemma symbol_bucket_lt s : symbol_bucket s < 5.
Proof. unfold symbol_bucket. repeat case_decide; lia. Qed.

Lemma charge_bucket_lt z : charge_bucket z < 4.
Proof. unfold charge_bucket. repeat case_decide; lia. Qed.

Lemma hs_bucket_lt z : hs_bucket z < 6.
Proof. unfold hs_bucket. case_decide; lia. Qed.

Lemma one_hot_count n k : k < n → count_true (one_hot n k) = 1.
Proof.
  unfold count_true, one_hot. intros Hk.
  replace n with (k + S (n - S k)) by lia.
  rewrite seq_app, map_app, filter_app, length_app. simpl.
  rewrite filter_cons_True by (by rewrite bool_decide_eq_true).
  assert (∀ (l : list nat), (∀ j, j ∈ l → j ≠ k) →
            filter (fun b => b = true) (map (fun j => bool_decide (j = k)) l) = [])
    as Hnone.
  { induction l as [| j l IH]; intros Hl; [done |]. simpl.
    rewrite filter_cons_False.
    - apply IH. intros j' Hj'. apply Hl. by right.
    - rewrite bool_decide_eq_true. apply Hl. by left. }
  rewrite !Hnone; [done | |].
  - intros j Hj. apply elem_of_seq in Hj. lia.
  - intros j Hj. apply elem_of_seq in Hj. lia.
Qed.

Lemma get_atom_feature_value (m : Mol) (i : nat) (a : Atom) :
  mol_atoms m !! i = Some a →
  DataSet.get_atom_feature m i = Ok (atom_vector a).
Proof.
  intros Ha. unfold DataSet.get_atom_feature, GetAtomWithIdx. rewrite Ha.
  cbn [mbind result_bind Py.bind].
  rewrite encode_symbol. cbn [Py.bind].
  rewrite encode_charge. cbn [Py.bind].
  rewrite encode_hs. reflexivity.
Qed.

Lemma atom_vector_length a : length (atom_vector a) = 16.
Proof. unfold atom_vector. rewrite !length_app, !one_hot_length. reflexivity. Qed.

(** C2: for every atom of every molecule, [get_atom_feature] returns
    the 16 booleans made of the one-hot element code over C, N, O, F,
    other, the one-hot formal-charge code over -1, 0, 1, other, the one-hot
    hydrogen-count code over 0..4, other, and the aromaticity flag; each
    one-hot segment has exactly one true entry, and a value outside a
    segment's allowable set lands in that segment's last bucket. *)
Theorem get_atom_feature_one_hot (m : Mol) (i : nat) (a : Atom) :
  mol_atoms m !! i = Some a →
  ∃ e1 e2 e3 : list bool,
    DataSet.get_atom_feature m i = Ok (e1 ++ e2 ++ e3 ++ [GetIsAromatic a])
    ∧ length (e1 ++ e2 ++ e3 ++ [GetIsAromatic a]) = 16
    ∧ e1 = one_hot 5 (symbol_bucket (GetSymbol a))
    ∧ e2 = one_hot 4 (charge_bucket (GetFormalCharge a))
    ∧ e3 = one_hot 6 (hs_bucket (GetTotalNumHs a))
    ∧ count_true e1 = 1 ∧ count_true e2 = 1 ∧ count_true e3 = 1
    ∧ (GetSymbol a ∉ ["C"; "N"; "O"; "F"] → e1 !! 4 = Some true)
    ∧ (GetFormalCharge a ∉ [-1; 0; 1]%Z → e2 !! 3 = Some true)
    ∧ (GetTotalNumHs a ∉ [0; 1; 2; 3; 4]%Z → e3 !! 5 = Some true).
Proof.
  intros Ha.
  eexists _, _, _. split; [exact (get_atom_feature_value m i a Ha) |].
  split; [apply atom_vector_length |].
  do 3 (split; [reflexivity |]).
  split; [apply one_hot_count, symbol_bucket_lt |].
  split; [apply one_hot_count, charge_bucket_lt |].
  split; [apply one_hot_count, hs_bucket_lt |].
  split; [| split].
  - intros Hs. unfold symbol_bucket.
    repeat (case_decide; [exfalso; apply Hs; subst; set_solver |]).
    reflexivity.
  - intros Hz. unfold charge_bucket.
    repeat (case_decide; [exfalso; apply Hz; subst; set_solver |]).
    reflexivity.
  - intros Hz. unfold hs_bucket. case_decide as Hr; [| reflexivity].
    exfalso. apply Hz.
    assert (GetTotalNumHs a = 0 ∨ GetTotalNumHs a = 1 ∨ GetTotalNumHs a = 2
            ∨ GetTotalNumHs a = 3 ∨ GetTotalNumHs a = 4)%Z as Hc by lia.
    clear Hr.
    destruct Hc as [Hc | [Hc | [Hc | [Hc | Hc]]]]; rewrite Hc; set_solver.
Qed.

End AtomFeatures.

(** The bromide ion: element by the catch-all, charge by the first
    bucket. *)
Lemma get_atom_feature_one_hot_witness :
  ∃ e1 e2 e3 : list bool,
    DataSet.get_atom_feature (mk_mol [Sample.bromide] []) 0
    = Ok (e1 ++ e2 ++ e3 ++ [false])
    ∧ e1 = [false; false; false; false; true]
    ∧ e2 = [true; false; false; false]
    ∧ e3 = [true; false; false; false; false; false].
Proof.
  destruct (get_atom_feature_one_hot (mk_mol [Sample.bromide] []) 0
              Sample.bromide eq_refl)
    as (e1 & e2 & e3 & Hf & _ & -> & -> & -> & _).
  eexists _, _, _. split; [exact Hf |]. repeat split.
Defined.

(** ** Padded tensors *)

Section Padding.

Import PaddedSpec.

Variable MolFromSmiles : string → option Mol.

Lemma append_row_ok (a : Np.ndarray) (row : list Z) :
  length row = Np.ncols a →
  Np.append_row a row
  = Ok (Np.mk_ndarray (S (Np.nrows a)) (Np.ncols a) (Np.rows a ++ [row])).
Proof. intros Hl. unfold Np.append_row. by rewrite decide_True. Qed.

Lemma zip_with_map_seq {A B C} (f : A → B → C) (g : nat → A) (h : nat → B)
    (l : list nat) :
  zip_with f (map g l) (map h l) = map (fun i => f (g i) (h i)) l.
Proof. induction l as [| x l IH]; simpl; [done | by rewrite IH]. Qed.

Lemma adj_plus_eye (m : Mol) :
  Np.add (GetAdjacencyMatrix m) (Np.eye (GetNumAtoms m))
  = Ok (Np.mk_ndarray (GetNumAtoms m) (GetNumAtoms m)
          (map (fun i =>
                  map (fun j => (Z.b2z (bonded m i j)
                                 + (if decide (i = j) then 1 else 0))%Z)
                      (seq 0 (GetNumAtoms m)))
               (seq 0 (GetNumAtoms m)))).
Proof.
  unfold Np.add, GetAdjacencyMatrix, Np.eye, Np.shape. simpl.
  rewrite decide_True by done. do 2 f_equal.
  rewrite zip_with_map_seq. apply map_ext. intros i.
  by rewrite zip_with_map_seq.
Qed.

Lemma atom_features_from (m : Mol) (k : nat) (rest : list Atom) :
  mol_atoms m = take k (mol_atoms m) ++ rest →
  k ≤ length (mol_atoms m) →
  for_each (seq k (length rest))
    (fun atom_feature i =>
       row ← DataSet.get_atom_feature m i;
       Np.append_row atom_feature (map Z.b2z row))
    (Np.mk_ndarray k 16
       (map (fun a => map Z.b2z (FeatureSpec.atom_vector a)) (take k (mol_atoms m))))
  = Ok (Np.mk_ndarray (length (mol_atoms m)) 16
          (map (fun a => map Z.b2z (FeatureSpec.atom_vector a)) (mol_atoms m))).
Proof.
  revert k. induction rest as [| a rest IH]; intros k Hsplit Hk.
  - simpl. rewrite app_nil_r in Hsplit.
    assert (k = length (mol_atoms m)) as ->.
    { apply (f_equal length) in Hsplit. rewrite length_take in Hsplit. lia. }
    by rewrite take_ge.
  - assert (mol_atoms m !! k = Some a) as Hka.
    { rewrite Hsplit. rewrite lookup_app_r by (rewrite length_take; lia).
      rewrite length_take. by replace (k - k `min` length (mol_atoms m)) with 0 by lia. }
    cbn [length seq]. rewrite for_each_cons.
    rewrite (get_atom_feature_value m k a Hka), bind_Ok.
    rewrite append_row_ok
      by (cbn [Np.ncols]; rewrite length_map; apply atom_vector_length).
    rewrite bind_Ok. cbn [Np.nrows Np.ncols Np.rows].
    assert (take (S k) (mol_atoms m) = take k (mol_atoms m) ++ [a]) as Htk.
    { by apply take_S_r. }
    specialize (IH (S k)). rewrite Htk, map_app in IH. simpl in IH.
    apply IH.
    + rewrite <- app_assoc. simpl. exact Hsplit.
    + apply lookup_lt_Some in Hka. lia.
Qed.

Lemma atom_features_value (m : Mol) :
  DataSet.atom_features m
  = Ok (Np.mk_ndarray (GetNumAtoms m) 16
          (map (fun a => map Z.b2z (FeatureSpec.atom_vector a)) (mol_atoms m))).
Proof.
  unfold DataSet.atom_features, GetNumAtoms.
  apply (atom_features_from m 0 (mol_atoms m)); [done | lia].
Qed.

Lemma imap_replicate {A B} (f : nat → A → B) (n : nat) (x : A) :
  imap f (replicate n x) = map (fun i => f i x) (seq 0 n).
Proof.
  revert f. induction n as [| n IH]; intros f; [done |].
  cbn [replicate seq map]. rewrite imap_cons, IH. f_equal.
  rewrite <- fmap_S_seq, <- list_fmap_compose. reflexivity.
Qed.

Lemma replicate_map_seq {A} (x : A) (n k : nat) :
  map (fun _ => x) (seq k n) = replicate n x.
Proof. revert k. induction n as [| n IH]; intros k; [done |]. simpl. by rewrite IH. Qed.

Lemma bidx_lt (s i : nat) : i < s → Np.bidx s i = i.
Proof. unfold Np.bidx. case_decide; lia. Qed.

Lemma broadcastable_refl (s : nat) : Np.broadcastable s s = true.
Proof. unfold Np.broadcastable. by rewrite bool_decide_eq_true_2. Qed.

(** Writing an [r × c] block into the corner of a zero array that has
    room for it. *)
Lemma assign_block_zeros (M C r c : nat) (src : Np.ndarray) :
  r ≤ M → c ≤ C → Np.nrows src = r → Np.ncols src = c →
  Np.assign_block (Np.zeros M C) r c src
  = Ok (Np.mk_ndarray M C
          (map (fun i =>
                  map (fun j => if decide (i < r ∧ j < c)
                                then Np.at_ src i j else 0%Z)
                      (seq 0 C))
               (seq 0 M))).
Proof.
  intros Hr Hc Hsr Hsc. unfold Np.assign_block, Np.zeros.
  cbn [Np.nrows Np.ncols Np.rows]. rewrite Hsr, Hsc.
  rewrite !Nat.min_l by done. rewrite !broadcastable_refl. cbn [andb].
  do 2 f_equal. rewrite imap_replicate. apply map_ext. intros i.
  case_decide as Hi.
  - rewrite imap_replicate. apply map_ext. intros j.
    case_decide as Hj.
    + rewrite decide_True by done. by rewrite !bidx_lt.
    + rewrite decide_False by lia. done.
  - rewrite <- (replicate_map_seq 0%Z C 0). apply map_ext. intros j.
    by rewrite decide_False by lia.
Qed.

Lemma map_lookup_seq (l : list Z) (n : nat) :
  length l = n →
  map (fun j => default 0%Z (l !! j)) (seq 0 n) = l.
Proof.
  intros <-. apply list_eq. intros j.
  rewrite list_lookup_fmap.
  destruct (decide (j < length l)) as [Hj | Hj].
  - rewrite lookup_seq_lt by done. simpl.
    destruct (lookup_lt_is_Some_2 l j Hj) as [x Hx]. by rewrite Hx.
  - rewrite lookup_seq_ge by lia. simpl. symmetry. apply lookup_ge_None. lia.
Qed.

Lemma padded_feature_value (M : nat) (m : Mol) :
  GetNumAtoms m ≤ M →
  DataSet.atom_features m ≫= Np.assign_block (Np.zeros M 16) (GetNumAtoms m) 16
  = Ok (padded_feature M m).
Proof.
  intros Hn. rewrite atom_features_value, bind_Ok.
  rewrite assign_block_zeros by done.
  unfold padded_feature. do 2 f_equal. apply map_ext. intros i.
  unfold feature_row, Np.at_, Np.get. cbn [Np.rows].
  rewrite list_lookup_fmap.
  destruct (mol_atoms m !! i) as [a |] eqn:Ha.
  - apply lookup_lt_Some in Ha as Hi. cbn [fmap option_fmap option_map mbind option_bind].
    rewrite <- (map_lookup_seq (map Z.b2z (FeatureSpec.atom_vector a)) 16)
      by (rewrite length_map; apply atom_vector_length).
    apply map_ext_in. intros j Hj. apply in_seq in Hj.
    unfold GetNumAtoms. rewrite decide_True by lia.
    rewrite (map_lookup_seq (map Z.b2z (FeatureSpec.atom_vector a)) 16)
      by (rewrite length_map; apply atom_vector_length).
    reflexivity.
  - apply lookup_ge_None in Ha. rewrite <- (replicate_map_seq 0%Z 16 0).
    apply map_ext. intros j. unfold GetNumAtoms. rewrite decide_False by lia. done.
Qed.

Lemma padded_adj_value (M : nat) (m : Mol) :
  GetNumAtoms m ≤ M →
  Np.add (GetAdjacencyMatrix m) (Np.eye (GetNumAtoms m))
    ≫= Np.assign_block (Np.zeros M M) (GetNumAtoms m) (GetNumAtoms m)
  = Ok (padded_adj M m).
Proof.
  intros Hn. rewrite adj_plus_eye, bind_Ok.
  rewrite assign_block_zeros by done.
  unfold padded_adj. do 2 f_equal. apply map_ext. intros i. apply map_ext. intros j.
  unfold adj_entry. case_decide as Hij; [| done].
  destruct Hij as [Hi Hj].
  unfold Np.at_, Np.get. cbn [Np.rows].
  rewrite list_lookup_fmap, lookup_seq_lt by done.
  cbn [fmap option_fmap option_map mbind option_bind].
  rewrite list_lookup_fmap, lookup_seq_lt by done. reflexivity.
Qed.

(** One molecule that parses and fits is stored as its two padded arrays. *)
Lemma process_molecule_ok (M : nat) (smiles : string) (m : Mol)
    (st : list Np.ndarray * list Np.ndarray) :
  MolFromSmiles smiles = Some m →
  GetNumAtoms m ≤ M →
  DataSet.process_molecule MolFromSmiles M st smiles
  = Ok (st.1 ++ [padded_feature M m], st.2 ++ [padded_adj M m]).
Proof.
  intros Hp Hn. unfold DataSet.process_molecule, DataSet.parse.
  rewrite Hp, bind_Ok.
  pose proof (padded_adj_value M m Hn) as Ha.
  pose proof (padded_feature_value M m Hn) as Hf.
  destruct (Np.add (GetAdjacencyMatrix m) (Np.eye (GetNumAtoms m)))
    as [adj | e]; [| done].
  change (Np.assign_block (Np.zeros M M) (GetNumAtoms m) (GetNumAtoms m) adj
          = Ok (padded_adj M m)) in Ha.
  rewrite bind_Ok.
  destruct (DataSet.atom_features m) as [af | e]; [| done].
  change (Np.assign_block (Np.zeros M 16) (GetNumAtoms m) 16 af
          = Ok (padded_feature M m)) in Hf.
  rewrite bind_Ok, Hf, bind_Ok, Ha, bind_Ok. reflexivity.
Qed.

Lemma process_all_ok (M : nat) (smiles_list : list string)
    (st : list Np.ndarray * list Np.ndarray) :
  Forall (fits MolFromSmiles M) smiles_list →
  ∃ fas : list (Np.ndarray * Np.ndarray),
    for_each smiles_list (DataSet.process_molecule MolFromSmiles M) st
    = Ok (st.1 ++ fas.*1, st.2 ++ fas.*2)
    ∧ Forall2 (stored_as MolFromSmiles M) smiles_list fas.
Proof.
  intros Hall. revert st. induction Hall as [| s l (m & Hp & Hn) _ IH]; intros st.
  - exists []. rewrite for_each_nil. cbn. rewrite !app_nil_r.
    split; [by destruct st | constructor].
  - rewrite for_each_cons, (process_molecule_ok M s m st Hp Hn), bind_Ok.
    destruct (IH (st.1 ++ [padded_feature M m], st.2 ++ [padded_adj M m]))
      as (fas & Hrun & Hfas).
    exists ((padded_feature M m, padded_adj M m) :: fas).
    split.
    + rewrite Hrun. cbn [fst snd fmap list_fmap]. by rewrite <- !app_assoc.
    + constructor; [by exists m | done].
Qed.

Lemma init_ok {F} (M : nat) (smiles_list : list string) (freeE_list : list F) :
  Forall (fits MolFromSmiles M) smiles_list →
  ∃ fas : list (Np.ndarray * Np.ndarray),
    DataSet.__init__ MolFromSmiles smiles_list freeE_list M
    = Ok (DataSet.mk smiles_list freeE_list M fas.*1 fas.*2)
    ∧ Forall2 (stored_as MolFromSmiles M) smiles_list fas.
Proof.
  intros Hall. destruct (process_all_ok M smiles_list ([], []) Hall)
    as (fas & Hrun & Hfas).
  exists fas. split; [| done].
  unfold DataSet.__init__, DataSet.process_data.
  cbn [DataSet.smiles_list DataSet.max_num_atoms DataSet.feature_list
       DataSet.adj_list DataSet.freeE_list].
  by rewrite Hrun, bind_Ok.
Qed.

Lemma get_table (M C : nat) (g : nat → nat → Z) (i j : nat) :
  i < M → j < C →
  Np.get (Np.mk_ndarray M C (map (fun i => map (g i) (seq 0 C)) (seq 0 M))) i j
  = Some (g i j).
Proof.
  intros Hi Hj. unfold Np.get. cbn [Np.rows].
  rewrite list_lookup_fmap, lookup_seq_lt by done.
  cbn [fmap option_fmap option_map mbind option_bind].
  by rewrite list_lookup_fmap, lookup_seq_lt by done.
Qed.

Lemma bonded_irrefl (m : Mol) (i : nat) : mol_wf m → bonded m i i = false.
Proof.
  unfold mol_wf, bonded. induction 1 as [| b l (Hb & _) _ IH]; [done |].
  cbn [existsb]. rewrite IH, orb_false_r.
  destruct (decide (b.1 = i)) as [H1 | H1].
  - rewrite (bool_decide_eq_false_2 (b.2 = i)) by congruence.
    by rewrite !andb_false_r.
  - by rewrite (bool_decide_eq_false_2 (b.1 = i)).
Qed.

Lemma feature_row_length (m : Mol) (i : nat) : length (feature_row m i) = 16.
Proof.
  unfold feature_row. destruct (mol_atoms m !! i).
  - rewrite length_map. apply atom_vector_length.
  - apply length_replicate.
Qed.

Lemma padded_feature_padding (M : nat) (m : Mol) (i j : nat) :
  GetNumAtoms m ≤ i → i < M → j < 16 →
  Np.get (padded_feature M m) i j = Some 0%Z.
Proof.
  intros Hn Hi Hj.
  assert (feature_row m i = replicate 16 0%Z) as Hrow.
  { unfold feature_row. by rewrite (lookup_ge_None_2 (mol_atoms m) i). }
  unfold Np.get, padded_feature. cbn [Np.rows].
  rewrite list_lookup_fmap, lookup_seq_lt by done.
  cbn [fmap option_fmap option_map mbind option_bind Nat.add].
  rewrite Hrow. by apply lookup_replicate_2.
Qed.

Lemma padded_arrays_zero_padded (M : nat) (m : Mol) :
  mol_wf m → GetNumAtoms m ≤ M →
  zero_padded M m (padded_feature M m) (padded_adj M m).
Proof.
  intros Hwf Hn. unfold zero_padded. cbn zeta.
  split; [done |].
  split; [cbn; by rewrite length_map, length_seq |].
  split.
  { cbn. apply Forall_forall. intros r Hr. apply list_elem_of_fmap in Hr as (i & -> & _).
    apply feature_row_length. }
  split.
  { intros i j [Hi1 Hi2] Hj. by apply padded_feature_padding. }
  split; [done |].
  split; [cbn; by rewrite length_map, length_seq |].
  split.
  { cbn. apply Forall_forall. intros r Hr. apply list_elem_of_fmap in Hr as (i & -> & _).
    by rewrite length_map, length_seq. }
  split.
  { intros i j Hi Hj Hout. unfold padded_adj. rewrite get_table by done.
    unfold adj_entry. by rewrite decide_False by lia. }
  split.
  { intros i j Hi Hj. unfold padded_adj. rewrite get_table by lia.
    unfold adj_entry. rewrite decide_True by done.
    unfold Np.at_, GetAdjacencyMatrix, Np.eye. cbn zeta.
    by rewrite !get_table by done. }
  intros i Hi. unfold padded_adj. rewrite get_table by lia.
  unfold adj_entry. rewrite decide_True by done.
  by rewrite bonded_irrefl, decide_True.
Qed.

(** The arrays of a construction are those of the loop started on two
    empty lists. *)
Lemma init_runs_loop {F} (smiles_list : list string) (freeE_list : list F)
    (M : nat) :
  DataSet.__init__ MolFromSmiles smiles_list freeE_list M
  = st ← for_each smiles_list (DataSet.process_molecule MolFromSmiles M) ([], []);
    Ok (DataSet.mk smiles_list freeE_list M st.1 st.2).
Proof. reflexivity. Qed.

(** What an iteration appends does not depend on the lists it appends to. *)
Lemma process_molecule_appends (M : nat) (smiles : string)
    (st st1 : list Np.ndarray * list Np.ndarray) :
  DataSet.process_molecule MolFromSmiles M st smiles = Ok st1 →
  ∃ pf pa,
    st1 = (st.1 ++ [pf], st.2 ++ [pa])
    ∧ ∀ st0, DataSet.process_molecule MolFromSmiles M st0 smiles
             = Ok (st0.1 ++ [pf], st0.2 ++ [pa]).
Proof.
  unfold DataSet.process_molecule.
  destruct (DataSet.parse MolFromSmiles smiles) as [m | e]; [| done].
  rewrite bind_Ok.
  destruct (Np.add (GetAdjacencyMatrix m) (Np.eye (GetNumAtoms m)))
    as [adj | e] eqn:Hadd; [| done].
  rewrite bind_Ok.
  destruct (DataSet.atom_features m) as [af | e] eqn:Haf; [| done].
  rewrite bind_Ok.
  destruct (Np.assign_block (Np.zeros M 16) (GetNumAtoms m) 16 af)
    as [pf | e] eqn:Hpf; [| done].
  rewrite bind_Ok.
  destruct (Np.assign_block (Np.zeros M M) (GetNumAtoms m) (GetNumAtoms m) adj)
    as [pa | e] eqn:Hpa; [| done].
  rewrite bind_Ok. intros [= <-]. exists pf, pa. split; [done |].
  intros st0.
  by rewrite bind_Ok, Hadd, bind_Ok, Haf, bind_Ok, Hpf, bind_Ok, Hpa, bind_Ok.
Qed.

(** A completed loop has appended one pair per SMILES string. *)
Lemma process_all_inv (M : nat) (smiles_list : list string)
    (st st' : list Np.ndarray * list Np.ndarray) :
  for_each smiles_list (DataSet.process_molecule MolFromSmiles M) st = Ok st' →
  ∃ fas : list (Np.ndarray * Np.ndarray),
    st' = (st.1 ++ fas.*1, st.2 ++ fas.*2)
    ∧ Forall2 (fun smiles fa =>
                 ∀ st0, DataSet.process_molecule MolFromSmiles M st0 smiles
                        = Ok (st0.1 ++ [fa.1], st0.2 ++ [fa.2]))
              smiles_list fas.
Proof.
  revert st. induction smiles_list as [| s l IH]; intros st.
  - rewrite for_each_nil. intros [= <-]. exists []. cbn. rewrite !app_nil_r.
    split; [by destruct st | constructor].
  - rewrite for_each_cons.
    destruct (DataSet.process_molecule MolFromSmiles M st s) as [st1 | e] eqn:Hs;
      [| done].
    rewrite bind_Ok. intros Hrest.
    apply process_molecule_appends in Hs as (pf & pa & -> & Hany).
    apply IH in Hrest as (fas & -> & Hfas).
    exists ((pf, pa) :: fas). cbn [fst snd fmap list_fmap]. split.
    + by rewrite <- !app_assoc.
    + by constructor.
Qed.

(** C3: a molecule with at most [max_num_atoms] atoms is stored as a
    feature matrix of shape (max_num_atoms, 16) whose rows from num_atoms
    on are zero, and an adjacency matrix of shape (max_num_atoms,
    max_num_atoms) whose rows and columns from num_atoms on are zero; the
    top-left num_atoms × num_atoms block is the molecule's adjacency matrix
    plus the identity, with 1 on the diagonal of every real atom.  This
    holds for the pair its loop iteration appends, and for the entries at
    its position in every data set that was constructed. *)
Theorem process_data_zero_padding (smiles : string) (m : Mol)
    (max_num_atoms : nat) :
  MolFromSmiles smiles = Some m →
  mol_wf m →
  GetNumAtoms m ≤ max_num_atoms →
  (∀ st, ∃ pf pa,
     DataSet.process_molecule MolFromSmiles max_num_atoms st smiles
     = Ok (st.1 ++ [pf], st.2 ++ [pa])
     ∧ zero_padded max_num_atoms m pf pa)
  ∧ (∀ (F : Type) (smiles_list : list string) (freeE_list : list F)
       (ds : DataSet.t F) (k : nat),
       DataSet.__init__ MolFromSmiles smiles_list freeE_list max_num_atoms = Ok ds →
       smiles_list !! k = Some smiles →
       ∃ pf pa,
         DataSet.feature_list ds !! k = Some pf
         ∧ DataSet.adj_list ds !! k = Some pa
         ∧ zero_padded max_num_atoms m pf pa).
Proof.
  intros Hp Hwf Hn.
  pose proof (padded_arrays_zero_padded max_num_atoms m Hwf Hn) as Hzero.
  split.
  - intros st. eexists _, _.
    split; [exact (process_molecule_ok max_num_atoms smiles m st Hp Hn) |].
    exact Hzero.
  - intros F smiles_list freeE_list ds k Hinit Hk.
    rewrite init_runs_loop in Hinit.
    destruct (for_each smiles_list _ ([], [])) as [st' | e] eqn:Hloop; [| done].
    rewrite bind_Ok in Hinit. injection Hinit as <-.
    apply process_all_inv in Hloop as (fas & -> & Hfas).
    destruct (Forall2_lookup_l _ _ _ _ _ Hfas Hk) as ([pf pa] & Hfa & Hany).
    specialize (Hany ([], [])).
    rewrite (process_molecule_ok max_num_atoms smiles m _ Hp Hn) in Hany.
    cbn [fst snd app] in Hany. injection Hany as <- <-.
    exists (padded_feature max_num_atoms m), (padded_adj max_num_atoms m).
    cbn [DataSet.feature_list DataSet.adj_list fst snd app].
    rewrite !list_lookup_fmap, Hfa. done.
Qed.

End Padding.

(** Methane after ethane in a data set of width three. *)
Lemma process_data_zero_padding_witness :
  ∃ ds pf pa,
    DataSet.__init__ Sample.toy_smiles ["CC"; "C"] [(1 # 4)%Q; 2%Q] 3 = Ok ds
    ∧ DataSet.feature_list ds !! 1 = Some pf
    ∧ DataSet.adj_list ds !! 1 = Some pa
    ∧ PaddedSpec.zero_padded 3 Sample.methane pf pa.
Proof.
  destruct (process_data_zero_padding Sample.toy_smiles "C" Sample.methane 3)
    as [_ Hstored].
  - reflexivity.
  - constructor.
  - cbn. lia.
  - destruct (DataSet.__init__ Sample.toy_smiles ["CC"; "C"] [(1 # 4)%Q; 2%Q] 3)
      as [ds | e] eqn:Hinit; [| vm_compute in Hinit; discriminate Hinit].
    destruct (Hstored Q ["CC"; "C"] [(1 # 4)%Q; 2%Q] ds 1 Hinit eq_refl)
      as (pf & pa & Hf & Ha & Hz).
    by exists ds, pf, pa.
Defined.

(** ** Construction of the data set *)

Section Construction.

Import PaddedSpec.

Variable MolFromSmiles : string → option Mol.

Lemma for_each_raise {A S} (body : S → A → result S) (xs : list A) (x : A) :
  x ∈ xs →
  (∀ st, ∃ e, body st x = Raise e) →
  ∀ st, ∃ e, for_each xs body st = Raise e.
Proof.
  intros Hx Hbad. induction xs as [| y xs IH]; intros st.
  - by apply not_elem_of_nil in Hx.
  - rewrite for_each_cons. apply elem_of_cons in Hx as [<- | Hx].
    + destruct (Hbad st) as [e ->]. by exists e.
    + destruct (body st y) as [st' | e]; [| by exists e].
      rewrite bind_Ok. by apply IH.
Qed.

Lemma process_molecule_unparsed (M : nat) (smiles : string)
    (st : list Np.ndarray * list Np.ndarray) :
  MolFromSmiles smiles = None →
  DataSet.process_molecule MolFromSmiles M st smiles = Raise AttributeError.
Proof.
  intros Hp. unfold DataSet.process_molecule, DataSet.parse. by rewrite Hp.
Qed.

(** A block of at least two rows does not broadcast onto fewer rows. *)
Lemma assign_block_too_many_rows (tgt src : Np.ndarray) (r c : nat) :
  Np.nrows src = r → Np.nrows tgt < r → 2 ≤ r →
  Np.assign_block tgt r c src = Raise ValueError.
Proof.
  intros Hs Ht H2. unfold Np.assign_block, Np.broadcastable. rewrite Hs.
  rewrite (bool_decide_eq_false_2 (r = r `min` Np.nrows tgt)) by lia.
  by rewrite (bool_decide_eq_false_2 (r = 1)) by lia.
Qed.

Lemma process_molecule_too_large (M : nat) (smiles : string) (m : Mol)
    (st : list Np.ndarray * list Np.ndarray) :
  MolFromSmiles smiles = Some m →
  M < GetNumAtoms m → 2 ≤ GetNumAtoms m →
  DataSet.process_molecule MolFromSmiles M st smiles = Raise ValueError.
Proof.
  intros Hp Hn H2. unfold DataSet.process_molecule, DataSet.parse.
  rewrite Hp, bind_Ok, adj_plus_eye, bind_Ok, atom_features_value, bind_Ok.
  rewrite (assign_block_too_many_rows (Np.zeros M 16));
    cbn [Np.nrows Np.zeros]; done.
Qed.

(** C10 (as amended): [process_data] neither skips nor rejects on its
    own.  When every SMILES string parses to at most [max_num_atoms] atoms
    the construction succeeds and stores one feature tensor and one
    adjacency tensor per string; when some string does not parse, or has
    more than [max_num_atoms] atoms and at least two of them, the
    construction raises an exception; and a construction that completes
    has stored exactly one pair of tensors per string. *)
Theorem process_data_no_filtering {F} (smiles_list : list string)
    (freeE_list : list F) (max_num_atoms : nat) :
  (Forall (fits MolFromSmiles max_num_atoms) smiles_list →
   ∃ ds,
     DataSet.__init__ MolFromSmiles smiles_list freeE_list max_num_atoms = Ok ds
     ∧ DataSet.smiles_list ds = smiles_list
     ∧ length (DataSet.feature_list ds) = length smiles_list
     ∧ length (DataSet.adj_list ds) = length smiles_list
     ∧ DataSet.__len__ ds = length smiles_list)
  ∧ (Exists (fun smiles =>
               MolFromSmiles smiles = None
               ∨ ∃ m, MolFromSmiles smiles = Some m
                      ∧ max_num_atoms < GetNumAtoms m ∧ 2 ≤ GetNumAtoms m)
            smiles_list →
     ∃ e,
       DataSet.__init__ MolFromSmiles smiles_list freeE_list max_num_atoms
       = Raise e)
  ∧ (∀ ds,
       DataSet.__init__ MolFromSmiles smiles_list freeE_list max_num_atoms = Ok ds →
       length (DataSet.feature_list ds) = length smiles_list
       ∧ length (DataSet.adj_list ds) = length smiles_list
       ∧ DataSet.__len__ ds = length smiles_list).
Proof.
  split; [| split].
  3: { intros ds Hinit. rewrite init_runs_loop in Hinit.
       destruct (for_each smiles_list _ ([], [])) as [st' | e] eqn:Hloop; [| done].
       rewrite bind_Ok in Hinit. injection Hinit as <-.
       apply process_all_inv in Hloop as (fas & -> & Hfas).
       apply Forall2_length in Hfas.
       unfold DataSet.__len__.
       cbn [DataSet.smiles_list DataSet.feature_list DataSet.adj_list fst snd app].
       by rewrite !length_fmap. }
  - intros Hall.
    destruct (init_ok MolFromSmiles max_num_atoms smiles_list freeE_list Hall)
      as (fas & Hinit & Hfas).
    eexists. split; [exact Hinit |].
    apply Forall2_length in Hfas.
    cbn [DataSet.smiles_list DataSet.feature_list DataSet.adj_list].
    unfold DataSet.__len__. cbn [DataSet.smiles_list].
    by rewrite !length_fmap.
  - intros Hbad. apply Exists_exists in Hbad as (smiles & Hin & Hbad).
    unfold DataSet.__init__, DataSet.process_data.
    cbn [DataSet.smiles_list DataSet.max_num_atoms DataSet.feature_list
         DataSet.adj_list].
    destruct (for_each_raise (DataSet.process_molecule MolFromSmiles max_num_atoms)
                smiles_list smiles Hin) with (st := ([] : list Np.ndarray, [] : list Np.ndarray))
      as [e He].
    + intros st. destruct Hbad as [Hp | (m & Hp & Hn & H2)].
      * exists AttributeError. by apply process_molecule_unparsed.
      * exists ValueError. by apply (process_molecule_too_large _ _ m).
    + exists e. by rewrite He.
Qed.

End Construction.

(** Two strings that fit are stored; an unknown string makes the
    construction fail. *)
Lemma process_data_no_filtering_witness :
  (∃ ds,
     DataSet.__init__ Sample.toy_smiles ["CC"; "O"] [2%Q; (1 # 4)%Q] 2 = Ok ds
     ∧ length (DataSet.feature_list ds) = 2
     ∧ length (DataSet.adj_list ds) = 2)
  ∧ (∃ e,
       DataSet.__init__ Sample.toy_smiles ["CC"; "?"] [2%Q; (1 # 4)%Q] 2
       = Raise e).
Proof.
  split.
  - destruct (process_data_no_filtering Sample.toy_smiles ["CC"; "O"]
                [2%Q; (1 # 4)%Q] 2) as (Hok & _ & _).
    destruct Hok as (ds & Hds & _ & Hf & Ha & _).
    + repeat constructor.
      * exists Sample.ethane. split; [reflexivity | cbn; lia].
      * exists Sample.water. split; [reflexivity | cbn; lia].
    + by exists ds.
  - destruct (process_data_no_filtering Sample.toy_smiles ["CC"; "?"]
                [2%Q; (1 # 4)%Q] 2) as (_ & Hbad & _).
    apply Hbad. apply Exists_cons_tl, Exists_cons_hd. by left.
Defined.

(** C10, counterexample: with [max_num_atoms = 0] the one-atom molecule of
    ["C"] exceeds the budget, yet the construction completes: NumPy
    broadcasts the single feature row, and the 1 × 1 adjacency, onto the
    empty slices, and two empty tensors are stored. *)
Lemma process_data_accepts_oversized :
  ¬ PaddedSpec.fits Sample.toy_smiles 0 "C"
  ∧ DataSet.__init__ Sample.toy_smiles ["C"] [2%Q] 0
    = Ok (DataSet.mk ["C"] [2%Q] 0 [Np.mk_ndarray 0 16 []] [Np.mk_ndarray 0 0 []]).
Proof.
  split; [| reflexivity].
  intros (m & Hp & Hn). injection Hp as <-. cbn in Hn. lia.
Qed.

(** ** Determinism of the featurization *)

Section Determinism.

Import PaddedSpec.

Variable MolFromSmiles : string → option Mol.

(** C8: featurization is deterministic.  Two constructions over the same
    SMILES list and [max_num_atoms] end alike, whatever the targets: both
    raise the same exception, or both succeed with equal feature tensors
    and equal adjacency tensors, entry for entry; the tensors stored for
    a SMILES string are the same whatever the other strings of the list
    and its position in it; and the feature vector of an atom is
    determined by the atom alone, whichever molecule and position it is
    read from. *)
Theorem featurization_deterministic {F G} (smiles_list : list string)
    (freeE_list : list F) (freeE_list' : list G) (max_num_atoms : nat) :
  match DataSet.__init__ MolFromSmiles smiles_list freeE_list max_num_atoms,
        DataSet.__init__ MolFromSmiles smiles_list freeE_list' max_num_atoms
  with
  | Ok ds, Ok ds' =>
      DataSet.feature_list ds = DataSet.feature_list ds'
      ∧ DataSet.adj_list ds = DataSet.adj_list ds'
      ∧ (∀ k i j,
           (DataSet.feature_list ds !! k ≫= fun a => Np.get a i j)
           = (DataSet.feature_list ds' !! k ≫= fun a => Np.get a i j))
      ∧ (∀ k i j,
           (DataSet.adj_list ds !! k ≫= fun a => Np.get a i j)
           = (DataSet.adj_list ds' !! k ≫= fun a => Np.get a i j))
  | Raise e, Raise e' => e = e'
  | _, _ => False
  end
  ∧ (∀ (others : list string) (k k' : nat) (smiles : string),
       Forall (fits MolFromSmiles max_num_atoms) smiles_list →
       Forall (fits MolFromSmiles max_num_atoms) others →
       smiles_list !! k = Some smiles →
       others !! k' = Some smiles →
       ∃ ds ds',
         DataSet.__init__ MolFromSmiles smiles_list freeE_list max_num_atoms = Ok ds
         ∧ DataSet.__init__ MolFromSmiles others freeE_list' max_num_atoms = Ok ds'
         ∧ DataSet.feature_list ds !! k = DataSet.feature_list ds' !! k'
         ∧ DataSet.adj_list ds !! k = DataSet.adj_list ds' !! k'
         ∧ is_Some (DataSet.feature_list ds !! k)
         ∧ is_Some (DataSet.adj_list ds !! k))
  ∧ ∀ (m m' : Mol) (i i' : nat) (a : Atom),
      mol_atoms m !! i = Some a →
      mol_atoms m' !! i' = Some a →
      DataSet.get_atom_feature m i = DataSet.get_atom_feature m' i'
      ∧ DataSet.get_atom_feature m i = Ok (FeatureSpec.atom_vector a).
Proof.
  split; [| split].
  - rewrite !init_runs_loop.
    destruct (for_each smiles_list
                (DataSet.process_molecule MolFromSmiles max_num_atoms) ([], []))
      as [st | e]; [| done].
    rewrite !bind_Ok. cbn [DataSet.feature_list DataSet.adj_list]. done.
  - intros others k k' smiles Hall Hall' Hk Hk'.
    destruct (init_ok MolFromSmiles max_num_atoms smiles_list freeE_list Hall)
      as (fas & Hinit & Hfas).
    destruct (init_ok MolFromSmiles max_num_atoms others freeE_list' Hall')
      as (fas' & Hinit' & Hfas').
    destruct (Forall2_lookup_l _ _ _ _ _ Hfas Hk) as (fa & Hfa & m & Hp & ->).
    destruct (Forall2_lookup_l _ _ _ _ _ Hfas' Hk') as (fa' & Hfa' & m' & Hp' & ->).
    assert (m' = m) as -> by congruence.
    eexists _, _. do 2 (split; [eassumption |]).
    cbn [DataSet.feature_list DataSet.adj_list].
    rewrite !list_lookup_fmap, Hfa, Hfa'. cbn. eauto.
  - intros m m' i i' a Hi Hi'.
    by rewrite (get_atom_feature_value m i a Hi),
               (get_atom_feature_value m' i' a Hi').
Qed.

End Determinism.

(** The two carbons of ethane get one and the same feature vector. *)
Lemma featurization_deterministic_witness :
  DataSet.get_atom_feature Sample.ethane 0 = DataSet.get_atom_feature Sample.ethane 1
  ∧ DataSet.get_atom_feature Sample.ethane 0
    = Ok (FeatureSpec.atom_vector Sample.methyl).
Proof.
  destruct (featurization_deterministic Sample.toy_smiles ["CC"] [2%Q] [true] 2)
    as (_ & _ & Hatom).
  apply (Hatom Sample.ethane Sample.ethane 0 1 Sample.methyl); reflexivity.
Defined.

(** ** Loading the CSV file *)

Section Loading.

Import LoaderSpec.

Context {F : Type}.
Variable MolFromSmiles : string → option Mol.
Variable float : string → option F.

Lemma load_line_value (M : Z) (st : list string * list F) (line : list string) :
  well_formed float line →
  Loader.load_line MolFromSmiles float M st line
  = Ok (match kept MolFromSmiles float M line with
        | Some p => (st.1 ++ [p.1], st.2 ++ [p.2])
        | None => st
        end).
Proof.
  intros (Hlen & field & Hlast & v & Hv).
  destruct (lookup_lt_is_Some_2 line 1) as [smiles Hs]; [lia |].
  unfold Loader.load_line, Loader.index, py_last, Loader.to_float, kept.
  rewrite Hs, Hlast. cbn [mbind result_bind Py.bind option_bind].
  rewrite Hv. cbn [mbind result_bind Py.bind option_bind].
  destruct (MolFromSmiles smiles) as [mol |]; [| done].
  cbn [mbind result_bind Py.bind option_bind].
  destruct (decide (Z.of_nat (GetNumAtoms mol) > M)%Z) as [Hgt | Hle].
  - by rewrite decide_False by lia.
  - by rewrite decide_True by lia.
Qed.

Lemma load_lines_value (M : Z) (lines : list (list string))
    (st : list string * list F) :
  Forall (well_formed float) lines →
  for_each lines (Loader.load_line MolFromSmiles float M) st
  = Ok (st.1 ++ (selected MolFromSmiles float M lines).*1,
        st.2 ++ (selected MolFromSmiles float M lines).*2).
Proof.
  intros Hall. revert st. induction Hall as [| line lines Hwf _ IH]; intros st.
  - rewrite for_each_nil. cbn. rewrite !app_nil_r. by destruct st.
  - rewrite for_each_cons, (load_line_value M st line Hwf), bind_Ok, IH.
    unfold selected. cbn [omap list_omap].
    destruct (kept MolFromSmiles float M line) as [[smiles freeE] |]; [| done].
    cbn [fst snd fmap list_fmap]. by rewrite <- !app_assoc.
Qed.

(** C4 (as amended): for a CSV file made of a header row and data rows
    that each have a SMILES field at index 1 and a last field that reads as
    a float, [load_data] returns exactly the (smiles, free-energy) pairs,
    in row order, of the data rows whose SMILES string parses to a molecule
    of at most [max_num_atoms] atoms; rows whose SMILES string does not
    parse are skipped without an exception and leave the other pairs
    untouched. *)
Theorem load_data_selects (header : list string) (lines : list (list string))
    (max_num_atoms : Z) :
  Forall (well_formed float) lines →
  Loader.load_data MolFromSmiles float (header :: lines) max_num_atoms
  = Ok ((selected MolFromSmiles float max_num_atoms lines).*1,
        (selected MolFromSmiles float max_num_atoms lines).*2)
  ∧ (∀ smiles freeE,
       (smiles, freeE) ∈ selected MolFromSmiles float max_num_atoms lines →
       ∃ mol, MolFromSmiles smiles = Some mol
              ∧ (Z.of_nat (GetNumAtoms mol) ≤ max_num_atoms)%Z)
  ∧ (∀ before line after,
       lines = before ++ line :: after →
       (∀ smiles, line !! 1 = Some smiles → MolFromSmiles smiles = None) →
       selected MolFromSmiles float max_num_atoms lines
       = selected MolFromSmiles float max_num_atoms (before ++ after)).
Proof.
  intros Hall. split; [| split].
  - unfold Loader.load_data. by rewrite load_lines_value.
  - intros smiles freeE Hin. unfold selected in Hin.
    apply list_elem_of_omap in Hin as (line & _ & Hk). unfold kept in Hk.
    destruct (line !! 1) as [s |]; [| done]. cbn [mbind option_bind] in Hk.
    destruct (last line) as [field |]; [| done]. cbn [mbind option_bind] in Hk.
    destruct (float field) as [v |]; [| done]. cbn [mbind option_bind] in Hk.
    destruct (MolFromSmiles s) as [mol |] eqn:Hp; [| done].
    cbn [mbind option_bind] in Hk. case_decide as Hn; [| done].
    injection Hk as <- <-. by exists mol.
  - intros before line after -> Hbad. unfold selected.
    rewrite !omap_app. f_equal. cbn [omap list_omap].
    assert (kept MolFromSmiles float max_num_atoms line = None) as ->; [| done].
    unfold kept. destruct (line !! 1) as [s |]; [| done].
    cbn [mbind option_bind]. rewrite (Hbad s eq_refl).
    destruct (last line) as [field |]; [| done]. cbn [mbind option_bind].
    by destruct (float field).
Qed.

End Loading.

(** A file with a 64-atom chain, a 65-atom chain, an unreadable SMILES
    string and water: the 64-atom chain and water are returned. *)
Lemma load_data_selects_witness :
  Loader.load_data Sample.toy_chains Sample.toy_float
    [ ["id"; "smiles"; "expt"];
      ["1"; "C64"; "-1.5"];
      ["2"; "C65"; "0.25"];
      ["3"; "not a molecule"; "2"];
      ["4"; "O"; "0.25"] ]
    Loader.default_max_num_atoms
  = Ok (["C64"; "O"], [(-3 # 2)%Q; (1 # 4)%Q]).
Proof.
  destruct (load_data_selects Sample.toy_chains Sample.toy_float
              ["id"; "smiles"; "expt"]
              [ ["1"; "C64"; "-1.5"];
                ["2"; "C65"; "0.25"];
                ["3"; "not a molecule"; "2"];
                ["4"; "O"; "0.25"] ]
              Loader.default_max_num_atoms) as [Hload _].
  - repeat constructor; cbn; try lia; eexists; (split; [reflexivity |]);
      eexists; reflexivity.
  - rewrite Hload. vm_compute. reflexivity.
Defined.

(** C4, counterexample: a data row whose SMILES string does not parse and
    whose last field is not a number is not skipped: [float] runs before
    the molecule is looked at and raises [ValueError]. *)
Lemma load_data_unparsed_row_raises :
  Sample.toy_smiles "not a molecule" = None
  ∧ Loader.load_data Sample.toy_smiles Sample.toy_float
      [ ["id"; "smiles"; "expt"]; ["1"; "not a molecule"; "n/a"] ]
      Loader.default_max_num_atoms
    = Raise ValueError.
Proof. split; reflexivity. Qed.

(** ** The learning-rate schedule *)

Section ReduceLr.

Import ScheduleSpec.

Context {F : Type} `{Float64 F}.

Lemma py_index_in_range (loss_list : list F) (i : Z) :
  (0 ≤ i < Z.of_nat (length loss_list))%Z →
  ∃ x, Schedule.py_index loss_list i = Ok x ∧ loss_at loss_list i = Some x.
Proof.
  intros Hi. unfold Schedule.py_index, loss_at. cbn zeta.
  rewrite (decide_False (P := (i < 0)%Z)) by lia.
  rewrite !decide_True by lia.
  destruct (lookup_lt_is_Some_2 loss_list (Z.to_nat i)) as [x Hx]; [lia |].
  exists x. by rewrite Hx.
Qed.

Lemma abs_change_in_range (loss_list : list F) (e : Z) :
  (1 ≤ e < Z.of_nat (length loss_list))%Z →
  ∃ c, Schedule.abs_change loss_list e (e - 1) = Ok c
       ∧ change loss_list e = Some c.
Proof.
  intros He.
  destruct (py_index_in_range loss_list e) as (x & Hx & Hx'); [lia |].
  destruct (py_index_in_range loss_list (e - 1)) as (y & Hy & Hy'); [lia |].
  exists (fabs (fsub x y)). unfold Schedule.abs_change, change.
  by rewrite Hx, Hy, Hx', Hy'.
Qed.

(** The decision of [reduce_lr] is the disjunction of the two triggers. *)
Lemma reduce_lr_value (loss_list : list F) (epoch : Z) (lr : F)
    (opt : Schedule.optimizer F) :
  (0 ≤ epoch < Z.of_nat (length loss_list))%Z →
  Schedule.reduce_lr loss_list epoch lr opt
  = Ok (if decays loss_list epoch
        then (fmul lr lit_0_95, with_lr (fmul lr lit_0_95) opt)
        else (lr, opt)).
Proof.
  intros He. unfold Schedule.reduce_lr, decays, no_improvement, sharp_deviation.
  destruct (py_index_in_range loss_list epoch He) as (x & Hx & Hx').
  destruct (decide (epoch = 0)%Z) as [-> | Hne].
  - rewrite decide_False by lia. rewrite bind_Ok.
    rewrite decide_False by lia. rewrite bind_Ok.
    rewrite (bool_decide_eq_false_2 (0 > 0)%Z) by lia.
    rewrite (bool_decide_eq_false_2 (0 >= 5)%Z) by lia.
    reflexivity.
  - rewrite (decide_True (P := (epoch ≠ 0)%Z)) by done.
    rewrite (bool_decide_eq_true_2 (epoch > 0)%Z) by lia.
    destruct (py_index_in_range loss_list (epoch - 1)) as (y & Hy & Hy'); [lia |].
    rewrite Hx, Hy, Hx', Hy', !bind_Ok. cbn [andb].
    destruct (decide (epoch >= 5)%Z) as [H5 | H5].
    + rewrite (bool_decide_eq_true_2 (epoch >= 5)%Z) by done. cbn [andb].
      destruct (abs_change_in_range loss_list (epoch - 1)) as (c1 & Hc1 & Hc1'); [lia |].
      destruct (abs_change_in_range loss_list (epoch - 2)) as (c2 & Hc2 & Hc2'); [lia |].
      destruct (abs_change_in_range loss_list (epoch - 3)) as (c3 & Hc3 & Hc3'); [lia |].
      destruct (abs_change_in_range loss_list (epoch - 4)) as (c4 & Hc4 & Hc4'); [lia |].
      destruct (abs_change_in_range loss_list epoch) as (c & Hc & Hc'); [lia |].
      cbn [for_each].
      replace (epoch - 1 - 1)%Z with (epoch - 2)%Z in Hc1 by lia.
      replace (epoch - 2 - 1)%Z with (epoch - 3)%Z in Hc2 by lia.
      replace (epoch - 3 - 1)%Z with (epoch - 4)%Z in Hc3 by lia.
      replace (epoch - 4 - 1)%Z with (epoch - 5)%Z in Hc4 by lia.
      replace (epoch - 1 - 1)%Z with (epoch - 2)%Z by lia.
      replace (epoch - 2 - 1)%Z with (epoch - 3)%Z by lia.
      replace (epoch - 3 - 1)%Z with (epoch - 4)%Z by lia.
      replace (epoch - 4 - 1)%Z with (epoch - 5)%Z by lia.
      rewrite Hc1. cbn [mbind result_bind Py.bind].
      rewrite Hc2. cbn [mbind result_bind Py.bind].
      rewrite Hc3. cbn [mbind result_bind Py.bind].
      rewrite Hc4. cbn [mbind result_bind Py.bind].
      rewrite Hc. cbn [mbind result_bind Py.bind].
      unfold recent_average. rewrite Hc1', Hc2', Hc3', Hc4', Hc'.
      cbn [mbind option_bind fold_left].
      destruct (fge x y), (flt _ c); reflexivity.
    + rewrite (bool_decide_eq_false_2 (epoch >= 5)%Z) by done.
      rewrite !bind_Ok. cbn [andb]. rewrite orb_false_r.
      destruct (fge x y); reflexivity.
Qed.

(** C1: with a loss history that covers epochs 0..epoch, [reduce_lr]
    multiplies the learning rate by 0.95 and writes it into every
    parameter group exactly when the loss of the epoch does not improve on
    the previous one (epoch > 0 and loss_list[epoch] >= loss_list[epoch-1])
    or, from epoch 5 on, its absolute change exceeds 3 times the average of
    the 4 preceding absolute changes; otherwise the learning rate and the
    optimizer are returned unchanged. *)
Theorem reduce_lr_decays_iff (loss_list : list F) (epoch : Z) (lr : F)
    (opt : Schedule.optimizer F) :
  (0 ≤ epoch < Z.of_nat (length loss_list))%Z →
  ∃ lr' opt',
    Schedule.reduce_lr loss_list epoch lr opt = Ok (lr', opt')
    ∧ ((no_improvement loss_list epoch = true
        ∨ sharp_deviation loss_list epoch = true)
       ∧ lr' = fmul lr lit_0_95
       ∧ length (Schedule.param_groups opt') = length (Schedule.param_groups opt)
       ∧ (∀ k g, Schedule.param_groups opt !! k = Some g →
                 Schedule.param_groups opt' !! k = Some (<["lr" := lr']> g))
       ∨
       (no_improvement loss_list epoch = false
        ∧ sharp_deviation loss_list epoch = false)
       ∧ lr' = lr ∧ opt' = opt).
Proof.
  intros He. rewrite (reduce_lr_value loss_list epoch lr opt He).
  unfold decays.
  destruct (no_improvement loss_list epoch) eqn:Hn;
    destruct (sharp_deviation loss_list epoch) eqn:Hs; cbn [orb].
  4: { eexists _, _. split; [reflexivity |]. right. done. }
  all: eexists _, _; (split; [reflexivity |]); left.
  all: split; [auto |]; split; [reflexivity |].
  all: unfold with_lr; cbn [Schedule.param_groups]; split;
    [by rewrite length_map |].
  all: intros k g Hg; by rewrite list_lookup_fmap, Hg.
Qed.

(** Whatever its arguments, a call that returns has either changed
    nothing or scaled the rate and written it to the groups. *)
Lemma reduce_lr_outcomes (loss_list : list F) (epoch : Z) (lr : F)
    (opt : Schedule.optimizer F) (r : F * Schedule.optimizer F) :
  Schedule.reduce_lr loss_list epoch lr opt = Ok r →
  r = (lr, opt) ∨ r = (fmul lr lit_0_95, with_lr (fmul lr lit_0_95) opt).
Proof.
  unfold Schedule.reduce_lr.
  match goal with
  | |- context [mbind ?f ?c] => destruct c as [b1 | e]; [| done]
  end.
  rewrite bind_Ok.
  match goal with
  | |- context [mbind ?f ?c] => destruct c as [b2 | e]; [| done]
  end.
  rewrite bind_Ok. destruct b2; intros [= <-]; [by right | by left].
Qed.

(** One more epoch of the training loop is one more call of [reduce_lr]
    on the history recorded so far. *)
Lemma train_schedule_next (losses : list F) (e : nat) (lr : F)
    (opt : Schedule.optimizer F) :
  Schedule.train_schedule losses (S e) lr opt
  = Schedule.train_schedule losses e lr opt
    ≫= fun st => Schedule.reduce_lr (take (S e) losses) (Z.of_nat e) st.1 st.2.
Proof.
  unfold Schedule.train_schedule. rewrite seq_S, for_each_app. cbn [Nat.add].
  destruct (for_each (seq 0 e) _ (lr, opt)) as [st | ex]; [| done].
  rewrite !bind_Ok. cbn [for_each].
  by destruct (Schedule.reduce_lr _ _ _ _).
Qed.

End ReduceLr.

(** Epoch 5 of a history that fell by one per epoch and then by five: the
    loss improved, the jump is sharp, and the rate decays. *)
Lemma reduce_lr_decays_iff_witness :
  ∃ lr' opt',
    Schedule.reduce_lr [10; 9; 8; 7; 6; 1]%Q 5 (5 # 1000)%Q
      (Schedule.mk_optimizer [{["lr" := (5 # 1000)%Q]}])
    = Ok (lr', opt')
    ∧ lr' = ((5 # 1000) * (95 # 100))%Q
    ∧ Schedule.param_groups opt' !! 0 = Some (<["lr" := lr']> {["lr" := (5 # 1000)%Q]}).
Proof.
  destruct (reduce_lr_decays_iff [10; 9; 8; 7; 6; 1]%Q 5 (5 # 1000)%Q
              (Schedule.mk_optimizer [{["lr" := (5 # 1000)%Q]}]))
    as (lr' & opt' & Hrun & [(_ & Hlr & _ & Hopt) | ([Hn Hs] & _)]).
  - cbn. lia.
  - exists lr', opt'. split; [exact Hrun |]. split; [exact Hlr |].
    apply Hopt. reflexivity.
  - exfalso. vm_compute in Hs. discriminate Hs.
Defined.

(** ** One decay per call, and a schedule that never rises *)

(** *** Scaling a binary64 value by 0.95

    [lr * 0.95] is the exact product rounded to the nearest double, ties
    to even.  The lemmas follow that rounding through the shifts of
    [SFmul] far enough to bound the rounded product by [lr] for every
    [lr >= 0]; the literal 0.95 is the double [8556839292003942 * 2^-53]. *)

Section Binary64Scaling.

Local Open Scope Z_scope.

Lemma Prim2SF_0_95 :
  Prim2SF (lit_0_95 (F := float)) = S754_finite false 8556839292003942 (-53).
Proof. reflexivity. Qed.

Lemma Prim2SF_zero : Prim2SF 0%float = S754_zero false.
Proof. reflexivity. Qed.

(** A positive number of [d] binary digits lies in [[2^(d-1), 2^d)]. *)
Lemma digits2_pos_bounds (p : positive) :
  2 ^ (Zpos (digits2_pos p) - 1) <= Zpos p < 2 ^ Zpos (digits2_pos p).
Proof.
  induction p as [p IH | p IH |]; cbn [digits2_pos].
  - rewrite Pos2Z.inj_succ.
    replace (Z.succ (Zpos (digits2_pos p)) - 1)
      with (Z.succ (Zpos (digits2_pos p) - 1)) by lia.
    rewrite !Z.pow_succ_r by lia. lia.
  - rewrite Pos2Z.inj_succ.
    replace (Z.succ (Zpos (digits2_pos p)) - 1)
      with (Z.succ (Zpos (digits2_pos p) - 1)) by lia.
    rewrite !Z.pow_succ_r by lia. lia.
  - cbn. lia.
Qed.

Lemma Zdigits2_unique (m k : Z) :
  2 ^ (k - 1) <= m < 2 ^ k -> 0 < m -> 0 < k -> Zdigits2 m = k.
Proof.
  intros [Hlo Hhi] Hm Hk. destruct m as [| p | p]; try lia. cbn [Zdigits2].
  pose proof (digits2_pos_bounds p) as [Dlo Dhi].
  destruct (Z.lt_trichotomy (Zpos (digits2_pos p)) k) as [Hlt | [Heq | Hgt]];
    [| exact Heq |].
  - assert (2 ^ Zpos (digits2_pos p) <= 2 ^ (k - 1))
      by (apply Z.pow_le_mono_r; lia).
    lia.
  - assert (2 ^ k <= 2 ^ (Zpos (digits2_pos p) - 1))
      by (apply Z.pow_le_mono_r; lia).
    lia.
Qed.

Lemma Zdigits2_le (m k : Z) : 0 <= m < 2 ^ k -> 0 <= k -> Zdigits2 m <= k.
Proof.
  intros [Hlo Hhi] Hk. destruct m as [| p | p]; [cbn; lia | | lia].
  cbn [Zdigits2].
  pose proof (digits2_pos_bounds p) as [Dlo Dhi].
  destruct (Z_le_gt_dec (Zpos (digits2_pos p)) k) as [Hle | Hgt]; [exact Hle |].
  assert (2 ^ k <= 2 ^ (Zpos (digits2_pos p) - 1))
    by (apply Z.pow_le_mono_r; lia).
  lia.
Qed.

Lemma Zdigits2_gt (m k : Z) : 0 <= k -> 2 ^ k <= m -> k < Zdigits2 m.
Proof.
  intros Hk Hm. assert (0 < m) by (pose proof (Z.pow_pos_nonneg 2 k); lia).
  destruct m as [| p | p]; try lia. cbn [Zdigits2].
  pose proof (digits2_pos_bounds p) as [_ Dhi].
  apply (Z.pow_lt_mono_r_iff 2); lia.
Qed.

(** One shift to the right halves the mantissa. *)
Lemma shr_1_m (mrs : shr_record) :
  0 <= shr_m mrs ->
  shr_m (shr_1 mrs) = shr_m mrs / 2 /\ 0 <= shr_m (shr_1 mrs).
Proof.
  destruct mrs as [m r s]. cbn [shr_m]. intros Hm.
  destruct m as [| [p | p |] | p]; cbn [shr_1 shr_m].
  - split; [reflexivity | lia].
  - split; [| lia]. apply Z.div_unique with 1; lia.
  - split; [| lia]. apply Z.div_unique with 0; lia.
  - split; [reflexivity | lia].
  - lia.
Qed.

Lemma iter_shr_m (p : positive) : forall mrs : shr_record,
  0 <= shr_m mrs ->
  shr_m (SpecFloat.iter_pos shr_1 p mrs) = shr_m mrs / 2 ^ Zpos p
  /\ 0 <= shr_m (SpecFloat.iter_pos shr_1 p mrs).
Proof.
  induction p as [p IH | p IH |]; intros mrs Hm; cbn [SpecFloat.iter_pos].
  - destruct (shr_1_m mrs Hm) as [E1 P1].
    destruct (IH _ P1) as [E2 P2]. destruct (IH _ P2) as [E3 P3].
    split; [| exact P3]. rewrite E3, E2, E1.
    rewrite !Z.div_div by lia. f_equal.
    replace (Zpos p~1) with (Zpos p + Zpos p + 1) by lia.
    rewrite !Z.pow_add_r, Z.pow_1_r by lia. ring.
  - destruct (IH _ Hm) as [E2 P2]. destruct (IH _ P2) as [E3 P3].
    split; [| exact P3]. rewrite E3, E2.
    rewrite !Z.div_div by lia. f_equal.
    replace (Zpos p~0) with (Zpos p + Zpos p) by lia.
    rewrite !Z.pow_add_r by lia. ring.
  - destruct (shr_1_m mrs Hm) as [E1 P1]. split; [| exact P1].
    rewrite E1. reflexivity.
Qed.

(** Rounding to nearest even keeps the truncated mantissa or adds one. *)
Lemma round_nearest_even_cases (m : Z) (l : location) :
  round_nearest_even m l = m \/ round_nearest_even m l = m + 1.
Proof.
  destruct l as [| []]; cbn [round_nearest_even]; auto.
  destruct (Z.even m); auto.
Qed.

Lemma shr_record_of_loc_m (m : Z) (l : location) :
  shr_m (shr_record_of_loc m l) = m.
Proof. destruct l as [| []]; reflexivity. Qed.

(** [shr_fexp] shifts by the distance to the exponent of the format, or
    not at all. *)
Lemma shr_fexp_spec (m e : Z) (l : location) (mrs : shr_record) (e' : Z) :
  0 <= m ->
  shr_fexp prec emax m e l = (mrs, e') ->
  let n := fexp prec emax (Zdigits2 m + e) - e in
  (0 < n /\ e' = e + n /\ shr_m mrs = m / 2 ^ n)
  \/ (n <= 0 /\ e' = e /\ mrs = shr_record_of_loc m l).
Proof.
  intros Hm. unfold shr_fexp, shr. cbn zeta.
  destruct (fexp prec emax (Zdigits2 m + e) - e) as [| p | p] eqn:Hn.
  - intros [= <- <-]. right. split; [lia | split; reflexivity].
  - intros [= <- <-]. left. split; [lia |]. split; [reflexivity |].
    destruct (iter_shr_m p (shr_record_of_loc m l)) as [E _];
      [now rewrite shr_record_of_loc_m |].
    now rewrite E, shr_record_of_loc_m.
  - intros [= <- <-]. right. split; [lia | split; reflexivity].
Qed.

Lemma bounded_canonical (mx : positive) (ex : Z) :
  bounded prec emax mx ex = true ->
  Z.max (Zpos (digits2_pos mx) + ex - 53) (-1074) = ex /\ ex <= 971.
Proof.
  unfold bounded, canonical_mantissa, fexp, emin, prec, emax.
  intros H. apply andb_true_iff in H as [H1 H2].
  apply Z.eqb_eq in H1. apply Z.leb_le in H2. lia.
Qed.

Lemma SFleb_finite_le (m1 m2 : positive) (e1 e2 : Z) :
  e1 < e2 \/ (e1 = e2 /\ Zpos m1 <= Zpos m2) ->
  SFleb (S754_finite false m1 e1) (S754_finite false m2 e2) = true.
Proof.
  unfold SFleb, SFcompare. intros [Hlt | [-> Hle]].
  - apply Z.compare_lt_iff in Hlt. now rewrite Hlt.
  - rewrite Z.compare_refl.
    change (Pos.compare_cont Eq m1 m2) with (Pos.compare m1 m2).
    destruct (Pos.compare_spec m1 m2); try reflexivity. lia.
Qed.

(** The product of a positive double [mx * 2^ex] with 0.95, rounded, is a
    non-negative double that is at most [mx * 2^ex].  The mantissa of the
    exact product is shifted by 53 bits (the exponent stays and the
    mantissa falls below [mx], so that rounding up reaches [mx] at most)
    or, for a normal number whose product lost a digit, by 52 bits (the
    exponent drops by one, and comes back only when rounding up carries
    into the mantissa [2^52]). *)
Lemma SFmul_0_95_le (mx : positive) (ex : Z) :
  bounded prec emax mx ex = true ->
  SFleb (SFmul prec emax (S754_finite false mx ex)
           (S754_finite false 8556839292003942 (-53)))
        (S754_finite false mx ex) = true
  /\ SFleb (S754_zero false)
           (SFmul prec emax (S754_finite false mx ex)
              (S754_finite false 8556839292003942 (-53)))
     = true.
Proof.
  intros Hb. apply bounded_canonical in Hb as [Hcan Hex].
  cbn [SFmul xorb]. unfold binary_round_aux.
  pose proof (digits2_pos_bounds mx) as [Dlo Dhi].
  set (dx := Zpos (digits2_pos mx)) in *.
  assert (0 < dx) as Hdx by (unfold dx; lia).
  assert (Zpos mx < 2 ^ 53) as Hmx.
  { assert (2 ^ dx <= 2 ^ 53) by (apply Z.pow_le_mono_r; lia). lia. }
  change (2 ^ 53) with 9007199254740992 in Hmx.
  set (m := Zpos (mx * 8556839292003942)).
  assert (m = Zpos mx * 8556839292003942) as Hm by (unfold m; lia).
  destruct (shr_fexp prec emax m (ex + -53) loc_Exact) as [mrs1 e1] eqn:H1.
  apply shr_fexp_spec in H1; [| lia]. cbn zeta in H1.
  unfold fexp, emin, prec, emax in H1.
  set (dm := Zdigits2 m) in *.
  assert (dm <= 106) as Hdm.
  { apply Zdigits2_le; [| lia].
    change (2 ^ 106) with 81129638414606681695789005144064. lia. }
  assert (dx = 53 -> 105 <= dm) as Hdm'.
  { intros Hd. rewrite Hd in Dlo.
    change (2 ^ (53 - 1)) with 4503599627370496 in Dlo.
    assert (104 < dm); [| lia]. apply Zdigits2_gt; [lia |].
    change (2 ^ 104) with 20282409603651670423947251286016. lia. }
  set (r := round_nearest_even (shr_m mrs1) (loc_of_shr_record mrs1)).
  pose proof (round_nearest_even_cases (shr_m mrs1) (loc_of_shr_record mrs1))
    as Hr.
  fold r in Hr.
  destruct (shr_fexp prec emax r e1 loc_Exact) as [mrs2 e2] eqn:H2.
  destruct H1 as [(Hn & -> & Hm1) | (Hn & _ & _)]; [| lia].
  assert (Z.max (dm + (ex + -53) - 53) (3 - 1024 - 53) - (ex + -53) = 53
          \/ (Z.max (dm + (ex + -53) - 53) (3 - 1024 - 53) - (ex + -53) = 52
              /\ dm = 105 /\ dx = 53 /\ -1073 <= ex))
    as [Hn1 | (Hn1 & Hd & Hd' & Hex')] by lia.
  - (* shifted by 53 bits: same exponent, mantissa at most [mx] *)
    rewrite Hn1 in *. change (2 ^ 53) with 9007199254740992 in Hm1.
    assert (0 <= r <= Zpos mx) as Hrb.
    { rewrite Hm in Hm1. Z.div_mod_to_equations. lia. }
    apply shr_fexp_spec in H2; [| lia]. cbn zeta in H2.
    unfold fexp, emin, prec, emax in H2.
    assert (Zdigits2 r <= dx) as Hdr by (apply Zdigits2_le; lia).
    destruct H2 as [(Hn2 & _) | (_ & -> & ->)]; [lia |].
    cbn [shr_record_of_loc shr_m].
    destruct r as [| q | q]; [split; reflexivity | | lia].
    replace (ex + -53 + 53) with ex by lia.
    replace (ex <=? emax - prec) with true
      by (symmetry; apply Z.leb_le; unfold emax, prec; lia).
    split; [| reflexivity].
    apply SFleb_finite_le. right. split; [reflexivity | lia].
  - (* shifted by 52 bits: the exponent drops by one *)
    rewrite Hn1 in *. change (2 ^ 52) with 4503599627370496 in Hm1.
    unfold dm in Hd. unfold m in Hd. cbn [Zdigits2] in Hd.
    pose proof (digits2_pos_bounds (mx * 8556839292003942)) as [Mlo Mhi].
    rewrite Hd in Mlo, Mhi. fold m in Mlo, Mhi.
    change (2 ^ (105 - 1)) with 20282409603651670423947251286016 in Mlo.
    change (2 ^ 105) with 40564819207303340847894502572032 in Mhi.
    rewrite Hd' in Dlo. change (2 ^ (53 - 1)) with 4503599627370496 in Dlo.
    assert (4503599627370496 <= r <= 9007199254740992) as Hrb.
    { Z.div_mod_to_equations. lia. }
    apply shr_fexp_spec in H2; [| lia]. cbn zeta in H2.
    unfold fexp, emin, prec, emax in H2.
    destruct (Z.eq_dec r 9007199254740992) as [Hr2 | Hr2].
    + (* rounding up carried: one more shift, mantissa [2^52] *)
      rewrite Hr2 in *. change (Zdigits2 9007199254740992) with 54 in H2.
      destruct H2 as [(_ & -> & Hm2) | (Hn2 & _)]; [| lia].
      replace (Z.max (54 + (ex + -53 + 52) - 53) (3 - 1024 - 53)
               - (ex + -53 + 52))
        with 1 in * by lia.
      change (9007199254740992 / 2 ^ 1) with 4503599627370496 in Hm2.
      rewrite Hm2.
      replace (ex + -53 + 52 + 1) with ex by lia.
      replace (ex <=? emax - prec) with true
        by (symmetry; apply Z.leb_le; unfold emax, prec; lia).
      split; [| reflexivity].
      apply SFleb_finite_le. right. split; [reflexivity | lia].
    + assert (Zdigits2 r = 53) as Hdr.
      { apply Zdigits2_unique; [| lia | lia].
        change (2 ^ (53 - 1)) with 4503599627370496.
        change (2 ^ 53) with 9007199254740992. lia. }
      rewrite Hdr in H2.
      destruct H2 as [(Hn2 & _) | (_ & -> & ->)]; [lia |].
      cbn [shr_record_of_loc shr_m].
      destruct r as [| q | q]; [lia | | lia].
      replace (ex + -53 + 52 <=? emax - prec) with true
        by (symmetry; apply Z.leb_le; unfold emax, prec; lia).
      split; [| reflexivity]. apply SFleb_finite_le. left. lia.
Qed.

(** [<=] on doubles is transitive. *)
Lemma SFleb_trans (a b c : spec_float) :
  SFleb a b = true -> SFleb b c = true -> SFleb a c = true.
Proof.
  unfold SFleb, SFcompare.
  destruct a as [sa | sa | | sa ma ea], b as [sb | sb | | sb mb eb],
    c as [sc | sc | | sc mc ec];
    try destruct sa; try destruct sb; try destruct sc;
    try reflexivity; try discriminate.
  all: change (Pos.compare_cont Eq ?p ?q) with (Pos.compare p q).
  all: destruct (Z.compare_spec ea eb); try discriminate;
       destruct (Z.compare_spec eb ec); try discriminate;
       destruct (Z.compare_spec ea ec); try reflexivity; try lia.
  all: subst;
       destruct (Pos.compare_spec ma mb); try discriminate;
       destruct (Pos.compare_spec mb mc); try discriminate;
       destruct (Pos.compare_spec ma mc); try reflexivity; try lia.
Qed.

Lemma float_leb_trans (x y z : float) :
  PrimFloat.leb x y = true -> PrimFloat.leb y z = true ->
  PrimFloat.leb x z = true.
Proof. rewrite !FloatAxioms.leb_spec. apply SFleb_trans. Qed.

(** A double that is [>= 0] is not NaN, and so [<=] itself. *)
Lemma float_leb_refl (x : float) :
  PrimFloat.leb 0 x = true -> PrimFloat.leb x x = true.
Proof.
  rewrite !FloatAxioms.leb_spec, Prim2SF_zero. unfold SFleb, SFcompare.
  destruct (Prim2SF x) as [s | s | | s m e]; try destruct s;
    try reflexivity; try discriminate.
  intros _. rewrite Z.compare_refl.
  change (Pos.compare_cont Eq m m) with (Pos.compare m m).
  now rewrite Pos.compare_refl.
Qed.

Lemma float_ltb_leb (x y : float) :
  PrimFloat.ltb x y = true -> PrimFloat.leb x y = true.
Proof.
  rewrite FloatAxioms.ltb_spec, FloatAxioms.leb_spec. unfold SFltb, SFleb.
  now destruct (SFcompare (Prim2SF x) (Prim2SF y)) as [[] |].
Qed.

(** For every double [x >= 0] (zero, positive, subnormal or infinite), the
    double [x * 0.95] is [>= 0] and [<= x]. *)
Lemma mul_0_95_le (x : float) :
  PrimFloat.leb 0 x = true ->
  PrimFloat.leb (fmul x lit_0_95) x = true
  /\ PrimFloat.leb 0 (fmul x lit_0_95) = true.
Proof.
  cbn [fmul binary64].
  rewrite !FloatAxioms.leb_spec, FloatAxioms.mul_spec, Prim2SF_zero, Prim2SF_0_95.
  pose proof (Prim2SF_valid x) as Hv.
  destruct (Prim2SF x) as [s | s | | s m e]; cbn [SF64mul SFmul xorb].
  - intros _. destruct s; split; reflexivity.
  - destruct s; [discriminate |]. intros _. split; reflexivity.
  - discriminate.
  - destruct s; [discriminate |]. intros _. apply (SFmul_0_95_le m e Hv).
Qed.

End Binary64Scaling.

(** *** The schedule on binary64 *)

Section Monotone.

Import ScheduleSpec.

Lemma reduce_lr_bounds (loss_list : list float) (epoch : Z) (lr lr' : float)
    (opt opt' : Schedule.optimizer float) :
  Schedule.reduce_lr loss_list epoch lr opt = Ok (lr', opt') →
  (lr' = lr ∨ lr' = fmul lr lit_0_95)
  ∧ (PrimFloat.leb 0 lr = true →
     PrimFloat.leb lr' lr = true ∧ PrimFloat.leb 0 lr' = true).
Proof.
  intros Hrun. apply reduce_lr_outcomes in Hrun as [[= -> ->] | [= -> ->]].
  - split; [by left |]. intros Hlr. split; [by apply float_leb_refl | done].
  - split; [by right |]. apply mul_0_95_le.
Qed.

Lemma reduce_lr_returns (loss_list : list float) (epoch : Z) (lr : float)
    (opt : Schedule.optimizer float) :
  (0 ≤ epoch < Z.of_nat (length loss_list))%Z →
  ∃ lr' opt',
    Schedule.reduce_lr loss_list epoch lr opt = Ok (lr', opt')
    ∧ (decays loss_list epoch = true → lr' = fmul lr lit_0_95).
Proof.
  intros He. rewrite (reduce_lr_value loss_list epoch lr opt He).
  destruct (decays loss_list epoch); eexists _, _; (split; [reflexivity |]);
    done.
Qed.

Lemma train_schedule_bounds (losses : list float) (e : nat) (lr : float)
    (opt : Schedule.optimizer float) :
  e ≤ length losses → PrimFloat.leb 0 lr = true →
  ∃ lr_e opt_e,
    Schedule.train_schedule losses e lr opt = Ok (lr_e, opt_e)
    ∧ PrimFloat.leb 0 lr_e = true ∧ PrimFloat.leb lr_e lr = true.
Proof.
  intros He Hlr. induction e as [| e IH].
  - exists lr, opt. split; [done |]. split; [done | by apply float_leb_refl].
  - destruct IH as (a & o & Hrun & Hpos & Hle); [lia |].
    rewrite train_schedule_next, Hrun, bind_Ok. cbn [fst snd].
    destruct (reduce_lr_returns (take (S e) losses) (Z.of_nat e) a o)
      as (b & o' & Hstep & _).
    { rewrite length_take. lia. }
    destruct (reduce_lr_bounds _ _ _ _ _ _ Hstep) as [_ Hb].
    destruct (Hb Hpos) as [Hba Hb0].
    exists b, o'. split; [exact Hstep |]. split; [exact Hb0 |].
    by apply (float_leb_trans b a lr).
Qed.

(** C9, on binary64, the arithmetic of the script.  Whatever the history
    and the epoch, a call of [reduce_lr] that returns gives back either
    exactly [lr] or exactly the double [lr * 0.95], and a rate [lr >= 0]
    is not exceeded by the rate returned.  On a history that covers the
    epoch the call returns, and when both triggers hold the factor is
    applied once.  Along the training loop, an initial rate [lr >= 0]
    (so every [lr > 0]) gives after every epoch a rate that is at most the
    rate after the epoch before and at most the initial one. *)
Theorem reduce_lr_at_most_once (loss_list : list float) (epoch : Z)
    (lr : float) (opt : Schedule.optimizer float) :
  (∀ lr' opt',
     Schedule.reduce_lr loss_list epoch lr opt = Ok (lr', opt') →
     (lr' = lr ∨ lr' = fmul lr lit_0_95)
     ∧ (PrimFloat.leb 0 lr = true → PrimFloat.leb lr' lr = true))
  ∧ ((0 ≤ epoch < Z.of_nat (length loss_list))%Z →
     ∃ lr' opt',
       Schedule.reduce_lr loss_list epoch lr opt = Ok (lr', opt')
       ∧ (no_improvement loss_list epoch = true →
          sharp_deviation loss_list epoch = true →
          lr' = fmul lr lit_0_95))
  ∧ (PrimFloat.leb 0 lr = true →
     ∀ e, S e ≤ length loss_list →
       ∃ lr_e opt_e lr_next opt_next,
         Schedule.train_schedule loss_list e lr opt = Ok (lr_e, opt_e)
         ∧ Schedule.train_schedule loss_list (S e) lr opt
           = Ok (lr_next, opt_next)
         ∧ PrimFloat.leb lr_next lr_e = true
         ∧ PrimFloat.leb lr_e lr = true
         ∧ PrimFloat.leb 0 lr_next = true).
Proof.
  split; [| split].
  - intros lr' opt' Hrun.
    destruct (reduce_lr_bounds _ _ _ _ _ _ Hrun) as [Hcase Hle].
    split; [exact Hcase |]. intros Hlr. by destruct (Hle Hlr).
  - intros He.
    destruct (reduce_lr_returns loss_list epoch lr opt He)
      as (lr' & opt' & Hrun & Hdec).
    exists lr', opt'. split; [exact Hrun |].
    intros Hn _. apply Hdec. unfold decays. by rewrite Hn.
  - intros Hlr e Hlen.
    destruct (train_schedule_bounds loss_list e lr opt)
      as (a & o & Hrun & Hpos & Hle); [lia | done |].
    destruct (reduce_lr_returns (take (S e) loss_list) (Z.of_nat e) a o)
      as (b & o' & Hstep & _).
    { rewrite length_take. lia. }
    destruct (reduce_lr_bounds _ _ _ _ _ _ Hstep) as [_ Hb].
    destruct (Hb Hpos) as [Hba Hb0].
    exists a, o, b, o'. split; [exact Hrun |].
    split; [by rewrite train_schedule_next, Hrun, bind_Ok |].
    done.
Qed.

End Monotone.

(** Epoch 5 of a history that rose by one per epoch and then by five, at
    the rate 0.005: both triggers hold, the rate is scaled by 0.95 once,
    to the double 0.00475, and the epoch after keeps to the order. *)
Lemma reduce_lr_at_most_once_witness :
  ScheduleSpec.no_improvement [1; 2; 3; 4; 5; 10]%float 5 = true
  ∧ ScheduleSpec.sharp_deviation [1; 2; 3; 4; 5; 10]%float 5 = true
  ∧ ∃ lr' opt',
      Schedule.reduce_lr [1; 2; 3; 4; 5; 10]%float 5 0x1.47ae147ae147bp-8%float
        (Schedule.mk_optimizer [{["lr" := 0x1.47ae147ae147bp-8%float]}])
      = Ok (lr', opt')
      ∧ lr' = 0x1.374bc6a7ef9dbp-8%float
      ∧ PrimFloat.leb lr' 0x1.47ae147ae147bp-8 = true.
Proof.
  split; [reflexivity |]. split; [reflexivity |].
  destruct (reduce_lr_at_most_once [1; 2; 3; 4; 5; 10]%float 5
              0x1.47ae147ae147bp-8%float
              (Schedule.mk_optimizer [{["lr" := 0x1.47ae147ae147bp-8%float]}]))
    as (Hany & Hret & _).
  destruct Hret as (lr' & opt' & Hrun & Hboth); [cbn; lia |].
  destruct (Hany lr' opt' Hrun) as [_ Hle].
  exists lr', opt'. split; [exact Hrun |].
  split; [rewrite Hboth by reflexivity; reflexivity |].
  apply Hle. reflexivity.
Defined.

(** C9, counterexample: a negative rate is exceeded by the rate returned.
    At epoch 1 of the history 1.0, 2.0 the loss did not improve, and the
    rate -1.0 is scaled to the double nearest to -0.95, which is greater
    than -1.0. *)
Lemma reduce_lr_negative_rate :
  Schedule.reduce_lr [1; 2]%float 1 (-1)%float (Schedule.mk_optimizer [])
  = Ok ((-0x1.e666666666666p-1)%float, Schedule.mk_optimizer [])
  ∧ PrimFloat.ltb (-1) (-0x1.e666666666666p-1) = true
  ∧ PrimFloat.leb (-0x1.e666666666666p-1) (-1) = false.
Proof. vm_compute. repeat split; reflexivity. Qed.

(** ** Weight transfer *)

Section WeightTransfer.

Import TransferSpec.

Context {F : Type} `{Float64 F} `{Activation F}.

(** The argument of [load_model] has no influence on its result. *)
Lemma load_model_ignores_argument (g : option (gmap string (tensor F)))
    (self : Transfer.t F) (d d' : gmap string (tensor F)) :
  Transfer.load_model g self d = Transfer.load_model g self d'.
Proof. reflexivity. Qed.

Lemma load_parameter_keeps (d : gmap string (tensor F)) (name : string)
    (p p' : Transfer.Param F) :
  Transfer.load_parameter d name p = Ok p' →
  Transfer.requires_grad p' = Transfer.requires_grad p
  ∧ tshape (Transfer.data p') = tshape (Transfer.data p)
  ∧ d !! name = Some (Transfer.data p').
Proof.
  unfold Transfer.load_parameter. destruct (d !! name) as [v |]; [| done].
  case_decide as Hs; [| done]. intros [= <-]. done.
Qed.

Lemma load_linear_keeps (d : gmap string (tensor F)) (name : string)
    (l l' : Transfer.Linear F) :
  Transfer.load_linear d name l = Ok l' →
  (∀ b, all_requires_grad b l → all_requires_grad b l')
  ∧ (∀ inn out, linear_shape inn out l → linear_shape inn out l').
Proof.
  unfold Transfer.load_linear.
  destruct (Transfer.load_parameter d (name +:+ ".weight") (Transfer.weight l))
    as [w |] eqn:Hw; [| done].
  destruct (Transfer.load_parameter d (name +:+ ".bias") (Transfer.bias l))
    as [b |] eqn:Hb; [| done].
  rewrite !bind_Ok. intros [= <-].
  apply load_parameter_keeps in Hw as (Hw1 & Hw2 & _).
  apply load_parameter_keeps in Hb as (Hb1 & Hb2 & _).
  unfold all_requires_grad, linear_shape. cbn [Transfer.weight Transfer.bias].
  rewrite Hw1, Hw2, Hb1, Hb2. done.
Qed.

Lemma load_layers_keeps (d : gmap string (tensor F)) (i : nat)
    (ls ls' : list (Transfer.Linear F)) :
  Transfer.load_layers d i ls = Ok ls' →
  length ls' = length ls
  ∧ (∀ b, Forall (all_requires_grad b) ls → Forall (all_requires_grad b) ls')
  ∧ (∀ inn out, Forall (linear_shape inn out) ls → Forall (linear_shape inn out) ls').
Proof.
  revert i ls'. induction ls as [| l ls IH]; intros i ls'.
  - intros [= <-]. done.
  - cbn [Transfer.load_layers].
    destruct (Transfer.load_linear d ("W." +:+ pretty i) l) as [l' |] eqn:Hl; [| done].
    rewrite bind_Ok.
    destruct (Transfer.load_layers d (S i) ls) as [ls'' |] eqn:Hls; [| done].
    rewrite bind_Ok. intros [= <-].
    apply load_linear_keeps in Hl as [Hl1 Hl2].
    apply IH in Hls as (Hlen & Hg & Hs).
    split; [cbn; by rewrite Hlen |].
    split.
    + intros b Hall. apply Forall_cons in Hall as [Hb Hall].
      constructor; [by apply Hl1 | by apply Hg].
    + intros inn out Hall. apply Forall_cons in Hall as [Hb Hall].
      constructor; [by apply Hl2 | by apply Hs].
Qed.

Lemma load_state_dict_keeps (self m : Transfer.t F) (d : gmap string (tensor F))
    (b : bool) (nc d_out nl : nat) :
  Transfer.load_state_dict self d = Ok m →
  (model_shape nc d_out nl self → model_shape nc d_out nl m)
  ∧ length (Transfer.W m) = length (Transfer.W self)
  ∧ (Forall (all_requires_grad b) (Transfer.W self) →
     Forall (all_requires_grad b) (Transfer.W m))
  ∧ (all_requires_grad b (Transfer.embedding self) →
     all_requires_grad b (Transfer.embedding m))
  ∧ (all_requires_grad b (Transfer.fc self) → all_requires_grad b (Transfer.fc m))
  ∧ (all_requires_grad b (Transfer.linear1 self) →
     all_requires_grad b (Transfer.linear1 m))
  ∧ (all_requires_grad b (Transfer.linear2 self) →
     all_requires_grad b (Transfer.linear2 m)).
Proof.
  unfold Transfer.load_state_dict. case_bool_decide; [| done].
  destruct (Transfer.load_linear d "embedding" _) as [e |] eqn:He; [| done].
  rewrite bind_Ok.
  destruct (Transfer.load_layers d 0 _) as [w |] eqn:Hw; [| done].
  rewrite bind_Ok.
  destruct (Transfer.load_linear d "fc" _) as [f |] eqn:Hf; [| done].
  rewrite bind_Ok.
  destruct (Transfer.load_linear d "linear1" _) as [l1 |] eqn:Hl1; [| done].
  rewrite bind_Ok.
  destruct (Transfer.load_linear d "linear2" _) as [l2 |] eqn:Hl2; [| done].
  rewrite bind_Ok. intros [= <-].
  apply load_linear_keeps in He as [He1 He2], Hf as [Hf1 Hf2],
    Hl1 as [Hl11 Hl12], Hl2 as [Hl21 Hl22].
  apply load_layers_keeps in Hw as (Hlen & Hg & Hs).
  cbn [Transfer.embedding Transfer.W Transfer.fc Transfer.linear1 Transfer.linear2].
  split.
  { intros (S1 & S2 & S3 & S4 & S5 & S6). unfold model_shape.
    cbn [Transfer.embedding Transfer.W Transfer.fc Transfer.linear1 Transfer.linear2].
    split; [by apply He2 |]. split; [by apply Hs |]. split; [congruence |].
    split; [by apply Hf2 |]. split; [by apply Hl12 | by apply Hl22]. }
  split; [done |]. split; [apply Hg |]. split; [apply He1 |].
  split; [apply Hf1 |]. split; [apply Hl11 | apply Hl21].
Qed.

Lemma load_model_runs_load_state_dict (g : option (gmap string (tensor F)))
    (self m : Transfer.t F) (d : gmap string (tensor F)) :
  Transfer.load_model g self d = Ok m →
  ∃ load_dict, Transfer.load_state_dict self load_dict = Ok m.
Proof.
  unfold Transfer.load_model.
  destruct (for_each (Transfer.state_dict self) _ ∅) as [load_dict |]; [| done].
  rewrite bind_Ok. by exists load_dict.
Qed.

Lemma new_linear_spec (fresh : string → list nat → F) (name : string)
    (inn out : nat) :
  linear_shape inn out (Transfer.new_linear fresh name inn out)
  ∧ all_requires_grad true (Transfer.new_linear fresh name inn out).
Proof. done. Qed.

Lemma init_spec (fresh : string → list nat → F) (nc d_out nl : nat) :
  let m := Transfer.__init__ fresh nc d_out nl in
  model_shape nc d_out nl m
  ∧ Forall (all_requires_grad true) (Transfer.W m)
  ∧ all_requires_grad true (Transfer.embedding m)
  ∧ all_requires_grad true (Transfer.fc m)
  ∧ all_requires_grad true (Transfer.linear1 m)
  ∧ all_requires_grad true (Transfer.linear2 m).
Proof.
  cbn zeta. unfold model_shape, Transfer.__init__.
  cbn [Transfer.embedding Transfer.W Transfer.fc Transfer.linear1 Transfer.linear2].
  rewrite length_map, length_seq.
  repeat split; try done.
  all: apply Forall_fmap, Forall_forall; intros i _; apply new_linear_spec.
Qed.

Lemma state_dict_layers_frozen (name : nat → string)
    (ls : list (Transfer.Linear F)) :
  map (fun kp : string * Transfer.Param F => (kp.1, Transfer.data kp.2))
    (concat (imap (fun i l => Transfer.linear_parameters (name i) l)
               (map (fun l => Transfer.mk_linear
                                (Transfer.no_grad (Transfer.weight l))
                                (Transfer.no_grad (Transfer.bias l))) ls)))
  = map (fun kp : string * Transfer.Param F => (kp.1, Transfer.data kp.2))
      (concat (imap (fun i l => Transfer.linear_parameters (name i) l) ls)).
Proof.
  revert name. induction ls as [| l ls IH]; intros name; [done |].
  cbn [map]. rewrite !imap_cons. cbn [concat]. rewrite !map_app.
  f_equal. apply (IH (name ∘ S)).
Qed.

Lemma freeze_spec (m : Transfer.t F) :
  Forall (all_requires_grad false) (Transfer.W (Transfer.freeze m))
  ∧ length (Transfer.W (Transfer.freeze m)) = length (Transfer.W m)
  ∧ Transfer.embedding (Transfer.freeze m) = Transfer.embedding m
  ∧ Transfer.fc (Transfer.freeze m) = Transfer.fc m
  ∧ Transfer.linear1 (Transfer.freeze m) = Transfer.linear1 m
  ∧ Transfer.linear2 (Transfer.freeze m) = Transfer.linear2 m
  ∧ Transfer.state_dict (Transfer.freeze m) = Transfer.state_dict m.
Proof.
  unfold Transfer.freeze.
  cbn [Transfer.embedding Transfer.W Transfer.fc Transfer.linear1 Transfer.linear2].
  split.
  { apply Forall_fmap, Forall_forall. intros l _. done. }
  split; [by rewrite length_map |].
  do 4 (split; [done |]).
  unfold Transfer.state_dict, Transfer.named_parameters.
  cbn [Transfer.embedding Transfer.W Transfer.fc Transfer.linear1 Transfer.linear2].
  rewrite !map_app. f_equal. f_equal. apply state_dict_layers_frozen.
Qed.

(** C6 (as amended): after [load_model] and [freeze] on a fresh model, the
    parameters of the convolution stack [W] have [requires_grad] false,
    and those of [embedding], [fc], [linear1] and [linear2] keep
    [requires_grad] true, whether the checkpoint held them or not; [freeze]
    changes no value of the state dictionary and leaves the parameters
    outside [W] as they are. *)
Theorem freeze_disables_conv_stack (fresh : string → list nat → F)
    (n_channel d_out n_conv_layer : nat)
    (pretrain_dict : option (gmap string (tensor F)))
    (arg : gmap string (tensor F)) (m : Transfer.t F) :
  Transfer.load_model pretrain_dict
    (Transfer.__init__ fresh n_channel d_out n_conv_layer) arg = Ok m →
  Forall (all_requires_grad false) (Transfer.W (Transfer.freeze m))
  ∧ length (Transfer.W (Transfer.freeze m)) = n_conv_layer
  ∧ all_requires_grad true (Transfer.embedding (Transfer.freeze m))
  ∧ all_requires_grad true (Transfer.fc (Transfer.freeze m))
  ∧ all_requires_grad true (Transfer.linear1 (Transfer.freeze m))
  ∧ all_requires_grad true (Transfer.linear2 (Transfer.freeze m))
  ∧ Transfer.state_dict (Transfer.freeze m) = Transfer.state_dict m
  ∧ Transfer.embedding (Transfer.freeze m) = Transfer.embedding m
  ∧ Transfer.fc (Transfer.freeze m) = Transfer.fc m
  ∧ Transfer.linear1 (Transfer.freeze m) = Transfer.linear1 m
  ∧ Transfer.linear2 (Transfer.freeze m) = Transfer.linear2 m.
Proof.
  intros Hload.
  apply load_model_runs_load_state_dict in Hload as [load_dict Hload].
  destruct (init_spec fresh n_channel d_out n_conv_layer)
    as ((_ & _ & Hlen & _) & _ & Ge & Gf & G1 & G2).
  apply (load_state_dict_keeps _ _ _ true n_channel d_out n_conv_layer) in Hload
    as (_ & Hlen' & _ & He & Hf & H1' & H2').
  destruct (freeze_spec m) as (Fw & Flen & -> & -> & -> & -> & Fsd).
  split; [exact Fw |]. split; [congruence |].
  split; [by apply He |]. split; [by apply Hf |].
  split; [by apply H1' |]. split; [by apply H2' |].
  done.
Qed.

End WeightTransfer.

(** The fresh two-channel model, loaded from the checkpoint and frozen. *)
Lemma freeze_disables_conv_stack_witness :
  ∃ m,
    Transfer.load_model (Some Sample.checkpoint) Sample.fresh_model Sample.checkpoint
    = Ok m
    ∧ Forall (TransferSpec.all_requires_grad false) (Transfer.W (Transfer.freeze m))
    ∧ TransferSpec.all_requires_grad true (Transfer.linear2 (Transfer.freeze m)).
Proof.
  destruct (Transfer.load_model (Some Sample.checkpoint) Sample.fresh_model
              Sample.checkpoint) as [m |] eqn:Hload; [| vm_compute in Hload; discriminate Hload].
  exists m. split; [reflexivity |].
  destruct (freeze_disables_conv_stack (fun _ _ => (1 # 8)%Q) 2 1 1
              (Some Sample.checkpoint) Sample.checkpoint m Hload)
    as (Hw & _ & _ & _ & _ & H2 & _).
  done.
Defined.

(** C6, counterexample: the checkpoint holds [embedding.weight], the load
    transfers it, and after [freeze] it still requires a gradient. *)
Lemma freeze_leaves_transferred_embedding :
  ∃ m,
    Transfer.load_model (Some Sample.checkpoint) Sample.fresh_model Sample.checkpoint
    = Ok m
    ∧ Sample.checkpoint !! "embedding.weight"
      = Some (Transfer.data (Transfer.weight (Transfer.embedding m)))
    ∧ Transfer.requires_grad
        (Transfer.weight (Transfer.embedding (Transfer.freeze m))) = true.
Proof.
  eexists. split; [vm_compute; reflexivity |]. split; reflexivity.
Qed.

(** C5, at the failing input: called with a dictionary that holds only
    [linear2.bias] while the module-level [pretrain_dict] is the
    checkpoint, [load_model] leaves [linear2.bias] at its fresh value and
    takes [fc.bias] from the checkpoint. *)
Theorem load_model_reads_module_global :
  ∃ m,
    Transfer.load_model (Some Sample.checkpoint) Sample.fresh_model Sample.other_dict
    = Ok m
    ∧ Sample.other_dict !! "linear2.bias" = Some (Sample.constant [1] 7%Q)
    ∧ Transfer.data (Transfer.bias (Transfer.linear2 m))
      = Transfer.data (Transfer.bias (Transfer.linear2 Sample.fresh_model))
    ∧ tat (Transfer.data (Transfer.bias (Transfer.linear2 m))) [0] = (1 # 8)%Q
    ∧ Sample.other_dict !! "fc.bias" = None
    ∧ Transfer.data (Transfer.bias (Transfer.fc m)) = Sample.constant [1024] 3%Q
    ∧ Transfer.load_model None Sample.fresh_model Sample.other_dict = Raise NameError.
Proof.
  eexists. split; [vm_compute; reflexivity |]. repeat split.
Qed.

(** ** The forward pass *)

Section Forward.

Import TransferSpec.

Context {F : Type} `{Float64 F} `{Activation F}.

Lemma sum_upto_ext (n : nat) (f g : nat → F) :
  (∀ k, f k = g k) → sum_upto n f = sum_upto n g.
Proof.
  intros Hfg. unfold sum_upto. generalize (of_int 0). generalize (seq 0 n).
  induction l as [| k l IH]; intros acc; [done |].
  cbn [fold_left]. rewrite Hfg. apply IH.
Qed.

Lemma apply_holds3 (l : Transfer.Linear F) (inn out : nat) (t : tensor F)
    (B N : nat) (h : nat → nat → nat → F) :
  linear_shape inn out l → holds3 t B N inn h →
  ∃ t', Transfer.apply l t = Ok t'
        ∧ holds3 t' B N out (fun b i => dense l inn (h b i)).
Proof.
  intros [Hw Hb] [Hs Ht]. unfold Transfer.apply, linear. rewrite Hw, Hb, Hs.
  cbn [last]. rewrite !bool_decide_eq_true_2 by done. cbn [andb].
  eexists. split; [reflexivity |]. split; [reflexivity |].
  intros b i c Hlt. cbn [tat removelast app List.last]. unfold dense.
  f_equal. apply sum_upto_ext. intros k. by rewrite Ht.
Qed.

Lemma apply_holds2 (l : Transfer.Linear F) (inn out : nat) (t : tensor F)
    (B : nat) (v : nat → nat → F) :
  linear_shape inn out l → holds2 t B inn v →
  ∃ t', Transfer.apply l t = Ok t'
        ∧ holds2 t' B out (fun b => dense l inn (v b)).
Proof.
  intros [Hw Hb] [Hs Ht]. unfold Transfer.apply, linear. rewrite Hw, Hb, Hs.
  cbn [last]. rewrite !bool_decide_eq_true_2 by done. cbn [andb].
  eexists. split; [reflexivity |]. split; [reflexivity |].
  intros b c Hlt. cbn [tat removelast app List.last]. unfold dense.
  f_equal. apply sum_upto_ext. intros k. by rewrite Ht.
Qed.

Lemma matmul_holds3 (A t : tensor F) (B N C : nat)
    (a h : nat → nat → nat → F) :
  holds3 A B N N a → holds3 t B N C h →
  ∃ t', matmul A t = Ok t'
        ∧ holds3 t' B N C (fun b => aggregate N (a b) (h b)).
Proof.
  intros [HAs HA] [Hs Ht]. unfold matmul. rewrite HAs, Hs.
  rewrite !bool_decide_eq_true_2 by done. cbn [andb orb].
  eexists. split; [reflexivity |]. split.
  - cbn [tshape]. by case_decide.
  - intros b i c Hlt. cbn [tat]. unfold aggregate.
    apply sum_upto_ext. intros k.
    by rewrite (bidx_lt B b Hlt), HA, Ht.
Qed.

Lemma tmap_holds3 (f : F → F) (t : tensor F) (B N C : nat)
    (h : nat → nat → nat → F) :
  holds3 t B N C h → holds3 (tmap f t) B N C (fun b i c => f (h b i c)).
Proof.
  intros [Hs Ht]. split; [done |]. intros b i c Hlt. cbn [tmap tat]. by rewrite Ht.
Qed.

Lemma tmap_holds2 (f : F → F) (t : tensor F) (B C : nat) (v : nat → nat → F) :
  holds2 t B C v → holds2 (tmap f t) B C (fun b c => f (v b c)).
Proof.
  intros [Hs Ht]. split; [done |]. intros b c Hlt. cbn [tmap tat]. by rewrite Ht.
Qed.

Lemma conv_holds3 (A t : tensor F) (l : Transfer.Linear F) (B N nc : nat)
    (a h : nat → nat → nat → F) :
  linear_shape nc nc l → holds3 A B N N a → holds3 t B N nc h →
  ∃ t', Transfer.conv A t l = Ok t'
        ∧ holds3 t' B N nc (fun b => conv_layer N nc (a b) (h b) l).
Proof.
  intros Hl HA Ht. unfold Transfer.conv.
  destruct (apply_holds3 l nc nc t B N h Hl Ht) as (t1 & -> & Ht1).
  rewrite bind_Ok.
  destruct (matmul_holds3 A t1 B N nc a _ HA Ht1) as (t2 & -> & Ht2).
  rewrite bind_Ok. eexists. split; [reflexivity |].
  exact (tmap_holds3 relu t2 B N nc _ Ht2).
Qed.

Lemma conv_stack_holds3 (A : tensor F) (ls : list (Transfer.Linear F))
    (B N nc : nat) (a : nat → nat → nat → F) :
  Forall (linear_shape nc nc) ls → holds3 A B N N a →
  ∀ (t : tensor F) (h : nat → nat → nat → F),
    holds3 t B N nc h →
    ∃ t', for_each ls (Transfer.conv A) t = Ok t'
          ∧ holds3 t' B N nc (fun b => fold_left (conv_layer N nc (a b)) ls (h b)).
Proof.
  intros Hls HA. induction Hls as [| l ls Hl _ IH]; intros t h Ht.
  - exists t. split; [done |]. exact Ht.
  - rewrite for_each_cons.
    destruct (conv_holds3 A t l B N nc a h Hl HA Ht) as (t1 & -> & Ht1).
    rewrite bind_Ok. exact (IH t1 _ Ht1).
Qed.

Lemma mean1_holds (t : tensor F) (B N C : nat) (h : nat → nat → nat → F) :
  holds3 t B N C h →
  ∃ t', mean1 t = Ok t' ∧ holds2 t' B C (fun b => pooled N (h b)).
Proof.
  intros [Hs Ht]. unfold mean1. rewrite Hs.
  eexists. split; [reflexivity |]. split; [reflexivity |].
  intros b c Hlt. cbn [tat]. unfold pooled. f_equal.
  apply sum_upto_ext. intros i. by rewrite Ht.
Qed.

(** C7: on a batch [x] of [B] feature matrices and a batch [A] of [B]
    adjacency matrices, [forward] succeeds and returns [d_out] values per
    molecule (one scalar for [d_out = 1]); the values of molecule [b] are
    obtained, in this order, by the embedding layer, then for each of the
    [n_conv_layer] layers of [W] a per-atom linear transform, the product
    with the adjacency and the ReLU, then the mean over the atoms, then
    fc, sigmoid, linear1, ReLU and linear2. *)
Theorem forward_pipeline (m : Transfer.t F) (n_channel d_out n_conv_layer : nat)
    (x A : tensor F) (B N : nat) :
  model_shape n_channel d_out n_conv_layer m →
  tshape x = [B; N; 16] →
  tshape A = [B; N; N] →
  ∃ out,
    Transfer.forward m x A = Ok out
    ∧ tshape out = [B; d_out]
    ∧ length (Transfer.W m) = n_conv_layer
    ∧ ∀ b j, b < B →
        tat out [b; j]
        = predict m N n_channel
            (fun i k => tat x [b; i; k]) (fun i k => tat A [b; i; k]) j.
Proof.
  intros (Se & Sw & Slen & Sf & S1 & S2) Hx HA.
  assert (holds3 x B N 16 (fun b i k => tat x [b; i; k])) as Hx3 by done.
  assert (holds3 A B N N (fun b i k => tat A [b; i; k])) as HA3 by done.
  unfold Transfer.forward.
  destruct (apply_holds3 _ 16 n_channel x B N _ Se Hx3) as (t0 & -> & Ht0).
  rewrite bind_Ok.
  destruct (conv_stack_holds3 A (Transfer.W m) B N n_channel _ Sw HA3 t0 _ Ht0)
    as (t1 & -> & Ht1).
  rewrite bind_Ok.
  destruct (mean1_holds t1 B N n_channel _ Ht1) as (t2 & -> & Ht2).
  rewrite bind_Ok.
  destruct (apply_holds2 _ n_channel 1024 t2 B _ Sf Ht2) as (t3 & -> & Ht3).
  rewrite bind_Ok.
  pose proof (tmap_holds2 sigmoid t3 B 1024 _ Ht3) as Ht4.
  destruct (apply_holds2 _ 1024 1024 _ B _ S1 Ht4) as (t5 & -> & Ht5).
  rewrite bind_Ok.
  pose proof (tmap_holds2 relu t5 B 1024 _ Ht5) as Ht6.
  destruct (apply_holds2 _ 1024 d_out _ B _ S2 Ht6) as (t7 & -> & [Hs7 Ht7]).
  rewrite bind_Ok.
  exists t7. split; [done |]. split; [done |]. split; [done |].
  intros b j Hb. by rewrite Ht7.
Qed.

End Forward.

(** A batch of one molecule with two atom slots through the fresh
    two-channel model: one scalar comes out. *)
Lemma forward_pipeline_witness :
  ∃ out,
    Transfer.forward Sample.fresh_model
      (Sample.constant [1; 2; 16] 1%Q) (Sample.constant [1; 2; 2] 1%Q) = Ok out
    ∧ tshape out = [1; 1].
Proof.
  destruct (forward_pipeline Sample.fresh_model 2 1 1
              (Sample.constant [1; 2; 16] 1%Q) (Sample.constant [1; 2; 2] 1%Q) 1 2)
    as (out & Hrun & Hshape & _).
  - apply (init_spec (fun _ _ => (1 # 8)%Q) 2 1 1).
  - reflexivity.
  - reflexivity.
  - by exists out.
Defined.

(** ** Worked examples *)

(** Ethane in a data set of width three: two carbon rows with three
    hydrogens each, and the self-looped bond block. *)
Example ethane_tensors :
  DataSet.__init__ Sample.toy_smiles ["CC"] [2%Q] 3
  = Ok (DataSet.mk ["CC"] [2%Q] 3
          [Np.mk_ndarray 3 16
             [[1; 0; 0; 0; 0; 0; 1; 0; 0; 0; 0; 0; 1; 0; 0; 0];
              [1; 0; 0; 0; 0; 0; 1; 0; 0; 0; 0; 0; 1; 0; 0; 0];
              [0; 0; 0; 0; 0; 0; 0; 0; 0; 0; 0; 0; 0; 0; 0; 0]]%Z]
          [Np.mk_ndarray 3 3 [[1; 1; 0]; [1; 1; 0]; [0; 0; 0]]%Z]).
Proof. reflexivity. Qed.

(** Ethane does not fit a data set of width one. *)
Example ethane_too_large :
  DataSet.__init__ Sample.toy_smiles ["C"; "CC"] [2%Q; 2%Q] 1 = Raise ValueError.
Proof. reflexivity. Qed.

(** An empty CSV file has no header to drop. *)
Example load_data_empty_file :
  Loader.load_data Sample.toy_smiles Sample.toy_float [] 64 = Raise StopIteration.
Proof. reflexivity. Qed.

(** A row with a single field has no SMILES column. *)
Example load_data_short_row :
  Loader.load_data Sample.toy_smiles Sample.toy_float [["smiles"]; ["C"]] 64
  = Raise IndexError.
Proof. reflexivity. Qed.

(** At epoch 0 nothing is compared and the rate is kept. *)
Example reduce_lr_first_epoch :
  Schedule.reduce_lr [3%Q] 0 (5 # 1000)%Q (Schedule.mk_optimizer [])
  = Ok ((5 # 1000)%Q, Schedule.mk_optimizer []).
Proof. reflexivity. Qed.

(** An improving loss before epoch 5 keeps the rate. *)
Example reduce_lr_improving :
  Schedule.reduce_lr [3; 2; 1]%Q 2 (5 # 1000)%Q (Schedule.mk_optimizer [])
  = Ok ((5 # 1000)%Q, Schedule.mk_optimizer []).
Proof. reflexivity. Qed.

(** A history shorter than the epoch raises [IndexError]. *)
Example reduce_lr_short_history :
  Schedule.reduce_lr [3; 2]%Q 2 (5 # 1000)%Q (Schedule.mk_optimizer [])
  = Raise IndexError.
Proof. reflexivity. Qed.

(** On binary64: after four falls by one, a fall by five decays the rate
    to the double nearest to the product. *)
Example reduce_lr_binary64 :
  match Schedule.reduce_lr [10; 9; 8; 7; 6; 1]%float 5 0x1.47ae147ae147bp-8%float
          (Schedule.mk_optimizer [{["lr" := 0x1.47ae147ae147bp-8%float]}])
  with
  | Ok (lr, opt) =>
      PrimFloat.eqb lr 0x1.374bc6a7ef9dbp-8
      && match Schedule.param_groups opt with
         | [g] => match g !! "lr" with
                  | Some v => PrimFloat.eqb v lr
                  | None => false
                  end
         | _ => false
         end
  | Raise _ => false
  end = true.
Proof. vm_compute. reflexivity. Qed.

(** On binary64: a loss that became NaN is not [>=] the previous one, and
    before epoch 5 the rate is kept. *)
Example reduce_lr_binary64_nan :
  Schedule.reduce_lr [1%float; PrimFloat.nan] 1 0x1.47ae147ae147bp-8%float
    (Schedule.mk_optimizer [])
  = Ok (0x1.47ae147ae147bp-8%float, Schedule.mk_optimizer []).
Proof. vm_compute. reflexivity. Qed.

(** * Further properties of the code *)

(** ** Indexing and slicing *)

Section Sequences.

Context {A : Type}.

Lemma getitem_in_range (xs : list A) (i : Z) :
  (0 ≤ i < Z.of_nat (length xs))%Z →
  ∃ x, xs !! Z.to_nat i = Some x ∧ PySeq.getitem xs i = Ok x.
Proof.
  intros Hi. unfold PySeq.getitem. cbn zeta.
  rewrite (decide_False (P := (i < 0)%Z)) by lia.
  rewrite decide_True by lia.
  destruct (lookup_lt_is_Some_2 xs (Z.to_nat i)) as [x Hx]; [lia |].
  exists x. by rewrite Hx.
Qed.

Lemma getitem_wraps (xs : list A) (i : Z) :
  (- Z.of_nat (length xs) ≤ i < 0)%Z →
  PySeq.getitem xs i = PySeq.getitem xs (i + Z.of_nat (length xs)).
Proof.
  intros Hi. unfold PySeq.getitem. cbn zeta.
  rewrite (decide_True (P := (i < 0)%Z)) by lia.
  by rewrite (decide_False (P := (i + Z.of_nat (length xs) < 0)%Z)) by lia.
Qed.

Lemma getitem_outside (xs : list A) (i : Z) :
  (i < - Z.of_nat (length xs) ∨ Z.of_nat (length xs) ≤ i)%Z →
  PySeq.getitem xs i = Raise IndexError.
Proof.
  intros Hi. unfold PySeq.getitem. cbn zeta.
  destruct (decide (i < 0)%Z); by rewrite decide_False by lia.
Qed.

Lemma bound_le (n : nat) (i : Z) : PySeq.bound n i ≤ n.
Proof. unfold PySeq.bound. cbn zeta. case_decide; lia. Qed.

Lemma bound_length (n : nat) : PySeq.bound n (Z.of_nat n) = n.
Proof.
  unfold PySeq.bound. cbn zeta. rewrite decide_False by lia. lia.
Qed.

Lemma bound_zero (n : nat) : PySeq.bound n 0 = 0.
Proof. unfold PySeq.bound. cbn zeta. rewrite decide_False by lia. lia. Qed.

Lemma slice_to_take (xs : list A) (k : Z) :
  PySeq.slice_to xs k = take (PySeq.bound (length xs) k) xs.
Proof.
  unfold PySeq.slice_to, PySeq.slice. cbn zeta. rewrite bound_zero.
  by rewrite drop_0, Nat.sub_0_r.
Qed.

Lemma slice_from_drop (xs : list A) (k : Z) :
  PySeq.slice xs k (Z.of_nat (length xs)) = drop (PySeq.bound (length xs) k) xs.
Proof.
  unfold PySeq.slice. cbn zeta. rewrite bound_length.
  apply take_ge. rewrite length_drop. lia.
Qed.

End Sequences.

(** Lines 166 to 171: whatever [num_test_data] is, the two slices of a
    list put back together give the list, so no molecule is lost, repeated
    or reordered by the split; a [num_test_data] between 0 and the length
    is the size of the training part; lists of equal length are cut at the
    same place, so every SMILES string stays paired with its own target. *)
Theorem split_at_partitions {A B} (smiles_list : list A) (freeE_list : list B)
    (num_test_data : Z) :
  let '(train_smiles, test_smiles, train_freeE, test_freeE) :=
    Script.split_at smiles_list freeE_list num_test_data in
  train_smiles ++ test_smiles = smiles_list
  ∧ ((0 ≤ num_test_data ≤ Z.of_nat (length smiles_list))%Z →
     length train_smiles = Z.to_nat num_test_data)
  ∧ (length freeE_list = length smiles_list →
     train_freeE ++ test_freeE = freeE_list
     ∧ length train_freeE = length train_smiles
     ∧ length test_freeE = length test_smiles
     ∧ zip train_smiles train_freeE ++ zip test_smiles test_freeE
       = zip smiles_list freeE_list).
Proof.
  unfold Script.split_at. cbn zeta. rewrite !slice_to_take, slice_from_drop.
  split; [apply take_drop |].
  split.
  { intros Hk. rewrite length_take. unfold PySeq.bound. cbn zeta.
    rewrite decide_False by lia. lia. }
  intros Hlen. rewrite <- Hlen, slice_from_drop, Hlen.
  set (k := PySeq.bound (length smiles_list) num_test_data).
  split; [apply take_drop |].
  split; [rewrite !length_take; lia |].
  split; [rewrite !length_drop; lia |].
  rewrite <- (take_drop k smiles_list) at 3.
  rewrite <- (take_drop k freeE_list) at 3.
  rewrite zip_with_app; [done |].
  rewrite !length_take. lia.
Qed.

(** ** Reading samples back *)

Section Samples.

Context {F : Type}.
Variable MolFromSmiles : string → option Mol.

Lemma init_lengths (smiles_list : list string) (freeE_list : list F) (M : nat)
    (ds : DataSet.t F) :
  DataSet.__init__ MolFromSmiles smiles_list freeE_list M = Ok ds →
  DataSet.smiles_list ds = smiles_list
  ∧ DataSet.freeE_list ds = freeE_list
  ∧ length (DataSet.feature_list ds) = length smiles_list
  ∧ length (DataSet.adj_list ds) = length smiles_list.
Proof.
  intros Hinit. rewrite init_runs_loop in Hinit.
  destruct (for_each smiles_list _ ([], [])) as [st' | e] eqn:Hloop; [| done].
  rewrite bind_Ok in Hinit. injection Hinit as <-.
  apply process_all_inv in Hloop as (fas & -> & Hfas).
  apply Forall2_length in Hfas.
  cbn [DataSet.smiles_list DataSet.freeE_list DataSet.feature_list
       DataSet.adj_list fst snd app].
  by rewrite !length_fmap.
Qed.

(** [__getitem__] on a data set built from as many targets as SMILES
    strings: every index below [__len__] yields the dictionary with exactly
    the keys feature, adj and freeE, holding the tensors and the target
    stored at that position, and the negative index [idx - len] yields the
    same sample. *)
Theorem getitem_returns_sample (smiles_list : list string)
    (freeE_list : list F) (M : nat) (ds : DataSet.t F) (idx : Z) :
  DataSet.__init__ MolFromSmiles smiles_list freeE_list M = Ok ds →
  length freeE_list = length smiles_list →
  (0 ≤ idx < Z.of_nat (DataSet.__len__ ds))%Z →
  ∃ pf pa y sample,
    DataSet.feature_list ds !! Z.to_nat idx = Some pf
    ∧ DataSet.adj_list ds !! Z.to_nat idx = Some pa
    ∧ freeE_list !! Z.to_nat idx = Some y
    ∧ DataSetItem.__getitem__ ds idx = Ok sample
    ∧ sample !! "feature" = Some (DataSetItem.Array pf)
    ∧ sample !! "adj" = Some (DataSetItem.Array pa)
    ∧ sample !! "freeE" = Some (DataSetItem.Target y)
    ∧ dom sample = {["feature"; "adj"; "freeE"]}
    ∧ DataSetItem.__getitem__ ds (idx - Z.of_nat (DataSet.__len__ ds)) = Ok sample.
Proof.
  intros Hinit Hlen Hidx.
  apply init_lengths in Hinit as (Hs & Hf & Hfl & Hal).
  unfold DataSet.__len__ in *. rewrite Hs in Hidx |- *.
  destruct (getitem_in_range (DataSet.feature_list ds) idx) as (pf & Hpf & Gpf);
    [lia |].
  destruct (getitem_in_range (DataSet.adj_list ds) idx) as (pa & Hpa & Gpa);
    [lia |].
  destruct (getitem_in_range (DataSet.freeE_list ds) idx) as (y & Hy & Gy);
    [rewrite Hf; lia |].
  assert (DataSetItem.__getitem__ ds idx
          = Ok (<["freeE" := DataSetItem.Target y]>
                  (<["adj" := DataSetItem.Array pa]>
                     (<["feature" := DataSetItem.Array pf]> ∅)))) as Hget.
  { unfold DataSetItem.__getitem__. by rewrite Gpf, bind_Ok, Gpa, bind_Ok, Gy. }
  eexists pf, pa, y, _. rewrite Hf in Hy.
  do 3 (split; [done |]). split; [exact Hget |].
  split; [by simplify_map_eq |]. split; [by simplify_map_eq |].
  split; [by simplify_map_eq |].
  split; [rewrite !dom_insert_L; set_solver |].
  rewrite <- Hget. unfold DataSetItem.__getitem__.
  rewrite (getitem_wraps (DataSet.feature_list ds)) by lia.
  rewrite (getitem_wraps (DataSet.adj_list ds)) by lia.
  rewrite (getitem_wraps (DataSet.freeE_list ds)) by (rewrite Hf; lia).
  rewrite Hfl, Hal, Hf, Hlen.
  by replace (idx - Z.of_nat (length smiles_list) + Z.of_nat (length smiles_list))%Z
    with idx by lia.
Qed.

(** The construction does not compare the number of targets with the
    number of SMILES strings: an index at or past the end of either list
    makes [__getitem__] raise [IndexError], also when it is below
    [__len__]. *)
Theorem getitem_past_either_list (smiles_list : list string)
    (freeE_list : list F) (M : nat) (ds : DataSet.t F) (idx : Z) :
  DataSet.__init__ MolFromSmiles smiles_list freeE_list M = Ok ds →
  (Z.of_nat (length smiles_list) ≤ idx ∨ Z.of_nat (length freeE_list) ≤ idx)%Z →
  DataSetItem.__getitem__ ds idx = Raise IndexError
  ∧ DataSet.__len__ ds = length smiles_list.
Proof.
  intros Hinit Hidx.
  apply init_lengths in Hinit as (Hs & Hf & Hfl & Hal).
  split; [| unfold DataSet.__len__; by rewrite Hs].
  unfold DataSetItem.__getitem__.
  destruct (decide (Z.of_nat (length smiles_list) ≤ idx)%Z) as [Hout | Hin].
  - by rewrite (getitem_outside (DataSet.feature_list ds)) by lia.
  - destruct (decide (0 ≤ idx)%Z) as [Hpos | Hneg]; [| lia].
    destruct (getitem_in_range (DataSet.feature_list ds) idx) as (pf & _ & ->);
      [lia |].
    destruct (getitem_in_range (DataSet.adj_list ds) idx) as (pa & _ & ->);
      [lia |].
    rewrite !bind_Ok.
    by rewrite (getitem_outside (DataSet.freeE_list ds)) by (rewrite Hf; lia).
Qed.

End Samples.

(** Ethane and water with their targets: sample 1 is water's. *)
Lemma getitem_returns_sample_witness :
  ∃ ds sample,
    DataSet.__init__ Sample.toy_smiles ["CC"; "O"] [2%Q; (1 # 4)%Q] 2 = Ok ds
    ∧ DataSetItem.__getitem__ ds 1 = Ok sample
    ∧ sample !! "freeE" = Some (DataSetItem.Target (1 # 4)%Q)
    ∧ DataSetItem.__getitem__ ds (-1) = Ok sample.
Proof.
  destruct (DataSet.__init__ Sample.toy_smiles ["CC"; "O"] [2%Q; (1 # 4)%Q] 2)
    as [ds | e] eqn:Hinit; [| vm_compute in Hinit; discriminate Hinit].
  destruct (getitem_returns_sample Sample.toy_smiles ["CC"; "O"]
              [2%Q; (1 # 4)%Q] 2 ds 1 Hinit eq_refl)
    as (pf & pa & y & sample & _ & _ & Hy & Hget & _ & _ & Hfree & _ & Hneg).
  - apply (init_lengths Sample.toy_smiles) in Hinit as (Hs & _).
    unfold DataSet.__len__. rewrite Hs. cbn. lia.
  - exists ds, sample. split; [done |]. split; [exact Hget |].
    injection Hy as <-. split; [exact Hfree |].
    apply (init_lengths Sample.toy_smiles) in Hinit as (Hs & _).
    unfold DataSet.__len__ in Hneg. rewrite Hs in Hneg. exact Hneg.
Defined.

(** Two molecules with one target: the length is 2, sample 1 is missing. *)
Lemma getitem_past_either_list_witness :
  ∃ ds,
    DataSet.__init__ Sample.toy_smiles ["CC"; "O"] [2%Q] 2 = Ok ds
    ∧ DataSetItem.__getitem__ ds 1 = Raise IndexError
    ∧ DataSet.__len__ ds = 2.
Proof.
  destruct (DataSet.__init__ Sample.toy_smiles ["CC"; "O"] [2%Q] 2)
    as [ds | e] eqn:Hinit; [| vm_compute in Hinit; discriminate Hinit].
  exists ds. split; [done |].
  apply (getitem_past_either_list Sample.toy_smiles ["CC"; "O"] [2%Q] 2 ds 1 Hinit).
  right. cbn. lia.
Defined.

(** ** When loading fails, and what the loaded lists are good for *)

Section Pipeline.

Import LoaderSpec PaddedSpec.

Context {F : Type}.
Variable MolFromSmiles : string → option Mol.
Variable float : string → option F.

Lemma load_line_ok_well_formed (M : Z) (st st' : list string * list F)
    (line : list string) :
  Loader.load_line MolFromSmiles float M st line = Ok st' →
  well_formed float line.
Proof.
  unfold Loader.load_line, Loader.index, py_last, Loader.to_float, well_formed.
  destruct (line !! 1) as [smiles |] eqn:Hs; [| done]. rewrite bind_Ok.
  destruct (last line) as [field |] eqn:Hl; [| done]. rewrite bind_Ok.
  destruct (float field) as [v |] eqn:Hv; [| done]. intros _.
  split.
  - apply lookup_lt_Some in Hs. lia.
  - exists field. split; [done |]. by rewrite Hv.
Qed.

Lemma for_each_ok_inv {X S} (body : S → X → result S) (xs : list X) (st st' : S) :
  for_each xs body st = Ok st' →
  Forall (fun x => ∃ s s', body s x = Ok s') xs.
Proof.
  revert st. induction xs as [| x xs IH]; intros st; [constructor |].
  rewrite for_each_cons.
  destruct (body st x) as [s1 | e] eqn:Hx; [| done].
  rewrite bind_Ok. intros Hrest. constructor; [by exists st, s1 | by eapply IH].
Qed.

Lemma selected_fit (M : nat) (lines : list (list string)) :
  Forall (fits MolFromSmiles M)
    (selected MolFromSmiles float (Z.of_nat M) lines).*1.
Proof.
  apply Forall_fmap, Forall_forall. intros [smiles freeE] Hin.
  unfold selected in Hin. apply list_elem_of_omap in Hin as (line & _ & Hk).
  unfold kept in Hk.
  destruct (line !! 1) as [s |]; [| done]. cbn [mbind option_bind] in Hk.
  destruct (last line) as [field |]; [| done]. cbn [mbind option_bind] in Hk.
  destruct (float field) as [v |]; [| done]. cbn [mbind option_bind] in Hk.
  destruct (MolFromSmiles s) as [mol |] eqn:Hp; [| done].
  cbn [mbind option_bind] in Hk. case_decide as Hn; [| done].
  injection Hk as <- <-. exists mol. split; [done | lia].
Qed.

Lemma load_data_ok_well_formed (data : list (list string)) (max_num_atoms : Z)
    (lists : list string * list F) :
  Loader.load_data MolFromSmiles float data max_num_atoms = Ok lists →
  ∃ header lines, data = header :: lines ∧ Forall (well_formed float) lines.
Proof.
  intros Hload. destruct data as [| header lines]; [done |].
  exists header, lines. split; [done |].
  cbn [Loader.load_data] in Hload.
  apply for_each_ok_inv in Hload.
  eapply Forall_impl; [exact Hload |].
  intros line (s & s' & Hline). by eapply load_line_ok_well_formed.
Qed.

(** [load_data] returns lists exactly for a file with a header row whose
    data rows all have a field at index 1 and a last field that [float]
    accepts; an empty file, a row with fewer than two fields or a last
    field that is not a number make it raise, wherever the row stands and
    whatever its SMILES string. *)
Theorem load_data_succeeds_iff (data : list (list string)) (max_num_atoms : Z) :
  (∃ lists, Loader.load_data MolFromSmiles float data max_num_atoms = Ok lists)
  ↔ ∃ header lines, data = header :: lines ∧ Forall (well_formed float) lines.
Proof.
  split.
  - intros [lists Hload]. by eapply load_data_ok_well_formed.
  - intros (header & lines & -> & Hwf). eexists.
    cbn [Loader.load_data]. by apply load_lines_value.
Qed.

(** The lists [load_data] returns are of equal length, and with the same
    atom budget both halves of any split of them construct a [DataSet]:
    the construction cannot fail on a molecule the loader has kept, and
    the two data sets hold all kept molecules between them. *)
Theorem loaded_lists_construct (data : list (list string)) (M : nat)
    (smiles_list : list string) (freeE_list : list F) (num_test_data : Z) :
  Loader.load_data MolFromSmiles float data (Z.of_nat M)
  = Ok (smiles_list, freeE_list) →
  length freeE_list = length smiles_list
  ∧ let '(train_smiles, test_smiles, train_freeE, test_freeE) :=
      Script.split_at smiles_list freeE_list num_test_data in
    ∃ train test,
      DataSet.__init__ MolFromSmiles train_smiles train_freeE M = Ok train
      ∧ DataSet.__init__ MolFromSmiles test_smiles test_freeE M = Ok test
      ∧ DataSet.__len__ train + DataSet.__len__ test = length smiles_list
      ∧ length (DataSet.feature_list train) = DataSet.__len__ train
      ∧ length (DataSet.feature_list test) = DataSet.__len__ test.
Proof.
  intros Hload.
  destruct (load_data_ok_well_formed data (Z.of_nat M) _ Hload)
    as (header & lines & -> & Hwf).
  cbn [Loader.load_data] in Hload.
  rewrite (load_lines_value MolFromSmiles float (Z.of_nat M) lines _ Hwf) in Hload.
  cbn [fst snd app] in Hload. injection Hload as <- <-.
  split; [by rewrite !length_fmap |].
  pose proof (selected_fit M lines) as Hfit.
  unfold Script.split_at. cbn zeta.
  rewrite !slice_to_take, slice_from_drop.
  set (sl := (selected MolFromSmiles float (Z.of_nat M) lines).*1) in *.
  set (k := PySeq.bound (length sl) num_test_data).
  destruct (init_ok MolFromSmiles M (take k sl)
              (PySeq.slice_to
                 (selected MolFromSmiles float (Z.of_nat M) lines).*2 num_test_data))
    as (fas & Htrain & Hfas); [by apply Forall_take |].
  destruct (init_ok MolFromSmiles M (drop k sl)
              (PySeq.slice (selected MolFromSmiles float (Z.of_nat M) lines).*2
                 num_test_data (Z.of_nat (length sl))))
    as (fas' & Htest & Hfas'); [by apply Forall_drop |].
  rewrite slice_to_take in Htrain.
  eexists _, _. split; [exact Htrain |]. split; [exact Htest |].
  apply Forall2_length in Hfas, Hfas'.
  unfold DataSet.__len__. cbn [DataSet.smiles_list DataSet.feature_list].
  rewrite !length_fmap, <- Hfas, <- Hfas', length_take, length_drop.
  pose proof (bound_le (length sl) num_test_data). fold k in H. lia.
Qed.

End Pipeline.

(** A file whose second data row has no target column is refused, a file
    of complete rows is accepted. *)
Lemma load_data_succeeds_iff_witness :
  (∃ lists,
     Loader.load_data Sample.toy_smiles Sample.toy_float
       [["id"; "smiles"; "expt"]; ["1"; "CC"; "2"]] 64 = Ok lists)
  ∧ ¬ (∃ lists,
         Loader.load_data Sample.toy_smiles Sample.toy_float
           [["id"; "smiles"; "expt"]; ["1"; "CC"; "2"]; ["2"]] 64 = Ok lists).
Proof.
  split.
  - apply (load_data_succeeds_iff Sample.toy_smiles Sample.toy_float).
    exists ["id"; "smiles"; "expt"], [["1"; "CC"; "2"]]. split; [done |].
    apply Forall_cons. split; [| constructor].
    split; [cbn; lia |]. exists "2". by split.
  - intros Hok.
    apply (load_data_succeeds_iff Sample.toy_smiles Sample.toy_float) in Hok
      as (header & lines & [= <- <-] & Hwf).
    apply Forall_cons in Hwf as [_ Hwf]. apply Forall_cons in Hwf as [[Hlen _] _].
    cbn in Hlen. lia.
Defined.

(** Two kept rows, split after the first. *)
Lemma loaded_lists_construct_witness :
  ∃ train test,
    DataSet.__init__ Sample.toy_smiles ["CC"] [2%Q] 64 = Ok train
    ∧ DataSet.__init__ Sample.toy_smiles ["O"] [(1 # 4)%Q] 64 = Ok test
    ∧ DataSet.__len__ train + DataSet.__len__ test = 2.
Proof.
  destruct (loaded_lists_construct Sample.toy_smiles Sample.toy_float
              [["id"; "smiles"; "expt"]; ["1"; "CC"; "2"]; ["2"; "?"; "2"];
               ["3"; "O"; "0.25"]]
              64 ["CC"; "O"] [2%Q; (1 # 4)%Q] 1 eq_refl)
    as (_ & train & test & Htrain & Htest & Hlen & _).
  by exists train, test.
Defined.

(** ** The encoding for any allowable set *)

Section Encoding.

Import FeatureSpec.






End Encoding.

(** ** What the stored arrays look like *)

Section StoredArrays.

Import FeatureSpec PaddedSpec.

Variable MolFromSmiles : string → option Mol.

Lemma sum_b2z (bs : list bool) :
  foldr Z.add 0%Z (map Z.b2z bs) = Z.of_nat (count_true bs).
Proof.
  unfold count_true. induction bs as [| b bs IH]; [done |].
  cbn [map foldr]. rewrite IH. destruct b.
  - rewrite filter_cons_True by done. cbn [length Z.b2z]. lia.
  - rewrite filter_cons_False by done. cbn [Z.b2z]. lia.
Qed.

Lemma count_true_app (l k : list bool) :
  count_true (l ++ k) = count_true l + count_true k.
Proof. unfold count_true. by rewrite filter_app, length_app. Qed.

Lemma atom_vector_count (a : Atom) :
  count_true (atom_vector a) = 3 + Nat.b2n (GetIsAromatic a).
Proof.
  unfold atom_vector. rewrite !count_true_app.
  rewrite (one_hot_count 5) by apply symbol_bucket_lt.
  rewrite (one_hot_count 4) by apply charge_bucket_lt.
  rewrite (one_hot_count 6) by apply hs_bucket_lt.
  by destruct (GetIsAromatic a).
Qed.

Lemma bonded_sym (m : Mol) (i j : nat) : bonded m i j = bonded m j i.
Proof.
  unfold bonded. induction (mol_bonds m) as [| b l IH]; [done |].
  cbn [existsb]. rewrite IH. f_equal. apply orb_comm.
Qed.

Lemma adj_entry_sym (m : Mol) (i j : nat) : adj_entry m i j = adj_entry m j i.
Proof.
  unfold adj_entry. rewrite (bonded_sym m i j).
  destruct (decide (i < GetNumAtoms m ∧ j < GetNumAtoms m)) as [Hij | Hij].
  - rewrite (decide_True (P := j < GetNumAtoms m ∧ i < GetNumAtoms m)) by lia.
    destruct (decide (i = j)) as [Heq | Hne].
    + by rewrite (decide_True (P := j = i)).
    + by rewrite (decide_False (P := j = i)) by lia.
  - by rewrite (decide_False (P := j < GetNumAtoms m ∧ i < GetNumAtoms m)) by lia.
Qed.

(** The feature matrix stored for a molecule that fits holds, in the row
    of each atom, the atom's feature vector as zeros and ones; the row
    sums to 3 for a non-aromatic and to 4 for an aromatic atom (one entry
    per one-hot segment, plus the flag). *)
Theorem stored_feature_rows (smiles : string) (m : Mol) (max_num_atoms : nat)
    (st : list Np.ndarray * list Np.ndarray) :
  MolFromSmiles smiles = Some m →
  GetNumAtoms m ≤ max_num_atoms →
  ∃ pf pa,
    DataSet.process_molecule MolFromSmiles max_num_atoms st smiles
    = Ok (st.1 ++ [pf], st.2 ++ [pa])
    ∧ ∀ i a,
        mol_atoms m !! i = Some a →
        ∃ row,
          Np.rows pf !! i = Some row
          ∧ DataSet.get_atom_feature m i = Ok (atom_vector a)
          ∧ row = map Z.b2z (atom_vector a)
          ∧ Forall (fun z => z = 0 ∨ z = 1)%Z row
          ∧ foldr Z.add 0%Z row = (3 + Z.b2z (GetIsAromatic a))%Z.
Proof.
  intros Hp Hn. eexists _, _.
  split; [exact (process_molecule_ok MolFromSmiles max_num_atoms smiles m st Hp Hn) |].
  intros i a Ha. exists (map Z.b2z (atom_vector a)).
  split.
  { unfold padded_feature. cbn [Np.rows].
    apply lookup_lt_Some in Ha as Hi. unfold GetNumAtoms in Hn.
    rewrite list_lookup_fmap, lookup_seq_lt by lia.
    cbn [fmap option_fmap option_map Nat.add]. unfold feature_row. by rewrite Ha. }
  split; [by apply get_atom_feature_value |].
  split; [done |].
  split.
  { apply Forall_fmap, Forall_forall. intros [] _; cbn; lia. }
  rewrite sum_b2z, atom_vector_count. by destruct (GetIsAromatic a).
Qed.

(** The adjacency matrix stored for a well-formed molecule that fits is
    symmetric and holds only zeros and ones; off the diagonal, the entry
    of two real atoms is 1 exactly when they are bonded. *)
Theorem stored_adjacency_symmetric (smiles : string) (m : Mol)
    (max_num_atoms : nat) (st : list Np.ndarray * list Np.ndarray) :
  MolFromSmiles smiles = Some m →
  mol_wf m →
  GetNumAtoms m ≤ max_num_atoms →
  ∃ pf pa,
    DataSet.process_molecule MolFromSmiles max_num_atoms st smiles
    = Ok (st.1 ++ [pf], st.2 ++ [pa])
    ∧ (∀ i j, Np.get pa i j = Np.get pa j i)
    ∧ (∀ i j, i < max_num_atoms → j < max_num_atoms →
         Np.get pa i j = Some 0%Z ∨ Np.get pa i j = Some 1%Z)
    ∧ (∀ i j, i < GetNumAtoms m → j < GetNumAtoms m → i ≠ j →
         Np.get pa i j = Some 1%Z ↔ bonded m i j = true).
Proof.
  intros Hp Hwf Hn. eexists _, _.
  split; [exact (process_molecule_ok MolFromSmiles max_num_atoms smiles m st Hp Hn) |].
  assert (∀ i j, i < max_num_atoms → j < max_num_atoms →
            Np.get (padded_adj max_num_atoms m) i j = Some (adj_entry m i j))
    as Hget.
  { intros i j Hi Hj. unfold padded_adj. by rewrite get_table. }
  split; [| split].
  - intros i j.
    destruct (decide (i < max_num_atoms)) as [Hi | Hi];
      destruct (decide (j < max_num_atoms)) as [Hj | Hj].
    + by rewrite !Hget, adj_entry_sym.
    + unfold Np.get, padded_adj. cbn [Np.rows].
      rewrite !list_lookup_fmap, (lookup_seq_lt _ _ i) by done.
      rewrite (lookup_seq_ge _ _ j) by lia. cbn.
      rewrite list_lookup_fmap, lookup_seq_ge by lia. done.
    + unfold Np.get, padded_adj. cbn [Np.rows].
      rewrite !list_lookup_fmap, (lookup_seq_lt _ _ j) by done.
      rewrite (lookup_seq_ge _ _ i) by lia. cbn.
      rewrite list_lookup_fmap, lookup_seq_ge by lia. done.
    + unfold Np.get, padded_adj. cbn [Np.rows].
      rewrite !list_lookup_fmap.
      rewrite (lookup_seq_ge _ _ i), (lookup_seq_ge _ _ j) by lia. done.
  - intros i j Hi Hj. rewrite Hget by done. unfold adj_entry.
    case_decide; [| by left].
    destruct (decide (i = j)) as [-> | Hne].
    + rewrite bonded_irrefl by done. by right.
    + destruct (bonded m i j); [by right | by left].
  - intros i j Hi Hj Hne. rewrite Hget by lia. unfold adj_entry.
    rewrite decide_True by done. rewrite (decide_False (P := i = j)) by done.
    destruct (bonded m i j); cbn; naive_solver.
Qed.

End StoredArrays.

(** The first carbon of ethane: a row of three ones. *)
Lemma stored_feature_rows_witness :
  ∃ pf pa row,
    DataSet.process_molecule Sample.toy_smiles 3 ([], []) "CC" = Ok ([pf], [pa])
    ∧ Np.rows pf !! 0 = Some row
    ∧ foldr Z.add 0%Z row = 3%Z.
Proof.
  destruct (stored_feature_rows Sample.toy_smiles "CC" Sample.ethane 3 ([], []))
    as (pf & pa & Hrun & Hrows); [reflexivity | cbn; lia |].
  destruct (Hrows 0 Sample.methyl eq_refl) as (row & Hrow & _ & _ & _ & Hsum).
  by exists pf, pa, row.
Defined.

(** Ethane: the two carbons are bonded, in both directions. *)
Lemma stored_adjacency_symmetric_witness :
  ∃ pf pa,
    DataSet.process_molecule Sample.toy_smiles 3 ([], []) "CC" = Ok ([pf], [pa])
    ∧ Np.get pa 0 1 = Some 1%Z
    ∧ Np.get pa 1 0 = Some 1%Z.
Proof.
  destruct (stored_adjacency_symmetric Sample.toy_smiles "CC" Sample.ethane 3 ([], []))
    as (pf & pa & Hrun & Hsym & _ & Hbond); [reflexivity | | cbn; lia |].
  - repeat constructor; cbn; lia.
  - exists pf, pa. split; [exact Hrun |].
    assert (Np.get pa 0 1 = Some 1%Z) as H01.
    { apply Hbond; [cbn; lia | cbn; lia | lia | reflexivity]. }
    split; [exact H01 |]. by rewrite <- Hsym.
Defined.

(** ** Edges and bookkeeping of the schedule *)

Section ScheduleEdges.

Import ScheduleSpec RunSpec.

Context {F : Type} `{Float64 F}.

Lemma py_index_outside (loss_list : list F) (i : Z) :
  (Z.of_nat (length loss_list) ≤ i)%Z →
  Schedule.py_index loss_list i = Raise IndexError.
Proof.
  intros Hi. unfold Schedule.py_index. cbn zeta.
  rewrite (decide_False (P := (i < 0)%Z)) by lia.
  by rewrite decide_False by lia.
Qed.

(** [reduce_lr] at the two ends of the history.  At epoch 0 it reads
    nothing and returns the rate and the optimizer as they are, also for
    an empty history; at a positive epoch that the history does not reach
    it raises [IndexError]. *)
Theorem reduce_lr_history_edges (loss_list : list F) (epoch : Z) (lr : F)
    (opt : Schedule.optimizer F) :
  (epoch = 0%Z → Schedule.reduce_lr loss_list epoch lr opt = Ok (lr, opt))
  ∧ ((0 < epoch)%Z → (Z.of_nat (length loss_list) ≤ epoch)%Z →
     Schedule.reduce_lr loss_list epoch lr opt = Raise IndexError).
Proof.
  split.
  - intros ->. unfold Schedule.reduce_lr.
    rewrite decide_False by lia. rewrite bind_Ok.
    rewrite decide_False by lia. by rewrite bind_Ok.
  - intros Hpos Hlen. unfold Schedule.reduce_lr.
    rewrite (decide_True (P := (epoch ≠ 0)%Z)) by lia.
    by rewrite (py_index_outside loss_list epoch) by lia.
Qed.

(** [reduce_lr] touches nothing but the entry ["lr"]: a call that returns
    keeps the number of parameter groups, every other hyperparameter of
    every group, and either leaves a group as it was or sets its ["lr"]
    to the returned rate. *)
Theorem reduce_lr_only_writes_lr (loss_list : list F) (epoch : Z) (lr lr' : F)
    (opt opt' : Schedule.optimizer F) :
  Schedule.reduce_lr loss_list epoch lr opt = Ok (lr', opt') →
  length (Schedule.param_groups opt') = length (Schedule.param_groups opt)
  ∧ ∀ k g,
      Schedule.param_groups opt !! k = Some g →
      ∃ g',
        Schedule.param_groups opt' !! k = Some g'
        ∧ (∀ key, key ≠ "lr" → g' !! key = g !! key)
        ∧ (g' = g ∨ g' !! "lr" = Some lr').
Proof.
  intros Hrun. apply reduce_lr_outcomes in Hrun as [[= -> ->] | [= -> ->]].
  - split; [done |]. intros k g Hg. exists g. naive_solver.
  - unfold with_lr. cbn [Schedule.param_groups]. split; [by rewrite length_map |].
    intros k g Hg. eexists. rewrite list_lookup_fmap, Hg. split; [done |].
    split.
    + intros key Hkey. by rewrite lookup_insert_ne.
    + right. by rewrite lookup_insert_eq.
Qed.

Lemma with_lr_in_sync (lr : F) (opt : Schedule.optimizer F) :
  in_sync lr (with_lr lr opt).
Proof.
  unfold in_sync, with_lr. cbn [Schedule.param_groups].
  apply Forall_fmap, Forall_forall. intros g _. cbn. by rewrite lookup_insert_eq.
Qed.

(** The schedule over a run of [num_epoch] epochs whose losses are
    recorded: no call of [reduce_lr] raises, the final rate is the initial
    one multiplied by 0.95 once per decaying epoch, and when the optimizer
    starts with the initial rate in every group it ends with the final
    rate in every group. *)
Theorem train_schedule_bookkeeping (losses : list F) (num_epoch : nat) (lr : F)
    (opt : Schedule.optimizer F) :
  num_epoch ≤ length losses →
  ∃ opt',
    Schedule.train_schedule losses num_epoch lr opt
    = Ok (scaled (decay_count losses num_epoch) lr, opt')
    ∧ length (Schedule.param_groups opt') = length (Schedule.param_groups opt)
    ∧ (in_sync lr opt → in_sync (scaled (decay_count losses num_epoch) lr) opt').
Proof.
  intros Hlen. induction num_epoch as [| e IH].
  - exists opt. done.
  - destruct IH as (o & Hrun & Hgroups & Hsync); [lia |].
    rewrite train_schedule_next, Hrun, bind_Ok. cbn [fst snd decay_count].
    rewrite (reduce_lr_value (take (S e) losses) (Z.of_nat e))
      by (rewrite length_take; lia).
    destruct (decays (take (S e) losses) (Z.of_nat e)).
    + eexists. replace (decay_count losses e + 1) with (S (decay_count losses e)) by lia.
      split; [reflexivity |].
      split; [unfold with_lr; cbn; by rewrite length_map |].
      intros _. apply with_lr_in_sync.
    + exists o. rewrite Nat.add_0_r. done.
Qed.

End ScheduleEdges.

(** Epoch 3 of a history of two losses. *)
Lemma reduce_lr_history_edges_witness :
  Schedule.reduce_lr [3; 2]%Q 3 (5 # 1000)%Q (Schedule.mk_optimizer [])
  = Raise IndexError
  ∧ Schedule.reduce_lr ([] : list Q) 0 (5 # 1000)%Q (Schedule.mk_optimizer [])
    = Ok ((5 # 1000)%Q, Schedule.mk_optimizer []).
Proof.
  destruct (reduce_lr_history_edges [3; 2]%Q 3 (5 # 1000)%Q
              (Schedule.mk_optimizer [])) as [_ Hout].
  destruct (reduce_lr_history_edges ([] : list Q) 0 (5 # 1000)%Q
              (Schedule.mk_optimizer [])) as [Hzero _].
  split; [apply Hout; cbn; lia | by apply Hzero].
Defined.

(** A group with a rate and a weight decay: the weight decay survives a
    decaying call. *)
Lemma reduce_lr_only_writes_lr_witness :
  ∃ lr' opt' g',
    Schedule.reduce_lr [1; 2]%Q 1 (5 # 1000)%Q
      (Schedule.mk_optimizer [{["lr" := (5 # 1000)%Q; "weight_decay" := 0%Q]}])
    = Ok (lr', opt')
    ∧ Schedule.param_groups opt' !! 0 = Some g'
    ∧ g' !! "weight_decay" = Some 0%Q.
Proof.
  destruct (Schedule.reduce_lr [1; 2]%Q 1 (5 # 1000)%Q
              (Schedule.mk_optimizer
                 [{["lr" := (5 # 1000)%Q; "weight_decay" := 0%Q]}]))
    as [[lr' opt'] | e] eqn:Hrun; [| vm_compute in Hrun; discriminate Hrun].
  destruct (reduce_lr_only_writes_lr _ _ _ _ _ _ Hrun) as [_ Hgroups].
  destruct (Hgroups 0 _ eq_refl) as (g' & Hg' & Hother & _).
  exists lr', opt', g'. split; [done |]. split; [exact Hg' |].
  by rewrite Hother.
Defined.

(** Three epochs with one rise: one factor of 0.95, and the group
    follows. *)
Lemma train_schedule_bookkeeping_witness :
  ∃ opt',
    Schedule.train_schedule [3; 2; 4]%Q 3 (5 # 1000)%Q
      (Schedule.mk_optimizer [{["lr" := (5 # 1000)%Q]}])
    = Ok (((5 # 1000) * (95 # 100))%Q, opt')
    ∧ RunSpec.in_sync ((5 # 1000) * (95 # 100))%Q opt'.
Proof.
  destruct (train_schedule_bookkeeping [3; 2; 4]%Q 3 (5 # 1000)%Q
              (Schedule.mk_optimizer [{["lr" := (5 # 1000)%Q]}]))
    as (opt' & Hrun & _ & Hsync); [cbn; lia |].
  exists opt'. split; [exact Hrun |]. apply Hsync. by repeat constructor.
Defined.

(** ** Parameter names *)

Section Names.

Import TransferLoadSpec.

Lemma string_app_cons (c : Ascii.ascii) (s t : string) :
  String c s +:+ t = String c (s +:+ t).
Proof. reflexivity. Qed.

Lemma string_app_nil (t : string) : "" +:+ t = t.
Proof. reflexivity. Qed.

Lemma string_app_length (s t : string) :
  String.length (s +:+ t) = String.length s + String.length t.
Proof.
  induction s as [| c s IH]; [done |].
  rewrite string_app_cons. cbn [String.length]. by rewrite IH.
Qed.

Lemma string_app_empty_r (s : string) : s +:+ "" = s.
Proof.
  induction s as [| c s IH]; [done |]. by rewrite string_app_cons, IH.
Qed.

(** Of two ways to cut one string, the shorter tail is a tail of the
    longer one. *)
Lemma string_app_tails (s1 t1 s2 t2 : string) :
  s1 +:+ t1 = s2 +:+ t2 →
  String.length t1 ≤ String.length t2 →
  ∃ u, t2 = u +:+ t1 ∧ s1 = s2 +:+ u.
Proof.
  revert s1. induction s2 as [| c s2 IH]; intros s1 Heq Hlen.
  - rewrite string_app_nil in Heq. exists s1. done.
  - destruct s1 as [| c1 s1].
    + rewrite string_app_nil, string_app_cons in Heq.
      apply (f_equal String.length) in Heq.
      cbn [String.length] in Heq. rewrite string_app_length in Heq. lia.
    + rewrite !string_app_cons in Heq. injection Heq as -> Heq.
      destruct (IH s1 Heq Hlen) as (u & Hu & ->). exists u.
      by rewrite string_app_cons.
Qed.

Lemma string_app_inj_r (s1 s2 t : string) : s1 +:+ t = s2 +:+ t → s1 = s2.
Proof.
  intros Heq. destruct (string_app_tails s1 t s2 t Heq) as (u & Hu & ->); [lia |].
  apply (f_equal String.length) in Hu. rewrite string_app_length in Hu.
  destruct u; [by rewrite string_app_empty_r | cbn [String.length] in Hu; lia].
Qed.

Lemma weight_not_bias (s1 s2 : string) : s1 +:+ ".weight" ≠ s2 +:+ ".bias".
Proof.
  intros Heq. symmetry in Heq.
  destruct (string_app_tails s2 ".bias" s1 ".weight" Heq) as (u & Hu & _);
    [cbn; lia |].
  destruct u as [| a [| b [| c u]]]; try discriminate Hu.
  rewrite !string_app_cons in Hu.
  apply (f_equal String.length) in Hu. cbn [String.length] in Hu.
  rewrite string_app_length in Hu. cbn [String.length] in Hu. lia.
Qed.

Lemma stack_key_unfold (i : nat) (sfx : string) :
  ("W." +:+ pretty i) +:+ sfx = "W." +:+ (pretty i +:+ sfx).
Proof. reflexivity. Qed.

Lemma stack_key_inj (i j : nat) (s s' : string) :
  ("W." +:+ pretty i) +:+ s = ("W." +:+ pretty j) +:+ s' →
  (s = ".weight" ∨ s = ".bias") → (s' = ".weight" ∨ s' = ".bias") →
  i = j ∧ s = s'.
Proof.
  rewrite !stack_key_unfold. intros Heq%(inj (String.append "W.")).
  intros [-> | ->] [-> | ->].
  - apply string_app_inj_r in Heq. by apply (inj pretty) in Heq.
  - by apply weight_not_bias in Heq.
  - symmetry in Heq. by apply weight_not_bias in Heq.
  - apply string_app_inj_r in Heq. by apply (inj pretty) in Heq.
Qed.

Context {F : Type}.

Lemma stack_names (o : nat) (ls : list (Transfer.Linear F)) :
  NoDup (concat (imap (fun i l => Transfer.linear_parameters
                                    ("W." +:+ pretty (o + i)) l) ls)).*1
  ∧ Forall (is_stack_key o)
      (concat (imap (fun i l => Transfer.linear_parameters
                                  ("W." +:+ pretty (o + i)) l) ls)).*1.
Proof.
  revert o. induction ls as [| l ls IH]; intros o.
  - split; constructor.
  - rewrite imap_cons. cbn [concat].
    rewrite (imap_ext _ (fun i l => Transfer.linear_parameters
                                      ("W." +:+ pretty (S o + i)) l))
      by (intros i x _; cbn; by rewrite Nat.add_succ_r).
    destruct (IH (S o)) as [Hnd Hkeys].
    rewrite fmap_app. unfold Transfer.linear_parameters at 1 3.
    cbn [fmap list_fmap fst app]. rewrite Nat.add_0_r.
    split.
    + apply NoDup_cons. split.
      { intros Hin. apply elem_of_cons in Hin as [Hin | Hin].
        - by apply weight_not_bias in Hin.
        - rewrite Forall_forall in Hkeys.
          destruct (Hkeys _ Hin) as (i & sfx & Hi & Heq & Hsfx).
          apply stack_key_inj in Heq as [-> _]; [lia | by left | done]. }
      apply NoDup_cons. split; [| done].
      intros Hin. rewrite Forall_forall in Hkeys.
      destruct (Hkeys _ Hin) as (i & sfx & Hi & Heq & Hsfx).
      apply stack_key_inj in Heq as [-> _]; [lia | by right | done].
    + constructor; [exists o, ".weight"; split; [lia | by split; [| left]] |].
      constructor; [exists o, ".bias"; split; [lia | by split; [| right]] |].
      eapply Forall_impl; [exact Hkeys |].
      intros key (i & sfx & Hi & Heq & Hsfx). exists i, sfx. split; [lia | done].
Qed.

Lemma stack_length (name : nat → string) (ls : list (Transfer.Linear F)) :
  length (concat (imap (fun i l => Transfer.linear_parameters (name i) l) ls))
  = 2 * length ls.
Proof.
  revert name. induction ls as [| l ls IH]; intros name; [done |].
  rewrite imap_cons. cbn [concat]. rewrite length_app.
  unfold compose. cbn beta. rewrite (IH (fun i => name (S i))). cbn. lia.
Qed.

(** A string that differs from every element of an explicit list. *)
Ltac absent_from_list H :=
  repeat (apply elem_of_cons in H as [H | H]; [discriminate H |]);
  by apply not_elem_of_nil in H.

Lemma stack_key_head (o : nat) (key : string) :
  is_stack_key o key → ∃ rest, key = "W." +:+ rest.
Proof. intros (i & sfx & _ & -> & _). rewrite stack_key_unfold. by eexists. Qed.

Lemma named_parameters_NoDup (self : Transfer.t F) :
  NoDup (Transfer.named_parameters self).*1.
Proof.
  unfold Transfer.named_parameters.
  destruct (stack_names 0 (Transfer.W self)) as [Hnd Hkeys].
  cbn [Nat.add] in Hnd, Hkeys.
  set (stack := concat (imap (fun i l => Transfer.linear_parameters
                                           ("W." +:+ pretty i) l)
                          (Transfer.W self))) in *.
  rewrite Forall_forall in Hkeys.
  rewrite !fmap_app. cbn [Transfer.linear_parameters fmap list_fmap fst app].
  apply NoDup_cons. split.
  { intros Hin. apply elem_of_cons in Hin as [Hin | Hin]; [discriminate Hin |].
    apply elem_of_app in Hin as [Hin | Hin]; [| absent_from_list Hin].
    apply Hkeys, stack_key_head in Hin as [rest Hin].
    rewrite !string_app_cons in Hin. discriminate Hin. }
  apply NoDup_cons. split.
  { intros Hin. apply elem_of_app in Hin as [Hin | Hin]; [| absent_from_list Hin].
    apply Hkeys, stack_key_head in Hin as [rest Hin].
    rewrite !string_app_cons in Hin. discriminate Hin. }
  apply NoDup_app. split; [done |]. split.
  { intros key Hin Hfixed.
    apply Hkeys, stack_key_head in Hin as [rest ->].
    rewrite !string_app_cons in Hfixed. absent_from_list Hfixed. }
  apply (bool_decide_unpack _). vm_compute. exact I.
Qed.

Lemma state_dict_keys (self : Transfer.t F) :
  (Transfer.state_dict self).*1 = (Transfer.named_parameters self).*1.
Proof.
  unfold Transfer.state_dict. rewrite <- list_fmap_compose. by apply list_fmap_ext.
Qed.

(** The parameters of a model have pairwise distinct names, two per
    linear layer: [2 * (n_conv_layer + 4)] in all, the embedding first and
    the three layers of the head last; the state dictionary has the same
    keys in the same order. *)
Theorem parameter_names_distinct (self : Transfer.t F) :
  NoDup (Transfer.named_parameters self).*1
  ∧ length (Transfer.named_parameters self) = 2 * (length (Transfer.W self) + 4)
  ∧ (Transfer.state_dict self).*1 = (Transfer.named_parameters self).*1
  ∧ take 2 (Transfer.named_parameters self).*1
    = ["embedding.weight"; "embedding.bias"]
  ∧ drop (2 * length (Transfer.W self) + 2) (Transfer.named_parameters self).*1
    = ["fc.weight"; "fc.bias"; "linear1.weight"; "linear1.bias";
       "linear2.weight"; "linear2.bias"].
Proof.
  split; [apply named_parameters_NoDup |].
  split; [| split; [apply state_dict_keys |]].
  - unfold Transfer.named_parameters. rewrite !length_app, stack_length. cbn. lia.
  - unfold Transfer.named_parameters.
    set (stack := concat (imap (fun i l => Transfer.linear_parameters
                                             ("W." +:+ pretty i) l)
                            (Transfer.W self))).
    assert (length stack = 2 * length (Transfer.W self)) as Hlen
      by apply stack_length.
    split; [by rewrite !fmap_app |].
    rewrite !fmap_app. cbn [Transfer.linear_parameters fmap list_fmap fst app drop].
    replace (2 * length (Transfer.W self) + 2) with (S (S (length stack.*1)))
      by (rewrite length_fmap; lia).
    cbn [drop]. by rewrite drop_app_length.
Qed.

End Names.

(** ** The dictionary [load_model] builds, and what it loads *)

Section LoadModel.

Import TransferLoadSpec.

Context {F : Type} `{Float64 F} `{Activation F}.

Lemma elem_of_concat_imap {X Y} (f : nat → X → list Y) (ls : list X)
    (i : nat) (x : X) (y : Y) :
  ls !! i = Some x → y ∈ f i x → y ∈ concat (imap f ls).
Proof.
  revert f i. induction ls as [| l ls IH]; intros f i Hi Hy; [done |].
  rewrite imap_cons. cbn [concat]. apply elem_of_app.
  destruct i as [| i].
  - injection Hi as ->. by left.
  - right. by apply (IH (f ∘ S) i).
Qed.

(** The loop of [load_model] fills the dictionary with one entry per key
    of the state dictionary. *)
Lemma load_dict_built (g : gmap string (tensor F))
    (kvs : list (string * tensor F)) (acc : gmap string (tensor F)) :
  NoDup kvs.*1 →
  ∃ ld,
    for_each kvs
      (fun (load_dict : gmap string (tensor F)) kv =>
         pd ← Transfer.read_global (Some g);
         match pd !! kv.1 with
         | Some v => Ok (<[kv.1 := v]> load_dict)
         | None => Ok (<[kv.1 := kv.2]> load_dict)
         end)
      acc = Ok ld
    ∧ (∀ k v, (k, v) ∈ kvs → ld !! k = Some (default v (g !! k)))
    ∧ (∀ k, k ∉ kvs.*1 → ld !! k = acc !! k).
Proof.
  revert acc. induction kvs as [| [k0 v0] kvs IH]; intros acc Hnd.
  - exists acc. split; [done |]. split; [| done].
    intros k v Hin. by apply not_elem_of_nil in Hin.
  - cbn [fmap list_fmap fst] in Hnd. apply NoDup_cons in Hnd as [Hk0 Hnd].
    rewrite for_each_cons. cbn [Transfer.read_global fst snd]. rewrite bind_Ok.
    destruct (IH (<[k0 := default v0 (g !! k0)]> acc) Hnd) as (ld & Hrun & Hin & Hout).
    exists ld. split.
    { destruct (g !! k0) as [v |]; by rewrite bind_Ok. }
    split.
    + intros k v Hkv. apply elem_of_cons in Hkv as [[= -> ->] | Hkv].
      * rewrite (Hout k0 Hk0). by rewrite lookup_insert_eq.
      * by apply Hin.
    + intros k Hk. cbn [fmap list_fmap fst] in Hk.
      apply not_elem_of_cons in Hk as [Hne Hk].
      rewrite (Hout k Hk). by rewrite lookup_insert_ne.
Qed.

Lemma load_parameter_merge (g ld : gmap string (tensor F)) (name : string)
    (p : Transfer.Param F) :
  ld !! name = Some (default (Transfer.data p) (g !! name)) →
  (∀ v, g !! name = Some v → tshape v = tshape (Transfer.data p)) →
  Transfer.load_parameter ld name p = Ok (merge_param g name p).
Proof.
  intros Hld Hshape. unfold Transfer.load_parameter, merge_param. rewrite Hld.
  rewrite decide_True; [done |].
  destruct (g !! name) as [v |]; cbn; [by apply Hshape | done].
Qed.

Lemma load_linear_merge (g ld : gmap string (tensor F)) (name : string)
    (l : Transfer.Linear F) :
  Transfer.load_parameter ld (name +:+ ".weight") (Transfer.weight l)
  = Ok (merge_param g (name +:+ ".weight") (Transfer.weight l)) →
  Transfer.load_parameter ld (name +:+ ".bias") (Transfer.bias l)
  = Ok (merge_param g (name +:+ ".bias") (Transfer.bias l)) →
  Transfer.load_linear ld name l = Ok (merge_linear g name l).
Proof.
  intros Hw Hb. unfold Transfer.load_linear. by rewrite Hw, bind_Ok, Hb, bind_Ok.
Qed.

Lemma load_layers_merge (g ld : gmap string (tensor F)) (o : nat)
    (ls : list (Transfer.Linear F)) :
  (∀ i l, ls !! i = Some l →
     Transfer.load_linear ld ("W." +:+ pretty (o + i)) l
     = Ok (merge_linear g ("W." +:+ pretty (o + i)) l)) →
  Transfer.load_layers ld o ls
  = Ok (imap (fun i l => merge_linear g ("W." +:+ pretty (o + i)) l) ls).
Proof.
  revert o. induction ls as [| l ls IH]; intros o Hall; [done |].
  cbn [Transfer.load_layers].
  pose proof (Hall 0 l eq_refl) as Hl. rewrite Nat.add_0_r in Hl.
  rewrite Hl, bind_Ok, (IH (S o)), bind_Ok.
  - rewrite imap_cons, Nat.add_0_r. do 2 f_equal.
    apply imap_ext. intros i x _. cbn. by rewrite Nat.add_succ_r.
  - intros i x Hi. specialize (Hall (S i) x Hi).
    by rewrite Nat.add_succ_r in Hall.
Qed.

Lemma load_linear_each (d : gmap string (tensor F)) (nm : string)
    (l l' : Transfer.Linear F) (name : string) (p : Transfer.Param F) :
  Transfer.load_linear d nm l = Ok l' →
  (name, p) ∈ Transfer.linear_parameters nm l →
  ∃ p', Transfer.load_parameter d name p = Ok p'.
Proof.
  intros Hl Hmem. unfold Transfer.load_linear in Hl.
  destruct (Transfer.load_parameter d (nm +:+ ".weight") _) as [pw |] eqn:Hpw;
    [| done].
  rewrite bind_Ok in Hl.
  destruct (Transfer.load_parameter d (nm +:+ ".bias") _) as [pb |] eqn:Hpb;
    [| done].
  unfold Transfer.linear_parameters in Hmem.
  apply elem_of_cons in Hmem as [[= -> ->] | Hmem]; [by eexists |].
  apply elem_of_cons in Hmem as [[= -> ->] | Hmem]; [by eexists |].
  by apply not_elem_of_nil in Hmem.
Qed.

Lemma load_layers_each (d : gmap string (tensor F)) (o : nat)
    (ls w : list (Transfer.Linear F)) (name : string) (p : Transfer.Param F) :
  Transfer.load_layers d o ls = Ok w →
  (name, p) ∈ concat (imap (fun i l => Transfer.linear_parameters
                                         ("W." +:+ pretty (o + i)) l) ls) →
  ∃ p', Transfer.load_parameter d name p = Ok p'.
Proof.
  revert o w. induction ls as [| l ls IH]; intros o w Hw Hin.
  - by apply not_elem_of_nil in Hin.
  - cbn [Transfer.load_layers] in Hw.
    destruct (Transfer.load_linear d ("W." +:+ pretty o) l) as [l' |] eqn:Hl;
      [| done].
    rewrite bind_Ok in Hw.
    destruct (Transfer.load_layers d (S o) ls) as [w' |] eqn:Hrest; [| done].
    rewrite imap_cons in Hin. cbn [concat] in Hin. rewrite Nat.add_0_r in Hin.
    apply elem_of_app in Hin as [Hin | Hin];
      [exact (load_linear_each d _ _ _ name p Hl Hin) |].
    apply (IH (S o) w' Hrest).
    rewrite (imap_ext _ (fun i l => Transfer.linear_parameters
                                      ("W." +:+ pretty (o + S i)) l)); [done |].
    intros i x _. cbn. by rewrite Nat.add_succ_r.
Qed.

(** Every parameter that a completed [load_state_dict] has met was
    loadable on its own. *)
Lemma load_state_dict_each (self m : Transfer.t F) (d : gmap string (tensor F))
    (name : string) (p : Transfer.Param F) :
  Transfer.load_state_dict self d = Ok m →
  (name, p) ∈ Transfer.named_parameters self →
  ∃ p', Transfer.load_parameter d name p = Ok p'.
Proof.
  unfold Transfer.load_state_dict. case_bool_decide; [| done].
  destruct (Transfer.load_linear d "embedding" _) as [e |] eqn:He; [| done].
  rewrite bind_Ok.
  destruct (Transfer.load_layers d 0 _) as [w |] eqn:Hw; [| done].
  rewrite bind_Ok.
  destruct (Transfer.load_linear d "fc" _) as [f |] eqn:Hf; [| done].
  rewrite bind_Ok.
  destruct (Transfer.load_linear d "linear1" _) as [l1 |] eqn:Hl1; [| done].
  rewrite bind_Ok.
  destruct (Transfer.load_linear d "linear2" _) as [l2 |] eqn:Hl2; [| done].
  intros _ Hin. unfold Transfer.named_parameters in Hin.
  rewrite !elem_of_app in Hin.
  destruct Hin as [Hin | [Hin | [Hin | [Hin | Hin]]]].
  - exact (load_linear_each d _ _ _ name p He Hin).
  - exact (load_layers_each d 0 _ _ name p Hw Hin).
  - exact (load_linear_each d _ _ _ name p Hf Hin).
  - exact (load_linear_each d _ _ _ name p Hl1 Hin).
  - exact (load_linear_each d _ _ _ name p Hl2 Hin).
Qed.

(** [load_state_dict] raises nothing but [RuntimeError]. *)
Lemma load_state_dict_raises (self : Transfer.t F) (d : gmap string (tensor F))
    (e : exn) :
  Transfer.load_state_dict self d = Raise e → e = RuntimeError.
Proof.
  assert (∀ nm p e', Transfer.load_parameter d nm p = Raise e' → e' = RuntimeError)
    as Hpar.
  { intros nm p e'. unfold Transfer.load_parameter.
    destruct (d !! nm); [case_decide |]; by intros [= <-]. }
  assert (∀ nm l e', Transfer.load_linear d nm l = Raise e' → e' = RuntimeError)
    as Hlin.
  { intros nm l e'. unfold Transfer.load_linear.
    destruct (Transfer.load_parameter d (nm +:+ ".weight") _) as [pw | e1] eqn:Hpw.
    - rewrite bind_Ok.
      destruct (Transfer.load_parameter d (nm +:+ ".bias") _) as [pb | e2] eqn:Hpb;
        [done |].
      intros [= <-]. by eapply Hpar.
    - intros [= <-]. by eapply Hpar. }
  assert (∀ ls o e', Transfer.load_layers d o ls = Raise e' → e' = RuntimeError)
    as Hlay.
  { induction ls as [| l ls IH]; intros o e'; [done |].
    cbn [Transfer.load_layers].
    destruct (Transfer.load_linear d ("W." +:+ pretty o) l) as [l' | e1] eqn:Hl.
    - rewrite bind_Ok.
      destruct (Transfer.load_layers d (S o) ls) as [w' | e2] eqn:Hrest; [done |].
      intros [= <-]. by eapply IH.
    - intros [= <-]. by eapply Hlin. }
  unfold Transfer.load_state_dict. case_bool_decide; [| by intros [= <-]].
  destruct (Transfer.load_linear d "embedding" _) as [e0 | e0] eqn:He;
    [| intros [= <-]; by eapply Hlin].
  rewrite bind_Ok.
  destruct (Transfer.load_layers d 0 _) as [w | e1] eqn:Hw;
    [| intros [= <-]; by eapply Hlay].
  rewrite bind_Ok.
  destruct (Transfer.load_linear d "fc" _) as [f | e2] eqn:Hf;
    [| intros [= <-]; by eapply Hlin].
  rewrite bind_Ok.
  destruct (Transfer.load_linear d "linear1" _) as [l1 | e3] eqn:Hl1;
    [| intros [= <-]; by eapply Hlin].
  rewrite bind_Ok.
  destruct (Transfer.load_linear d "linear2" _) as [l2 | e4] eqn:Hl2;
    [done | intros [= <-]; by eapply Hlin].
Qed.

Lemma stack_parameters_merged (g : gmap string (tensor F)) (name : nat → string)
    (ls : list (Transfer.Linear F)) :
  concat (imap (fun i l => Transfer.linear_parameters (name i) l)
            (imap (fun i l => merge_linear g (name i) l) ls))
  = map (fun np => (np.1, merge_param g np.1 np.2))
      (concat (imap (fun i l => Transfer.linear_parameters (name i) l) ls)).
Proof.
  revert name. induction ls as [| l ls IH]; intros name; [done |].
  rewrite !imap_cons. cbn [concat]. rewrite map_app. f_equal.
  unfold compose. cbn beta. apply (IH (fun i => name (S i))).
Qed.

Lemma transfer_parameters (g : gmap string (tensor F)) (self : Transfer.t F) :
  Transfer.named_parameters (transfer g self)
  = map (fun np => (np.1, merge_param g np.1 np.2))
      (Transfer.named_parameters self).
Proof.
  unfold Transfer.named_parameters, transfer.
  cbn [Transfer.embedding Transfer.W Transfer.fc Transfer.linear1 Transfer.linear2].
  rewrite !map_app. by rewrite stack_parameters_merged.
Qed.

Lemma merge_param_idem (g : gmap string (tensor F)) (name : string)
    (p : Transfer.Param F) :
  merge_param g name (merge_param g name p) = merge_param g name p.
Proof. unfold merge_param. cbn. by destruct (g !! name). Qed.

Lemma transfer_idem (g : gmap string (tensor F)) (self : Transfer.t F) :
  transfer g (transfer g self) = transfer g self.
Proof.
  unfold transfer.
  cbn [Transfer.embedding Transfer.W Transfer.fc Transfer.linear1 Transfer.linear2].
  unfold merge_linear. cbn [Transfer.weight Transfer.bias].
  rewrite !merge_param_idem. f_equal.
  apply list_eq. intros i. rewrite !list_lookup_imap.
  destruct (Transfer.W self !! i) as [l |]; cbn; [| done].
  by rewrite !merge_param_idem.
Qed.

Lemma compatible_transfer (g : gmap string (tensor F)) (self : Transfer.t F) :
  compatible g self → compatible g (transfer g self).
Proof.
  intros Hc name p' v Hin Hg. rewrite transfer_parameters in Hin.
  apply list_elem_of_fmap in Hin as ([nm p] & [= -> ->] & Hin). cbn in *.
  unfold merge_param. cbn. by rewrite Hg.
Qed.

Lemma load_model_with_global (g arg : gmap string (tensor F))
    (self : Transfer.t F) :
  compatible g self →
  Transfer.load_model (Some g) self arg = Ok (transfer g self).
Proof.
  intros Hc.
  pose proof (named_parameters_NoDup self) as Hnd.
  pose proof (state_dict_keys self) as Hkeys.
  rewrite <- Hkeys in Hnd.
  destruct (load_dict_built g (Transfer.state_dict self) ∅ Hnd)
    as (ld & Hrun & Hin & Hout).
  unfold Transfer.load_model. cbn zeta. rewrite Hrun, bind_Ok.
  assert (∀ name p, (name, p) ∈ Transfer.named_parameters self →
            Transfer.load_parameter ld name p = Ok (merge_param g name p)) as Hpar.
  { intros name p Hmem. apply load_parameter_merge.
    - apply Hin. unfold Transfer.state_dict.
      apply list_elem_of_fmap. by exists (name, p).
    - intros v Hv. by eapply Hc. }
  unfold Transfer.load_state_dict.
  rewrite bool_decide_eq_true_2.
  2: { intros k Hk. apply elem_of_list_to_set. rewrite <- Hkeys.
       destruct (decide (k ∈ (Transfer.state_dict self).*1)) as [|Hnot]; [done |].
       apply elem_of_dom in Hk as [v Hv]. rewrite (Hout k Hnot) in Hv. done. }
  assert (∀ nm l, (∀ np, np ∈ Transfer.linear_parameters nm l →
                         np ∈ Transfer.named_parameters self) →
            Transfer.load_linear ld nm l = Ok (merge_linear g nm l)) as Hlin.
  { intros nm l Hsub. apply load_linear_merge; apply Hpar, Hsub;
      unfold Transfer.linear_parameters; [by left | by right; left]. }
  unfold Transfer.named_parameters in Hlin.
  rewrite (Hlin "embedding"), bind_Ok by (intros np Hnp; rewrite !elem_of_app; tauto).
  rewrite (load_layers_merge g ld 0), bind_Ok.
  2: { intros i l Hi. apply Hlin. intros np Hnp.
       rewrite !elem_of_app. right. left.
       by apply (elem_of_concat_imap _ _ i l). }
  rewrite (Hlin "fc"), bind_Ok by (intros np Hnp; rewrite !elem_of_app; tauto).
  rewrite (Hlin "linear1"), bind_Ok by (intros np Hnp; rewrite !elem_of_app; tauto).
  rewrite (Hlin "linear2"), bind_Ok by (intros np Hnp; rewrite !elem_of_app; tauto).
  done.
Qed.

(** A load that succeeded has met only tensors of the right shape. *)
Lemma load_model_ok_compatible (g arg : gmap string (tensor F))
    (self m : Transfer.t F) :
  Transfer.load_model (Some g) self arg = Ok m → compatible g self.
Proof.
  intros Hload name p v Hmem Hg.
  pose proof (named_parameters_NoDup self) as Hnd.
  pose proof (state_dict_keys self) as Hkeys.
  rewrite <- Hkeys in Hnd.
  destruct (load_dict_built g (Transfer.state_dict self) ∅ Hnd)
    as (ld & Hrun & Hin & Hout).
  unfold Transfer.load_model in Hload. cbn zeta in Hload.
  rewrite Hrun, bind_Ok in Hload.
  destruct (load_state_dict_each self m ld name p Hload Hmem) as [p' Hp'].
  apply load_parameter_keeps in Hp' as (_ & Hshape & Hld).
  rewrite (Hin name (Transfer.data p)) in Hld.
  2: { unfold Transfer.state_dict. apply list_elem_of_fmap. by exists (name, p). }
  rewrite Hg in Hld. cbn in Hld. injection Hld as ->. done.
Qed.

Lemma load_model_raises_runtime (g arg : gmap string (tensor F))
    (self : Transfer.t F) (e : exn) :
  Transfer.load_model (Some g) self arg = Raise e → e = RuntimeError.
Proof.
  intros Hload.
  pose proof (named_parameters_NoDup self) as Hnd.
  pose proof (state_dict_keys self) as Hkeys.
  rewrite <- Hkeys in Hnd.
  destruct (load_dict_built g (Transfer.state_dict self) ∅ Hnd)
    as (ld & Hrun & Hin & Hout).
  unfold Transfer.load_model in Hload. cbn zeta in Hload.
  rewrite Hrun, bind_Ok in Hload. by eapply load_state_dict_raises.
Qed.

(** [load_model] with the module global [pretrain_dict] bound to a
    checkpoint.  When every tensor of the checkpoint that meets a
    parameter has the parameter's shape, the call succeeds: the state
    dictionary keeps its keys and their order, each value is the
    checkpoint's where the checkpoint has the key and the model's own
    where not, and no [requires_grad] flag changes.  When some shape
    differs, the call raises [RuntimeError].  Keys of the checkpoint that
    the model lacks are ignored, and the argument plays no part. *)
Theorem load_model_transfers_global (g arg : gmap string (tensor F))
    (self : Transfer.t F) :
  (compatible g self →
   ∃ m,
     Transfer.load_model (Some g) self arg = Ok m
     ∧ Transfer.state_dict m
       = map (fun kv => (kv.1, default kv.2 (g !! kv.1))) (Transfer.state_dict self)
     ∧ map (fun np => (np.1, Transfer.requires_grad np.2))
         (Transfer.named_parameters m)
       = map (fun np => (np.1, Transfer.requires_grad np.2))
           (Transfer.named_parameters self))
  ∧ (¬ compatible g self →
     Transfer.load_model (Some g) self arg = Raise RuntimeError).
Proof.
  split.
  - intros Hc. exists (transfer g self).
    split; [by apply load_model_with_global |].
    unfold Transfer.state_dict. rewrite transfer_parameters.
    rewrite <- !list_fmap_compose. split; by apply list_fmap_ext.
  - intros Hnc.
    destruct (Transfer.load_model (Some g) self arg) as [m | e] eqn:Hload.
    + exfalso. by apply Hnc, (load_model_ok_compatible g arg self m).
    + f_equal. by eapply load_model_raises_runtime.
Qed.

(** Without a module global [pretrain_dict], [load_model] raises
    [NameError] for every model and every argument. *)
Theorem load_model_without_global (arg : gmap string (tensor F))
    (self : Transfer.t F) :
  Transfer.load_model None self arg = Raise NameError.
Proof. reflexivity. Qed.

(** Loading the same checkpoint a second time changes nothing. *)
Theorem load_model_twice (g arg arg' : gmap string (tensor F))
    (self m : Transfer.t F) :
  Transfer.load_model (Some g) self arg = Ok m →
  Transfer.load_model (Some g) m arg' = Ok m.
Proof.
  intros Hload.
  pose proof (load_model_ok_compatible g arg self m Hload) as Hc.
  rewrite (load_model_with_global g arg self Hc) in Hload. injection Hload as <-.
  rewrite (load_model_with_global g arg' _ (compatible_transfer g self Hc)).
  by rewrite transfer_idem.
Qed.

End LoadModel.

(** ** Freezing and loading in either order *)

Section FreezeLoad.

Context {F : Type} `{Float64 F} `{Activation F}.

Lemma load_parameter_no_grad (d : gmap string (tensor F)) (name : string)
    (p : Transfer.Param F) :
  Transfer.load_parameter d name (Transfer.no_grad p)
  = Transfer.load_parameter d name p ≫= fun p' => Ok (Transfer.no_grad p').
Proof.
  unfold Transfer.load_parameter, Transfer.no_grad. cbn [Transfer.data].
  destruct (d !! name) as [v |]; [| done]. by case_decide.
Qed.

Lemma load_linear_frozen (d : gmap string (tensor F)) (name : string)
    (l : Transfer.Linear F) :
  Transfer.load_linear d name
    (Transfer.mk_linear (Transfer.no_grad (Transfer.weight l))
                        (Transfer.no_grad (Transfer.bias l)))
  = Transfer.load_linear d name l
    ≫= fun l' => Ok (Transfer.mk_linear (Transfer.no_grad (Transfer.weight l'))
                                        (Transfer.no_grad (Transfer.bias l'))).
Proof.
  unfold Transfer.load_linear. cbn [Transfer.weight Transfer.bias].
  rewrite !load_parameter_no_grad.
  destruct (Transfer.load_parameter d (name +:+ ".weight") _) as [w | e]; [| done].
  rewrite !bind_Ok.
  by destruct (Transfer.load_parameter d (name +:+ ".bias") _) as [b | e].
Qed.

Lemma load_layers_frozen (d : gmap string (tensor F)) (o : nat)
    (ls : list (Transfer.Linear F)) :
  Transfer.load_layers d o
    (map (fun l => Transfer.mk_linear (Transfer.no_grad (Transfer.weight l))
                                      (Transfer.no_grad (Transfer.bias l))) ls)
  = Transfer.load_layers d o ls
    ≫= fun ls' =>
         Ok (map (fun l => Transfer.mk_linear (Transfer.no_grad (Transfer.weight l))
                                              (Transfer.no_grad (Transfer.bias l)))
               ls').
Proof.
  revert o. induction ls as [| l ls IH]; intros o; [done |].
  cbn [map Transfer.load_layers]. rewrite load_linear_frozen.
  destruct (Transfer.load_linear d ("W." +:+ pretty o) l) as [l' | e]; [| done].
  rewrite !bind_Ok, IH.
  by destruct (Transfer.load_layers d (S o) ls) as [ls' | e].
Qed.

(** [freeze] and [load_model] can be called in either order: loading into
    a frozen model gives the frozen result of loading, with the same
    exception when loading fails; and freezing twice is freezing once. *)
Theorem freeze_commutes_with_load (g : option (gmap string (tensor F)))
    (arg : gmap string (tensor F)) (self : Transfer.t F) :
  Transfer.load_model g (Transfer.freeze self) arg
  = (Transfer.load_model g self arg ≫= fun m => Ok (Transfer.freeze m))
  ∧ Transfer.freeze (Transfer.freeze self) = Transfer.freeze self.
Proof.
  split.
  - destruct (freeze_spec self) as (_ & _ & He & Hf & H1' & H2' & Hsd).
    unfold Transfer.load_model. cbn zeta. rewrite Hsd.
    destruct (for_each (Transfer.state_dict self) _ ∅) as [ld | e]; [| done].
    rewrite !bind_Ok. unfold Transfer.load_state_dict.
    assert ((Transfer.named_parameters (Transfer.freeze self)).*1
            = (Transfer.named_parameters self).*1) as ->.
    { by rewrite <- !state_dict_keys, Hsd. }
    case_bool_decide; [| done].
    rewrite He, Hf, H1', H2'. cbn [Transfer.freeze Transfer.W].
    rewrite load_layers_frozen.
    destruct (Transfer.load_linear ld "embedding" _) as [e |]; [| done].
    rewrite !bind_Ok.
    destruct (Transfer.load_layers ld 0 _) as [w |]; [| done].
    rewrite !bind_Ok.
    destruct (Transfer.load_linear ld "fc" _) as [f |]; [| done].
    rewrite !bind_Ok.
    destruct (Transfer.load_linear ld "linear1" _) as [l1 |]; [| done].
    rewrite !bind_Ok.
    by destruct (Transfer.load_linear ld "linear2" _) as [l2 |].
  - unfold Transfer.freeze.
    cbn [Transfer.embedding Transfer.W Transfer.fc Transfer.linear1 Transfer.linear2].
    f_equal. rewrite <- list_fmap_compose. by apply list_fmap_ext.
Qed.

End FreezeLoad.

(** The fresh model loaded twice from the checkpoint. *)
Lemma load_model_twice_witness :
  ∃ m,
    Transfer.load_model (Some Sample.checkpoint) Sample.fresh_model Sample.other_dict
    = Ok m
    ∧ Transfer.load_model (Some Sample.checkpoint) m Sample.checkpoint = Ok m.
Proof.
  destruct (Transfer.load_model (Some Sample.checkpoint) Sample.fresh_model
              Sample.other_dict) as [m | e] eqn:Hload;
    [| vm_compute in Hload; discriminate Hload].
  exists m. split; [done |].
  exact (load_model_twice Sample.checkpoint Sample.other_dict Sample.checkpoint
           Sample.fresh_model m Hload).
Defined.

(** ** The forward pass: shapes and frozen layers *)

Section ForwardMore.

Import TransferSpec.

Context {F : Type} `{Float64 F} `{Activation F}.

Lemma apply_wrong_width (l : Transfer.Linear F) (inn out : nat) (t : tensor F) :
  linear_shape inn out l →
  last (tshape t) ≠ Some inn →
  Transfer.apply l t = Raise RuntimeError.
Proof.
  intros [Hw Hb] Hlast. unfold Transfer.apply, linear. rewrite Hw, Hb.
  rewrite (bool_decide_eq_false_2 (last (tshape t) = Some inn)) by done.
  by rewrite andb_false_r.
Qed.

Lemma conv_wrong_columns (A t : tensor F) (l : Transfer.Linear F)
    (B N nc B' N' N'' : nat) (h : nat → nat → nat → F) :
  linear_shape nc nc l → holds3 t B N nc h →
  tshape A = [B'; N'; N''] → N'' ≠ N →
  Transfer.conv A t l = Raise RuntimeError.
Proof.
  intros Hl Ht HA HN. unfold Transfer.conv.
  destruct (apply_holds3 l nc nc t B N h Hl Ht) as (t1 & -> & [Hs1 _]).
  rewrite bind_Ok. unfold matmul. rewrite HA, Hs1.
  by rewrite (bool_decide_eq_false_2 (N'' = N)) by done.
Qed.

(** Shapes that do not fit the model end the forward pass with
    [RuntimeError]: a feature width other than 16 at the embedding, and,
    with at least one convolution layer, an adjacency whose columns do not
    match the number of atom rows. *)
Theorem forward_shape_mismatch (m : Transfer.t F)
    (n_channel d_out n_conv_layer : nat) (x A : tensor F) (B N C B' N' N'' : nat) :
  model_shape n_channel d_out n_conv_layer m →
  tshape x = [B; N; C] →
  tshape A = [B'; N'; N''] →
  (C ≠ 16 ∨ (C = 16 ∧ 1 ≤ n_conv_layer ∧ N'' ≠ N)) →
  Transfer.forward m x A = Raise RuntimeError.
Proof.
  intros (Se & Sw & Slen & Sf & S1 & S2) Hx HA Hbad.
  unfold Transfer.forward.
  destruct Hbad as [HC | (-> & Hn & HN)].
  - rewrite (apply_wrong_width (Transfer.embedding m) 16 n_channel x Se); [done |].
    rewrite Hx. cbn [last]. congruence.
  - assert (holds3 x B N 16 (fun b i k => tat x [b; i; k])) as Hx3 by done.
    destruct (apply_holds3 _ 16 n_channel x B N _ Se Hx3) as (t0 & -> & Ht0).
    rewrite bind_Ok.
    destruct (Transfer.W m) as [| l ls] eqn:HW; [cbn in Slen; lia |].
    apply Forall_cons in Sw as [Sl _].
    rewrite for_each_cons.
    by rewrite (conv_wrong_columns A t0 l B N n_channel B' N' N'' _ Sl Ht0 HA HN).
Qed.

Lemma conv_frozen (A t : tensor F) (l : Transfer.Linear F) :
  Transfer.conv A t
    (Transfer.mk_linear (Transfer.no_grad (Transfer.weight l))
                        (Transfer.no_grad (Transfer.bias l)))
  = Transfer.conv A t l.
Proof. reflexivity. Qed.

(** [freeze] leaves the forward pass as it is: on every input the frozen
    model returns what the model returns, or raises what it raises. *)
Theorem forward_ignores_freeze (m : Transfer.t F) (x A : tensor F) :
  Transfer.forward (Transfer.freeze m) x A = Transfer.forward m x A.
Proof.
  unfold Transfer.forward, Transfer.freeze.
  cbn [Transfer.embedding Transfer.W Transfer.fc Transfer.linear1 Transfer.linear2].
  destruct (Transfer.apply (Transfer.embedding m) x) as [t0 | e]; [| done].
  rewrite !bind_Ok.
  assert (∀ t, for_each
                 (map (fun l => Transfer.mk_linear
                                  (Transfer.no_grad (Transfer.weight l))
                                  (Transfer.no_grad (Transfer.bias l)))
                    (Transfer.W m))
                 (Transfer.conv A) t
               = for_each (Transfer.W m) (Transfer.conv A) t) as ->; [| done].
  induction (Transfer.W m) as [| l ls IH]; intros t; [done |].
  cbn [map]. rewrite !for_each_cons, conv_frozen.
  destruct (Transfer.conv A t l) as [t' | e]; [| done].
  rewrite !bind_Ok. apply IH.
Qed.

End ForwardMore.

(** Features of width 15 are refused. *)
Lemma forward_shape_mismatch_witness :
  Transfer.forward Sample.fresh_model
    (Sample.constant [1; 2; 15] 1%Q) (Sample.constant [1; 2; 2] 1%Q)
  = Raise RuntimeError.
Proof.
  apply (forward_shape_mismatch Sample.fresh_model 2 1 1
           (Sample.constant [1; 2; 15] 1%Q) (Sample.constant [1; 2; 2] 1%Q)
           1 2 15 1 2 2).
  - apply (init_spec (fun _ _ => (1 # 8)%Q) 2 1 1).
  - reflexivity.
  - reflexivity.
  - left. lia.
Defined.

(** ** Running [process_data] again *)

Section Again.

Variable MolFromSmiles : string → option Mol.

Lemma process_all_replay (M : nat) (smiles_list : list string)
    (fas : list (Np.ndarray * Np.ndarray)) :
  Forall2 (fun smiles fa =>
             ∀ st0, DataSet.process_molecule MolFromSmiles M st0 smiles
                    = Ok (st0.1 ++ [fa.1], st0.2 ++ [fa.2]))
          smiles_list fas →
  ∀ st, for_each smiles_list (DataSet.process_molecule MolFromSmiles M) st
        = Ok (st.1 ++ fas.*1, st.2 ++ fas.*2).
Proof.
  induction 1 as [| s fa l fas Hs _ IH]; intros st.
  - rewrite for_each_nil. cbn. rewrite !app_nil_r. by destruct st.
  - rewrite for_each_cons, Hs, bind_Ok, IH.
    cbn [fst snd fmap list_fmap]. by rewrite <- !app_assoc.
Qed.

(** [process_data] appends and never clears: called once more on a data
    set that was constructed, it succeeds and stores a second copy of every
    tensor behind the first, while [__len__] stays the number of SMILES
    strings. *)
Theorem process_data_appends_again {F} (smiles_list : list string)
    (freeE_list : list F) (M : nat) (ds : DataSet.t F) :
  DataSet.__init__ MolFromSmiles smiles_list freeE_list M = Ok ds →
  ∃ ds',
    DataSet.process_data MolFromSmiles ds = Ok ds'
    ∧ DataSet.feature_list ds' = DataSet.feature_list ds ++ DataSet.feature_list ds
    ∧ DataSet.adj_list ds' = DataSet.adj_list ds ++ DataSet.adj_list ds
    ∧ length (DataSet.feature_list ds') = 2 * DataSet.__len__ ds'
    ∧ DataSet.__len__ ds' = length smiles_list.
Proof.
  intros Hinit. rewrite init_runs_loop in Hinit.
  destruct (for_each smiles_list _ ([], [])) as [st' | e] eqn:Hloop; [| done].
  rewrite bind_Ok in Hinit. injection Hinit as <-.
  apply process_all_inv in Hloop as (fas & -> & Hfas).
  unfold DataSet.process_data.
  cbn [DataSet.smiles_list DataSet.max_num_atoms DataSet.feature_list
       DataSet.adj_list DataSet.freeE_list fst snd app].
  rewrite (process_all_replay M smiles_list fas Hfas), bind_Ok.
  eexists. split; [reflexivity |].
  apply Forall2_length in Hfas. unfold DataSet.__len__.
  cbn [DataSet.smiles_list DataSet.feature_list DataSet.adj_list fst snd].
  rewrite length_app, !length_fmap. repeat split; lia.
Qed.

End Again.

(** Ethane processed twice: two feature tensors for one SMILES string. *)
Lemma process_data_appends_again_witness :
  ∃ ds ds',
    DataSet.__init__ Sample.toy_smiles ["CC"] [2%Q] 2 = Ok ds
    ∧ DataSet.process_data Sample.toy_smiles ds = Ok ds'
    ∧ length (DataSet.feature_list ds') = 2
    ∧ DataSet.__len__ ds' = 1.
Proof.
  destruct (DataSet.__init__ Sample.toy_smiles ["CC"] [2%Q] 2)
    as [ds | e] eqn:Hinit; [| vm_compute in Hinit; discriminate Hinit].
  destruct (process_data_appends_again Sample.toy_smiles ["CC"] [2%Q] 2 ds Hinit)
    as (ds' & Hrun & _ & _ & Hlen & Hl).
  exists ds, ds'. split; [done |]. split; [done |].
  rewrite Hl in Hlen. cbn in Hlen, Hl. by split.
Defined.

(** Six molecules cut after the fourth. *)
Lemma split_at_partitions_witness :
  Script.split ["a"; "b"; "c"; "d"; "e"; "f"] [1; 2; 3; 4; 5; 6]
  = inr (["a"; "b"; "c"; "d"], ["e"; "f"], [1; 2; 3; 4], [5; 6])
  ∧ ["a"; "b"; "c"; "d"] ++ ["e"; "f"] = ["a"; "b"; "c"; "d"; "e"; "f"]
  ∧ zip ["a"; "b"; "c"; "d"] [1; 2; 3; 4] ++ zip ["e"; "f"] [5; 6]
    = zip ["a"; "b"; "c"; "d"; "e"; "f"] [1; 2; 3; 4; 5; 6].
Proof.
  split; [vm_compute; reflexivity |].
  pose proof (split_at_partitions ["a"; "b"; "c"; "d"; "e"; "f"]
                [1; 2; 3; 4; 5; 6] 4) as Hsplit.
  cbv beta iota delta [Script.split_at] in Hsplit.
  change (PySeq.slice_to ["a"; "b"; "c"; "d"; "e"; "f"] 4)
    with ["a"; "b"; "c"; "d"] in Hsplit.
  destruct Hsplit as (Hs & _ & Hrest). split; [reflexivity |].
  destruct (Hrest eq_refl) as (_ & _ & _ & Hzip). exact Hzip.
Defined.


(** The sample checkpoint fits the fresh model, whose [fc.bias] it
    replaces and whose [linear1.bias] it leaves. *)
Lemma load_model_transfers_global_witness :
  ∃ m,
    Transfer.load_model (Some Sample.checkpoint) Sample.fresh_model Sample.other_dict
    = Ok m
    ∧ Transfer.state_dict m
      = map (fun kv => (kv.1, default kv.2 (Sample.checkpoint !! kv.1)))
          (Transfer.state_dict Sample.fresh_model).
Proof.
  destruct (load_model_transfers_global Sample.checkpoint Sample.other_dict
              Sample.fresh_model) as [Hok _].
  destruct Hok as (m & Hrun & Hsd & _).
  - destruct (Transfer.load_model (Some Sample.checkpoint) Sample.fresh_model
                Sample.other_dict) as [m0 | e] eqn:Hload;
      [| vm_compute in Hload; discriminate Hload].
    exact (load_model_ok_compatible Sample.checkpoint Sample.other_dict
             Sample.fresh_model m0 Hload).
  - by exists m.
Defined.
